(** * Number Checker: records, commands and the composite-product check

    A shallow embedding of [src/App.tsx].  The React component keeps two
    collections in its state (records and command runs), mirrors both to
    [localStorage] as JSON, filters the records by a search query, and
    runs the commands ["check"] and ["check:all"], which call
    [isCompositeProduct].

    Conventions of the embedding.
    - A JavaScript string is a [string] of bytes (its UTF-8 encoding).
      [trim] takes away the white space and the line terminators of
      ECMAScript, in their UTF-8 form.  [toLowerCase] acts on the ASCII
      letters, which is what the program does on ASCII text.
    - A JavaScript number is a [number]: a finite rational, [NaN] or an
      infinity.  Arithmetic on integers is exact, and [toString] writes
      all the decimal digits of an integer, which is what the program
      does on the safe integers (up to 2^53 - 1 in absolute value).
    - Where a property is about what the platform's [toLowerCase] or
      [String(n)] do outside ASCII text and outside the safe integers,
      the function is taken with the platform's operation as a parameter
      ([isCompositeProduct_by], [filtered_by]).
    - [uid] and [new Date().toISOString()] read the environment; the
      operations take their results as arguments.
    - An optional field ([label?], [recordId]) is an [option]. *)

From Stdlib Require Import ZArith QArith Znumtheory Lia List Bool Sorted.
From Stdlib Require Import Permutation.
From Stdlib Require Import Ascii String.
From Equations Require Import Equations.
Import ListNotations.

Local Open Scope string_scope.
Local Open Scope Z_scope.

Set Warnings "-register-all".

(** ** Numbers *)

Module Number.

Inductive number : Type :=
| Finite (q : Q)
| NaN
| Infinity (negative : bool).

Definition of_Z (z : Z) : number := Finite (inject_Z z).

(** [Number.isInteger(n)]: finite, with no fractional part. *)
Definition isInteger (n : number) : bool :=
  match n with
  | Finite q => Z.rem (Qnum q) (Zpos (Qden q)) =? 0
  | NaN | Infinity _ => false
  end.

(** [n <= k] for an integer literal [k]; every comparison with [NaN]
    is false. *)
Definition leb (n : number) (k : Z) : bool :=
  match n with
  | Finite q => Qle_bool q (inject_Z k)
  | NaN => false
  | Infinity negative => negative
  end.

(** The integer a number denotes, where [isInteger] holds. *)
Definition to_Z (n : number) : Z :=
  match n with
  | Finite q => Z.quot (Qnum q) (Zpos (Qden q))
  | NaN | Infinity _ => 0
  end.

(** [String(z)] for an integer: its decimal digits, with a minus sign
    below zero (the form JavaScript prints below 10^21). *)
Definition digit_char (d : Z) : ascii := ascii_of_nat (48 + Z.to_nat d).

Equations? digits (n : Z) (acc : string) : string by wf (Z.to_nat n) lt :=
  digits n acc with Z_lt_dec n 10 => {
    | left _ := String (digit_char n) acc
    | right _ := digits (n / 10) (String (digit_char (n mod 10)) acc) }.
Proof.
  assert (n / 10 < n) by (apply Z.div_lt; lia).
  assert (0 <= n / 10) by (apply Z.div_pos; lia).
  lia.
Qed.

Definition toString (z : Z) : string :=
  if z <? 0 then String "-" (digits (- z) EmptyString) else digits z EmptyString.

End Number.

Import Number.

(** ** The composite-product check *)

Record CheckResult : Type := mkCheckResult {
  result : bool;
  explanation : string
}.

(** The loop [for (let i = 2; i * i <= n; i++) if (n % i === 0) return ...]
    from its current [i]: the first divisor found, or [None] when the loop
    runs to its end.  [%] is the truncated remainder, [Z.rem]. *)
Equations? scan (n i : Z) : option Z by wf (Z.to_nat (n + 1 - i)) lt :=
  scan n i with Z_le_dec (i * i) n => {
    | right _ := None
    | left _ with Z.eq_dec (Z.rem n i) 0 => {
        | left _ := Some i
        | right _ := scan n (i + 1) } }.
Proof. nia. Qed.

Definition not_eligible : string :=
  "Must be an integer greater than 3 (smallest product is 2*2).".

Definition product_text (n i other : Z) : string :=
  toString n ++ " = " ++ toString i ++ " × " ++ toString other.

Definition prime_text (n : Z) : string :=
  toString n
  ++ " is prime — it cannot be expressed as product of two integers > 1.".

(** [n / i] is taken where [n % i === 0], so the quotient is exact. *)
Definition isCompositeProduct (n : number) : CheckResult :=
  if negb (isInteger n) || leb n 3 then mkCheckResult false not_eligible
  else
    let z := to_Z n in
    match scan z 2 with
    | Some i => let other := Z.quot z i in
                mkCheckResult true (product_text z i other)
    | None => mkCheckResult false (prime_text z)
    end.

(** [isCompositeProduct] with [print] for the conversion of a number to
    text in the two template literals. *)
Definition isCompositeProduct_by (print : Z -> string) (n : number)
  : CheckResult :=
  if negb (isInteger n) || leb n 3
  then mkCheckResult false
         "Must be an integer greater than 3 (smallest product is 2*2)."
  else
    let z := to_Z n in
    match scan z 2 with
    | Some i => let other := Z.quot z i in
                mkCheckResult true
                  (print z ++ " = " ++ print i ++ " × " ++ print other)
    | None =>
        mkCheckResult false
          (print z
           ++ " is prime — it cannot be expressed as product of two integers > 1.")
    end.

(** ** Strings *)

Module Str.

(** [s.toLowerCase()] on the ASCII letters. *)
Definition lower_char (c : ascii) : ascii :=
  let n := nat_of_ascii c in
  if (Nat.leb 65 n && Nat.leb n 90)%bool then ascii_of_nat (n + 32) else c.

Fixpoint toLowerCase (s : string) : string :=
  match s with
  | EmptyString => EmptyString
  | String c s' => String (lower_char c) (toLowerCase s')
  end.

(** [s.trim()] takes away, at both ends, the code points WhiteSpace and
    LineTerminator of ECMAScript.  In UTF-8 these are
    - one byte: tab, line feed, vertical tab, form feed, carriage return
      and space (9 to 13, and 32);
    - two bytes: U+00A0 (194 160);
    - three bytes: U+1680 (225 154 128), U+2000 to U+200A
      (226 128 128 to 226 128 138), U+2028 and U+2029 (226 128 168 and
      169), U+202F (226 128 175), U+205F (226 129 159), U+3000
      (227 128 128) and U+FEFF (239 187 191). *)
Definition is_space (c : ascii) : bool :=
  let n := nat_of_ascii c in
  (Nat.leb 9 n && Nat.leb n 13 || Nat.eqb n 32)%bool.

Definition is_space2 (c1 c2 : ascii) : bool :=
  (Nat.eqb (nat_of_ascii c1) 194 && Nat.eqb (nat_of_ascii c2) 160)%bool.

Definition is_space3 (c1 c2 c3 : ascii) : bool :=
  let a := nat_of_ascii c1 in
  let b := nat_of_ascii c2 in
  let c := nat_of_ascii c3 in
  (Nat.eqb a 225 && Nat.eqb b 154 && Nat.eqb c 128
   || Nat.eqb a 226 && Nat.eqb b 128
      && (Nat.leb 128 c && Nat.leb c 138
          || Nat.eqb c 168 || Nat.eqb c 169 || Nat.eqb c 175)
   || Nat.eqb a 226 && Nat.eqb b 129 && Nat.eqb c 159
   || Nat.eqb a 227 && Nat.eqb b 128 && Nat.eqb c 128
   || Nat.eqb a 239 && Nat.eqb b 187 && Nat.eqb c 191)%bool.

Fixpoint trimStart (s : string) : string :=
  match s with
  | EmptyString => EmptyString
  | String c1 r1 =>
      if is_space c1 then trimStart r1
      else
        match r1 with
        | EmptyString => s
        | String c2 r2 =>
            if is_space2 c1 c2 then trimStart r2
            else
              match r2 with
              | EmptyString => s
              | String c3 r3 =>
                  if is_space3 c1 c2 c3 then trimStart r3 else s
              end
        end
  end.

(** The string up to the point from which only white space follows. *)
Fixpoint trimEnd (s : string) : string :=
  match s with
  | EmptyString => EmptyString
  | String c s' =>
      if (trimStart s =? EmptyString)%string then EmptyString
      else String c (trimEnd s')
  end.

Definition trim (s : string) : string := trimEnd (trimStart s).

(** [s.includes(q)]: [q] occurs in [s] at some position. *)
Fixpoint includes (s q : string) : bool :=
  if prefix q s then true
  else match s with
       | EmptyString => false
       | String _ s' => includes s' q
       end.

(** A string is falsy exactly when it is empty. *)
Definition truthy (s : string) : bool := negb (s =? EmptyString)%string.

(** [l.join(sep)] *)
Definition join (sep : string) (l : list string) : string := concat sep l.

End Str.

(** ** The data model *)

(** [handleCreate] stores a value only when [Number.isInteger] accepts
    it, so the [value] of a record is kept as the integer it is. *)
Record RecordItem : Type := mkRecordItem {
  rec_id : string;
  label : option string;
  value : Z;
  createdAt : string
}.

Record CommandRun : Type := mkCommandRun {
  cmd_id : string;
  recordId : option string;
  command : string;
  output : string;
  startedAt : string
}.

(** The part of the component's state the handlers read and write. *)
Record AppState : Type := mkAppState {
  records : list RecordItem;
  commands : list CommandRun;
  selectedRecord : option RecordItem;
  drawerOpen : bool
}.

Inductive Notification : Type :=
| notify_error (message : string)
| notify_success (message description : string)
| notify_info (message description : string).

(** ** Search *)

(** The predicate of [records.filter] in [filtered]; a missing label
    gives [undefined], which is falsy. *)
Definition matches (q : string) (r : RecordItem) : bool :=
  match label r with
  | Some l => Str.includes (Str.toLowerCase l) q
  | None => false
  end
  || Str.includes (toString (value r)) q
  || Str.includes (Str.toLowerCase (rec_id r)) q.

Definition filtered (query : string) (rs : list RecordItem) : list RecordItem :=
  let q := Str.toLowerCase (Str.trim query) in
  if negb (Str.truthy q) then rs else filter (matches q) rs.

(** [filtered] with [lower] for [toLowerCase] and [print] for
    [String(r.value)]. *)
Definition matches_by (lower : string -> string) (print : Z -> string)
    (q : string) (r : RecordItem) : bool :=
  match label r with
  | Some l => Str.includes (lower l) q
  | None => false
  end
  || Str.includes (print (value r)) q
  || Str.includes (lower (rec_id r)) q.

Definition filtered_by (lower : string -> string) (print : Z -> string)
    (query : string) (rs : list RecordItem) : list RecordItem :=
  let q := lower (Str.trim query) in
  if negb (Str.truthy q) then rs else filter (matches_by lower print q) rs.

(** ** Creating and deleting records *)

(** [values.label?.trim() || undefined] *)
Definition normal_label (l : option string) : option string :=
  match l with
  | None => None
  | Some s => let t := Str.trim s in if Str.truthy t then Some t else None
  end.

(** [handleCreate], with [num] the number [Number(values.value)] and
    [id], [now] the results of [uid("rec")] and of the clock. *)
Definition handleCreate (id now : string) (lbl : option string) (num : number)
    (st : AppState) : AppState * Notification :=
  if negb (isInteger num) then (st, notify_error "Value must be an integer")
  else
    let item := mkRecordItem id (normal_label lbl) (to_Z num) now in
    (mkAppState (item :: records st) (commands st)
                (selectedRecord st) (drawerOpen st),
     notify_success "Record created" ("ID: " ++ rec_id item)).

(** [c.recordId !== id]; [null] differs from every string. *)
Definition refers_to (id : string) (c : CommandRun) : bool :=
  match recordId c with
  | Some rid => (rid =? id)%string
  | None => false
  end.

Definition handleDelete (id : string) (st : AppState) : AppState * Notification :=
  (mkAppState (filter (fun r => negb (rec_id r =? id)%string) (records st))
              (filter (fun c => negb (refers_to id c)) (commands st))
              (selectedRecord st) (drawerOpen st),
   notify_info "Record deleted" id).

(** ** Running commands *)

(** [records.find((r) => r.id === rid)] for [rid] a string or [null]. *)
Definition find_record (rid : option string) (rs : list RecordItem)
  : option RecordItem :=
  match rid with
  | Some id => find (fun r => (rec_id r =? id)%string) rs
  | None => None
  end.

Definition verdict (res : CheckResult) : string :=
  (if result res then "YES" else "NO") ++ ": " ++ explanation res.

Definition check_line (r : RecordItem) : string :=
  rec_id r ++ " (" ++ toString (value r) ++ ") → "
  ++ verdict (isCompositeProduct (of_Z (value r))).

(** The separator of [join("\n\n")]: two line feeds. *)
Definition blank_line : string := String "010" (String "010" EmptyString).

(** The [output] computed at the head of [runCommand].  [opts.recordId]
    is truthy when it is a string that is not empty. *)
Definition command_output (rid : option string) (cmd : string)
    (rs : list RecordItem) : string :=
  if (cmd =? "check")%string
     && match rid with Some id => Str.truthy id | None => false end
  then
    match find_record rid rs with
    | None => "Record not found (it may have been deleted)."
    | Some rec => verdict (isCompositeProduct (of_Z (value rec)))
    end
  else if (cmd =? "check:all")%string then
    Str.join blank_line (map check_line rs)
  else "Unknown command: " ++ cmd.

Definition history_limit : nat := 200.

(** [runCommand], with [id] and [started] the results of [uid("cmd")]
    and of the clock. *)
Definition runCommand (id started : string) (rid : option string)
    (cmd : string) (st : AppState) : AppState :=
  let out := command_output rid cmd (records st) in
  let run := mkCommandRun id rid cmd out started in
  mkAppState (records st)
             (firstn history_limit (run :: commands st))
             (find_record rid (records st))
             true.

(** One call of [runCommand] as data, and a sequence of calls. *)
Record RunRequest : Type := mkRunRequest {
  req_id : string;
  req_started : string;
  req_recordId : option string;
  req_command : string
}.

Definition run (st : AppState) (q : RunRequest) : AppState :=
  runCommand (req_id q) (req_started q) (req_recordId q) (req_command q) st.

Definition run_all (qs : list RunRequest) (st : AppState) : AppState :=
  fold_left run qs st.

Definition executed (st : AppState) (q : RunRequest) : CommandRun :=
  mkCommandRun (req_id q) (req_recordId q) (req_command q)
    (command_output (req_recordId q) (req_command q) (records st))
    (req_started q).

(** ** JSON text *)

Module JSON.

(** The values [JSON.parse] can return.  An object keeps its keys in
    the order they were first set. *)
Inductive json : Type :=
| JNull
| JBool (b : bool)
| JNumber (n : number)
| JString (s : string)
| JArray (items : list json)
| JObject (fields : list (string * json)).

(** What a parsing function gives: a value and the unread text, a
    [SyntaxError], or no answer within its fuel. *)
Inductive outcome (A : Type) : Type :=
| Ok (a : A) (rest : string)
| SyntaxError
| OutOfFuel.
Arguments Ok {A} a rest.
Arguments SyntaxError {A}.
Arguments OutOfFuel {A}.

Definition bind {A B : Type} (o : outcome A) (k : A -> string -> outcome B)
  : outcome B :=
  match o with
  | Ok a rest => k a rest
  | SyntaxError => SyntaxError
  | OutOfFuel => OutOfFuel
  end.

Definition omap {A B : Type} (f : A -> B) (o : outcome A) : outcome B :=
  bind o (fun a rest => Ok (f a) rest).

Definition dquote : ascii := "034"%char.
Definition backslash : ascii := "092"%char.

(** *** Writing strings: [QuoteJSONString] *)

Definition hex_char (n : nat) : ascii :=
  if Nat.ltb n 10 then ascii_of_nat (48 + n) else ascii_of_nat (87 + n).

Definition escape2 (c : ascii) : string := String backslash (String c EmptyString).

Definition quote_char (c : ascii) : string :=
  let n := nat_of_ascii c in
  if Nat.eqb n 8 then escape2 "b"
  else if Nat.eqb n 9 then escape2 "t"
  else if Nat.eqb n 10 then escape2 "n"
  else if Nat.eqb n 12 then escape2 "f"
  else if Nat.eqb n 13 then escape2 "r"
  else if Nat.eqb n 34 then escape2 dquote
  else if Nat.eqb n 92 then escape2 backslash
  else if Nat.ltb n 32 then
    String backslash
      (String "u" (String "0" (String "0"
         (String (hex_char (Nat.div n 16))
            (String (hex_char (Nat.modulo n 16)) EmptyString)))))
  else String c EmptyString.

Fixpoint quote_body (s : string) : string :=
  match s with
  | EmptyString => EmptyString
  | String c s' => quote_char c ++ quote_body s'
  end.

Definition quote (s : string) : string :=
  String dquote (quote_body s ++ String dquote EmptyString).

(** *** Reading strings *)

Definition hex_val (c : ascii) : option N :=
  let n := nat_of_ascii c in
  if (Nat.leb 48 n && Nat.leb n 57)%bool then Some (N.of_nat (n - 48))
  else if (Nat.leb 97 n && Nat.leb n 102)%bool then Some (N.of_nat (n - 87))
  else if (Nat.leb 65 n && Nat.leb n 70)%bool then Some (N.of_nat (n - 55))
  else None.

Definition hex4 (a b c d : ascii) : option N :=
  match hex_val a, hex_val b, hex_val c, hex_val d with
  | Some x, Some y, Some z, Some w =>
      Some (((x * 16 + y) * 16 + z) * 16 + w)%N
  | _, _, _, _ => None
  end.

Definition byte_of (n : N) : ascii := ascii_of_N n.

(** The UTF-8 bytes of a code point (a lone surrogate is written like
    any other three-byte code point). *)
Definition utf8 (cp : N) : string :=
  (if cp <? 128 then String (byte_of cp) EmptyString
   else if cp <? 2048 then
     String (byte_of (192 + cp / 64))
       (String (byte_of (128 + cp mod 64)) EmptyString)
   else if cp <? 65536 then
     String (byte_of (224 + cp / 4096))
       (String (byte_of (128 + (cp / 64) mod 64))
          (String (byte_of (128 + cp mod 64)) EmptyString))
   else
     String (byte_of (240 + cp / 262144))
       (String (byte_of (128 + (cp / 4096) mod 64))
          (String (byte_of (128 + (cp / 64) mod 64))
             (String (byte_of (128 + cp mod 64)) EmptyString))))%N.

Definition is_high (cu : N) : bool := ((55296 <=? cu) && (cu <=? 56319))%N.
Definition is_low (cu : N) : bool := ((56320 <=? cu) && (cu <=? 57343))%N.

(** A high surrogate waits in [pending] for its low half. *)
Definition flush (pending : option N) : string :=
  match pending with
  | Some hi => utf8 hi
  | None => EmptyString
  end.

Definition unescape (e : ascii) : option ascii :=
  let n := nat_of_ascii e in
  if Nat.eqb n 34 then Some dquote
  else if Nat.eqb n 92 then Some backslash
  else if Nat.eqb n 47 then Some "/"%char
  else if Nat.eqb n 98 then Some "008"%char
  else if Nat.eqb n 102 then Some "012"%char
  else if Nat.eqb n 110 then Some "010"%char
  else if Nat.eqb n 114 then Some "013"%char
  else if Nat.eqb n 116 then Some "009"%char
  else None.

Definition prepend (pre : string) (o : outcome string) : outcome string :=
  omap (fun str => pre ++ str) o.

(** The characters of a string literal after its opening quote, up to
    and including the closing quote. *)
Fixpoint parse_chars (pending : option N) (s : string) : outcome string :=
  match s with
  | EmptyString => SyntaxError
  | String c s' =>
      if Ascii.eqb c dquote then Ok (flush pending) s'
      else if Ascii.eqb c backslash then
        match s' with
        | EmptyString => SyntaxError
        | String e s'' =>
            if Ascii.eqb e "u" then
              match s'' with
              | String h1 (String h2 (String h3 (String h4 r))) =>
                  match hex4 h1 h2 h3 h4 with
                  | None => SyntaxError
                  | Some cu =>
                      match pending with
                      | Some hi =>
                          if is_low cu then
                            prepend
                              (utf8 (65536 + (hi - 55296) * 1024
                                     + (cu - 56320))%N)
                              (parse_chars None r)
                          else if is_high cu then
                            prepend (utf8 hi) (parse_chars (Some cu) r)
                          else
                            prepend (utf8 hi ++ utf8 cu) (parse_chars None r)
                      | None =>
                          if is_high cu then parse_chars (Some cu) r
                          else prepend (utf8 cu) (parse_chars None r)
                      end
                  end
              | _ => SyntaxError
              end
            else
              match unescape e with
              | Some b =>
                  prepend (flush pending ++ String b EmptyString)
                          (parse_chars None s'')
              | None => SyntaxError
              end
        end
      else if Nat.ltb (nat_of_ascii c) 32 then SyntaxError
      else prepend (flush pending ++ String c EmptyString)
                   (parse_chars None s')
  end.

(** *** Reading numbers *)

Definition is_digit (c : ascii) : bool :=
  let n := nat_of_ascii c in (Nat.leb 48 n && Nat.leb n 57)%bool.

Definition digit_val (c : ascii) : Z := Z.of_nat (nat_of_ascii c) - 48.

Fixpoint span_digits (s : string) : string * string :=
  match s with
  | EmptyString => (EmptyString, EmptyString)
  | String c s' =>
      if is_digit c
      then let (ds, r) := span_digits s' in (String c ds, r)
      else (EmptyString, s)
  end.

Fixpoint horner (acc : Z) (ds : string) : Z :=
  match ds with
  | EmptyString => acc
  | String c ds' => horner (10 * acc + digit_val c) ds'
  end.

(** [0], or digits that do not start with [0]. *)
Definition valid_int (ip : string) : bool :=
  match ip with
  | EmptyString => false
  | String _ EmptyString => true
  | String c _ => negb (Ascii.eqb c "0")
  end.

Definition fraction (s : string) : option (string * string) :=
  match s with
  | String c r =>
      if Ascii.eqb c "." then
        let (fp, r') := span_digits r in
        match fp with
        | EmptyString => None
        | _ => Some (fp, r')
        end
      else Some (EmptyString, s)
  | EmptyString => Some (EmptyString, s)
  end.

Definition signed_digits (s : string) : option (Z * string) :=
  let (negative, s1) :=
    match s with
    | String c r =>
        if Ascii.eqb c "-" then (true, r)
        else if Ascii.eqb c "+" then (false, r)
        else (false, s)
    | EmptyString => (false, s)
    end in
  let (es, r) := span_digits s1 in
  match es with
  | EmptyString => None
  | _ => Some (if negative then - horner 0 es else horner 0 es, r)
  end.

Definition exponent (s : string) : option (Z * string) :=
  match s with
  | String c r =>
      if (Ascii.eqb c "e" || Ascii.eqb c "E")%bool then signed_digits r
      else Some (0, s)
  | EmptyString => Some (0, s)
  end.

(** The number [m * 10^e], exactly. *)
Definition decimal (m e : Z) : number :=
  Finite (if 0 <=? e then inject_Z (m * 10 ^ e)
          else Qred (m # Z.to_pos (10 ^ (- e)))).

Definition parse_number (s : string) : outcome json :=
  let (negative, s1) :=
    match s with
    | String c r => if Ascii.eqb c "-" then (true, r) else (false, s)
    | EmptyString => (false, s)
    end in
  let (ip, s2) := span_digits s1 in
  if valid_int ip then
    match fraction s2 with
    | None => SyntaxError
    | Some (fp, s3) =>
        match exponent s3 with
        | None => SyntaxError
        | Some (ex, s4) =>
            let m := horner 0 (ip ++ fp) in
            Ok (JNumber (decimal (if negative then - m else m)
                                 (ex - Z.of_nat (length fp)))) s4
        end
    end
  else SyntaxError.

(** *** Reading values *)

Definition is_ws (c : ascii) : bool :=
  let n := nat_of_ascii c in
  (Nat.eqb n 32 || Nat.eqb n 9 || Nat.eqb n 10 || Nat.eqb n 13)%bool.

Fixpoint skip_ws (s : string) : string :=
  match s with
  | EmptyString => EmptyString
  | String c s' => if is_ws c then skip_ws s' else s
  end.

(** The literals [null], [true] and [false]. *)
Definition keyword (word : string) (v : json) (s : string) : outcome json :=
  if prefix word s
  then Ok v (substring (length word) (length s - length word) s)
  else SyntaxError.

(** Setting a key of an object: a repeated key overwrites in place. *)
Fixpoint set_field (k : string) (v : json) (fs : list (string * json))
  : list (string * json) :=
  match fs with
  | [] => [(k, v)]
  | (k', v') :: fs' =>
      if (k' =? k)%string then (k', v) :: fs'
      else (k', v') :: set_field k v fs'
  end.

Definition object_of (members : list (string * json)) : json :=
  JObject (fold_left (fun fs kv => set_field (fst kv) (snd kv) fs) members []).

Fixpoint parse_value (fuel : nat) (s : string) : outcome json :=
  match fuel with
  | O => OutOfFuel
  | S fuel =>
      match skip_ws s with
      | EmptyString => SyntaxError
      | String c r =>
          if Ascii.eqb c dquote then omap JString (parse_chars None r)
          else if Ascii.eqb c "[" then
            match skip_ws r with
            | EmptyString => SyntaxError
            | String c' r' =>
                if Ascii.eqb c' "]" then Ok (JArray []) r'
                else omap JArray (parse_elements fuel r)
            end
          else if Ascii.eqb c "{" then
            match skip_ws r with
            | EmptyString => SyntaxError
            | String c' r' =>
                if Ascii.eqb c' "}" then Ok (JObject []) r'
                else omap object_of (parse_members fuel r)
            end
          else if Ascii.eqb c "n" then keyword "null" JNull (String c r)
          else if Ascii.eqb c "t" then keyword "true" (JBool true) (String c r)
          else if Ascii.eqb c "f" then keyword "false" (JBool false) (String c r)
          else parse_number (String c r)
      end
  end
with parse_elements (fuel : nat) (s : string) : outcome (list json) :=
  match fuel with
  | O => OutOfFuel
  | S fuel =>
      bind (parse_value fuel s) (fun v r =>
        match skip_ws r with
        | EmptyString => SyntaxError
        | String c r' =>
            if Ascii.eqb c "," then
              omap (cons v) (parse_elements fuel r')
            else if Ascii.eqb c "]" then Ok [v] r'
            else SyntaxError
        end)
  end
with parse_members (fuel : nat) (s : string)
  : outcome (list (string * json)) :=
  match fuel with
  | O => OutOfFuel
  | S fuel =>
      match skip_ws s with
      | EmptyString => SyntaxError
      | String c r =>
          if Ascii.eqb c dquote then
            bind (parse_chars None r) (fun k r1 =>
              match skip_ws r1 with
              | EmptyString => SyntaxError
              | String c1 r2 =>
                  if Ascii.eqb c1 ":" then
                    bind (parse_value fuel r2) (fun v r3 =>
                      match skip_ws r3 with
                      | EmptyString => SyntaxError
                      | String c3 r4 =>
                          if Ascii.eqb c3 "," then
                            omap (cons (k, v)) (parse_members fuel r4)
                          else if Ascii.eqb c3 "}" then Ok [(k, v)] r4
                          else SyntaxError
                      end)
                  else SyntaxError
              end)
          else SyntaxError
      end
  end.

(** Every call of the three functions above reads at least one
    character before the next one, so twice the length of the text is
    fuel enough. *)
Definition fuel_for (s : string) : nat := 2 * length s + 1.

(** [JSON.parse(text)]: the value, or [None] where it throws a
    [SyntaxError]. *)
Definition parse (text : string) : option json :=
  match parse_value (fuel_for text) text with
  | Ok v rest =>
      match skip_ws rest with
      | EmptyString => Some v
      | _ => None
      end
  | SyntaxError | OutOfFuel => None
  end.

End JSON.

Import JSON.

(** ** Persistence *)

(** [JSON.stringify(records)] and [JSON.stringify(commands)], at the
    types of the two collections.  One property of an object: *)
Definition member (k v : string) : string := quote k ++ ":" ++ v.

(** An object is written with its own properties in the order they were
    set; a property that is [undefined] is left out. *)
Definition stringify_object (members : list (string * string)) : string :=
  "{" ++ Str.join "," (map (fun m => member (fst m) (snd m)) members) ++ "}".

Definition record_members (r : RecordItem) : list (string * string) :=
  ("id", quote (rec_id r))
  :: match label r with
     | Some l => [("label", quote l)]
     | None => []
     end
  ++ [("value", toString (value r)); ("createdAt", quote (createdAt r))].

Definition stringify_record (r : RecordItem) : string :=
  stringify_object (record_members r).

(** A [recordId] of [null] is written as [null]. *)
Definition command_members (c : CommandRun) : list (string * string) :=
  [("id", quote (cmd_id c));
   ("recordId", match recordId c with
                | Some rid => quote rid
                | None => "null"
                end);
   ("command", quote (command c));
   ("output", quote (output c));
   ("startedAt", quote (startedAt c))].

Definition stringify_command (c : CommandRun) : string :=
  stringify_object (command_members c).

Definition stringify_array (items : list string) : string :=
  "[" ++ Str.join "," items ++ "]".

Definition stringify_records (rs : list RecordItem) : string :=
  stringify_array (map stringify_record rs).

Definition stringify_commands (cs : list CommandRun) : string :=
  stringify_array (map stringify_command cs).

(** The two collections as JavaScript values. *)
Definition record_value (r : RecordItem) : json :=
  JObject (("id", JString (rec_id r))
           :: match label r with
              | Some l => [("label", JString l)]
              | None => []
              end
           ++ [("value", JNumber (of_Z (value r)));
               ("createdAt", JString (createdAt r))]).

Definition command_value (c : CommandRun) : json :=
  JObject [("id", JString (cmd_id c));
           ("recordId", match recordId c with
                        | Some rid => JString rid
                        | None => JNull
                        end);
           ("command", JString (command c));
           ("output", JString (output c));
           ("startedAt", JString (startedAt c))].

Definition records_value (rs : list RecordItem) : json :=
  JArray (map record_value rs).

Definition commands_value (cs : list CommandRun) : json :=
  JArray (map command_value cs).

(** Reading a value at the type the cast [as RecordItem[]] names: an
    array of objects with a string [id], an optional string [label], an
    integer [value] and a string [createdAt]. *)
Fixpoint get_field (k : string) (fs : list (string * json)) : option json :=
  match fs with
  | [] => None
  | (k', v) :: fs' => if (k' =? k)%string then Some v else get_field k fs'
  end.

Definition as_record (j : json) : option RecordItem :=
  match j with
  | JObject fs =>
      match get_field "id" fs, get_field "value" fs, get_field "createdAt" fs with
      | Some (JString id), Some (JNumber n), Some (JString c) =>
          if isInteger n then
            match get_field "label" fs with
            | None => Some (mkRecordItem id None (to_Z n) c)
            | Some (JString l) => Some (mkRecordItem id (Some l) (to_Z n) c)
            | Some _ => None
            end
          else None
      | _, _, _ => None
      end
  | _ => None
  end.

Fixpoint all_some {A : Type} (l : list (option A)) : option (list A) :=
  match l with
  | [] => Some []
  | Some a :: l' => option_map (cons a) (all_some l')
  | None :: _ => None
  end.

Definition as_records (j : json) : option (list RecordItem) :=
  match j with
  | JArray items => all_some (map as_record items)
  | _ => None
  end.

Definition as_command (j : json) : option CommandRun :=
  match j with
  | JObject fs =>
      match get_field "id" fs, get_field "recordId" fs, get_field "command" fs,
            get_field "output" fs, get_field "startedAt" fs with
      | Some (JString id), Some rid, Some (JString cmd),
        Some (JString out), Some (JString t) =>
          match rid with
          | JNull => Some (mkCommandRun id None cmd out t)
          | JString r => Some (mkCommandRun id (Some r) cmd out t)
          | _ => None
          end
      | _, _, _, _, _ => None
      end
  | _ => None
  end.

Definition as_commands (j : json) : option (list CommandRun) :=
  match j with
  | JArray items => all_some (map as_command items)
  | _ => None
  end.

(** [localStorage]: what is stored under each key, if anything. *)
Definition Storage : Type := string -> option string.

Definition getItem (k : string) (ls : Storage) : option string := ls k.

Definition setItem (k v : string) (ls : Storage) : Storage :=
  fun k' => if (k' =? k)%string then Some v else ls k'.

Definition LS_RECORDS : string := "app_records_v1".
Definition LS_COMMANDS : string := "app_cmds_v1".

(** The initialiser of [useState]:
    [try { raw ? JSON.parse(raw) : [] } catch { [] }]. *)
Definition load (raw : option string) : json :=
  match raw with
  | Some text =>
      if Str.truthy text then
        match JSON.parse text with
        | Some v => v
        | None => JArray []
        end
      else JArray []
  | None => JArray []
  end.

Definition load_records (ls : Storage) : json := load (getItem LS_RECORDS ls).
Definition load_commands (ls : Storage) : json := load (getItem LS_COMMANDS ls).

(** The two [useEffect] hooks. *)
Definition save_records (rs : list RecordItem) (ls : Storage) : Storage :=
  setItem LS_RECORDS (stringify_records rs) ls.

Definition save_commands (cs : list CommandRun) (ls : Storage) : Storage :=
  setItem LS_COMMANDS (stringify_commands cs) ls.

(** ** The vocabulary of the properties *)

(** [n] is the integer [z]. *)
Definition denotes (n : number) (z : Z) : Prop :=
  match n with
  | Finite q => q == inject_Z z
  | NaN | Infinity _ => False
  end.

(** [commands[0]], the run the drawer shows. *)
Definition latest (st : AppState) : option CommandRun := head (commands st).

Definition empty_state : AppState := mkAppState [] [] None false.

(** The order of the strings [toISOString] gives: they have one length,
    so the order of their characters is the order of the instants. *)
Definition earlier (a b : string) : Prop := String.leb a b = true.


Definition newest_first (c d : CommandRun) : Prop :=
  earlier (startedAt d) (startedAt c).


(** A session of 201 runs of ["check:all"], one millisecond apart. *)
Definition pad3 (k : nat) : string :=
  (if Nat.ltb k 10 then "00" else if Nat.ltb k 100 then "0" else EmptyString)
  ++ toString (Z.of_nat k).

Definition sample_request (k : nat) : RunRequest :=
  mkRunRequest ("cmd_" ++ toString (Z.of_nat k))
               ("2025-01-01T00:00:00." ++ pad3 k ++ "Z")
               None "check:all".

Definition sample_requests : list RunRequest := map sample_request (seq 0 201).

(** [q] occurs in [s]. *)
Definition contains (s q : string) : Prop := exists a b, s = a ++ q ++ b.

(** Only white space of ASCII, or nothing at all. *)
Definition blank (s : string) : Prop :=
  forall c, In c (list_ascii_of_string s) -> Str.is_space c = true.

(** One of the three fields of [r] contains [q], whatever the case of
    the letters of the label and of the id. *)
Definition field_match (q : string) (r : RecordItem) : Prop :=
  (exists l, label r = Some l /\ contains (Str.toLowerCase l) q)
  \/ contains (toString (value r)) q
  \/ contains (Str.toLowerCase (rec_id r)) q.

(** [l1] is [l2] with some elements left out. *)
Inductive Subseq {A : Type} : list A -> list A -> Prop :=
| Subseq_nil : Subseq [] []
| Subseq_skip x l1 l2 : Subseq l1 l2 -> Subseq l1 (x :: l2)
| Subseq_keep x l1 l2 : Subseq l1 l2 -> Subseq (x :: l1) (x :: l2).

Definition sample_record : RecordItem :=
  mkRecordItem "a" None 0 "2025-01-01T00:00:00.000Z".

(** What can come after a value: the end of the text, or the next
    character inside an array or an object. *)
Definition closes (rest : string) : Prop :=
  rest = EmptyString
  \/ exists c r, rest = String c r /\ (c = "," \/ c = "}" \/ c = "]")%char.

Fixpoint digits_only (s : string) : bool :=
  match s with
  | EmptyString => true
  | String c s' => is_digit c && digits_only s'
  end.

(** *** White space, letter case and numerals *)

Definition bytes (l : list nat) : string :=
  string_of_list_ascii (map ascii_of_nat l).

(** The white space and the line terminators of ECMAScript, in UTF-8:
    the six of ASCII, U+00A0, U+1680, U+2000 to U+200A, U+2028, U+2029,
    U+202F, U+205F, U+3000 and U+FEFF. *)
Definition white_space : list string :=
  map bytes
    [[9]; [10]; [11]; [12]; [13]; [32]; [194; 160]; [225; 154; 128];
     [226; 128; 128]; [226; 128; 129]; [226; 128; 130]; [226; 128; 131];
     [226; 128; 132]; [226; 128; 133]; [226; 128; 134]; [226; 128; 135];
     [226; 128; 136]; [226; 128; 137]; [226; 128; 138];
     [226; 128; 168]; [226; 128; 169]; [226; 128; 175]; [226; 129; 159];
     [227; 128; 128]; [239; 187; 191]]%nat.

(** Nothing but white space. *)
Inductive all_white : string -> Prop :=
| white_nil : all_white EmptyString
| white_cons x w : In x white_space -> all_white w -> all_white (x ++ w).

Definition starts_white (t : string) : Prop :=
  exists x t', In x white_space /\ t = x ++ t'.

Definition ends_white (t : string) : Prop :=
  exists t' x, In x white_space /\ t = t' ++ x.

(** [t] is [s] without the white space around it. *)
Definition stripped (s t : string) : Prop :=
  exists w1 w2,
    s = w1 ++ t ++ w2 /\ all_white w1 /\ all_white w2
    /\ ~ starts_white t /\ ~ ends_white t.

(** A byte that continues a character of several bytes. *)
Definition continuation (c : ascii) : bool :=
  (Nat.leb 128 (nat_of_ascii c) && Nat.leb (nat_of_ascii c) 191)%bool.

(** The letter [c] without its case. *)
Definition fold_char (c : ascii) : ascii :=
  match c with
  | "A" => "a"
  | "B" => "b"
  | "C" => "c"
  | "D" => "d"
  | "E" => "e"
  | "F" => "f"
  | "G" => "g"
  | "H" => "h"
  | "I" => "i"
  | "J" => "j"
  | "K" => "k"
  | "L" => "l"
  | "M" => "m"
  | "N" => "n"
  | "O" => "o"
  | "P" => "p"
  | "Q" => "q"
  | "R" => "r"
  | "S" => "s"
  | "T" => "t"
  | "U" => "u"
  | "V" => "v"
  | "W" => "w"
  | "X" => "x"
  | "Y" => "y"
  | "Z" => "z"
  | _ => c
  end%char.

(** The same text, up to the case of the letters. *)
Fixpoint same_letters (a b : string) : Prop :=
  match a, b with
  | EmptyString, EmptyString => True
  | String c a', String d b' => fold_char c = fold_char d /\ same_letters a' b'
  | _, _ => False
  end.

(** [q] occurs in [s], up to the case of the letters. *)
Definition contains_ci (s q : string) : Prop :=
  exists a m b, s = a ++ m ++ b /\ same_letters m q.

(** [s] is the decimal numeral of [z]: digits with no zero in front,
    after a minus sign below zero. *)
Definition numeral (z : Z) (s : string) : Prop :=
  exists ds,
    digits_only ds = true /\ valid_int ds = true /\ horner 0 ds = Z.abs z
    /\ s = if z <? 0 then String "-" ds else ds.

(** One of the three fields of [r] contains [t], up to the case of the
    letters. *)
Definition field_match_ci (t : string) (r : RecordItem) : Prop :=
  (exists l, label r = Some l /\ contains_ci l t)
  \/ contains_ci (toString (value r)) t
  \/ contains_ci (rec_id r) t.

(** Text of ASCII characters, and the safe integers (up to 2^53 - 1 in
    absolute value): where [toLowerCase] and [toString] are those of the
    program. *)
Fixpoint plain (s : string) : bool :=
  match s with
  | EmptyString => true
  | String c s' => Nat.ltb (nat_of_ascii c) 128 && plain s'
  end.

Definition safe (z : Z) : Prop :=
  - 9007199254740991 <= z <= 9007199254740991.

Definition plain_record (r : RecordItem) : Prop :=
  match label r with Some l => plain l = true | None => True end
  /\ plain (rec_id r) = true
  /\ safe (value r).

Ltac each_white H :=
  cbv in H;
  repeat (destruct H as [H | H]; [try subst |]);
  [.. | contradiction].

(** Induction on a non-negative integer, with the claim known below it. *)
Ltac strong_induction n :=
  let H := fresh "H" in
  intros H; generalize H; pattern n;
  apply Z_lt_induction; [clear n H | lia];
  let IH := fresh "IH" in
  let Hn := fresh "Hn" in
  intros n IH Hn.

(** [text] is read as [v] by [parse_value] with fuel [n] or more,
    whatever follows it. *)
Definition reads (n : nat) (text : string) (v : json) : Prop :=
  forall fuel rest,
    (n <= fuel)%nat -> closes rest ->
    parse_value fuel (text ++ rest) = Ok v rest.

Definition members_text (ms : list (string * string)) : string :=
  Str.join "," (map (fun m => member (fst m) (snd m)) ms).

(** The text and the value of each property of a record and of a run. *)
Definition record_triples (r : RecordItem) : list (string * string * json) :=
  ("id", quote (rec_id r), JString (rec_id r))
  :: match label r with
     | Some l => [("label", quote l, JString l)]
     | None => []
     end
  ++ [("value", toString (value r), JNumber (of_Z (value r)));
      ("createdAt", quote (createdAt r), JString (createdAt r))].

Definition command_triples (c : CommandRun) : list (string * string * json) :=
  [("id", quote (cmd_id c), JString (cmd_id c));
   match recordId c with
   | Some rid => ("recordId", quote rid, JString rid)
   | None => ("recordId", "null", JNull)
   end;
   ("command", quote (command c), JString (command c));
   ("output", quote (output c), JString (output c));
   ("startedAt", quote (startedAt c), JString (startedAt c))].

(** ** The command history table, the drawer and the export *)

(** The "View output" button of the row [rec] of the history table. *)
Definition viewOutput (rec : CommandRun) (st : AppState) : AppState :=
  mkAppState (records st)
             (rec :: filter (fun x => negb (cmd_id x =? cmd_id rec)%string)
                            (commands st))
             (find_record (recordId rec) (records st))
             true.

(** The "Delete command log?" confirmation of the row [rec]. *)
Definition deleteCommandLog (rec : CommandRun) (st : AppState) : AppState :=
  mkAppState (records st)
             (filter (fun c => negb (cmd_id c =? cmd_id rec)%string)
                     (commands st))
             (selectedRecord st) (drawerOpen st).

(** The drawer: its title, and under "Latest run" either
    [commands[0].output] or the text "No output". *)
Definition drawer_title (st : AppState) : string :=
  match selectedRecord st with
  | Some r => "Output — " ++ rec_id r
  | None => "Output"
  end.

Inductive DrawerBody : Type :=
| shows (out : string)
| no_output.

Definition drawer_body (st : AppState) : DrawerBody :=
  match commands st with
  | c :: _ => shows (output c)
  | [] => no_output
  end.

(** [JSON.stringify(records, null, 2)] of the "Export" button: every
    level is indented by two spaces more, a property is written
    [key: value], and an empty array or object stays on one line. *)
Definition line_feed : string := String "010" EmptyString.

Definition pretty_member (m : string * string) : string :=
  quote (fst m) ++ ": " ++ snd m.

Definition pretty_object (indent : string) (members : list (string * string))
  : string :=
  match members with
  | [] => "{}"
  | _ => "{" ++ line_feed ++ (indent ++ "  ")
         ++ Str.join ("," ++ line_feed ++ (indent ++ "  "))
                     (map pretty_member members)
         ++ line_feed ++ indent ++ "}"
  end.

Definition pretty_array (indent : string) (items : list string) : string :=
  match items with
  | [] => "[]"
  | _ => "[" ++ line_feed ++ (indent ++ "  ")
         ++ Str.join ("," ++ line_feed ++ (indent ++ "  ")) items
         ++ line_feed ++ indent ++ "]"
  end.

Definition export_records (rs : list RecordItem) : string :=
  pretty_array EmptyString
    (map (fun r => pretty_object "  " (record_members r)) rs).

(** ** Sessions *)

(** What the user can do, with what the environment hands to the handler. *)
Inductive Event : Type :=
| Create (id now : string) (lbl : option string) (num : number)
| Delete (id : string)
| Run (q : RunRequest)
| ViewOutput (rec : CommandRun)
| DeleteLog (rec : CommandRun).

Definition handle (st : AppState) (e : Event) : AppState :=
  match e with
  | Create id now lbl num => fst (handleCreate id now lbl num st)
  | Delete id => fst (handleDelete id st)
  | Run q => run st q
  | ViewOutput rec => viewOutput rec st
  | DeleteLog rec => deleteCommandLog rec st
  end.

Definition play (es : list Event) (st : AppState) : AppState :=
  fold_left handle es st.

(** A condition on the events of a session, each taken in the state in
    which it happens. *)
Fixpoint along (P : AppState -> Event -> Prop) (es : list Event)
    (st : AppState) : Prop :=
  match es with
  | [] => True
  | e :: es' => P st e /\ along P es' (handle st e)
  end.

(** The two buttons of a row exist for the rows of the history table. *)
Definition on_a_row (st : AppState) (e : Event) : Prop :=
  match e with
  | ViewOutput rec | DeleteLog rec => In rec (commands st)
  | _ => True
  end.

(** [uid] gives an id that no record, respectively no run, has yet. *)
Definition fresh_uid (st : AppState) (e : Event) : Prop :=
  match e with
  | Create id _ _ _ => ~ In id (map rec_id (records st))
  | Run q => ~ In (req_id q) (map cmd_id (commands st))
  | _ => True
  end.

(** A label as [handleCreate] stores it: not empty, with no white space
    at either end. *)
Definition tidy (l : option string) : Prop :=
  match l with
  | None => True
  | Some s => s <> EmptyString /\ ~ starts_white s /\ ~ ends_white s
  end.

(** [z] is a product of two integers greater than 1. *)
Definition composite (z : Z) : Prop :=
  exists a b, 1 < a /\ 1 < b /\ a * b = z.

(** A run of ["check"] that carries a verdict. *)
Definition verdict_run (c : CommandRun) : Prop :=
  command c = "check"
  /\ (prefix "YES: " (output c) = true \/ prefix "NO: " (output c) = true).

(** Every verdict in the history is the one of a record that exists. *)
Definition truthful (st : AppState) : Prop :=
  forall c, In c (commands st) -> verdict_run c ->
    exists r, In r (records st)
              /\ recordId c = Some (rec_id r)
              /\ output c = verdict (isCompositeProduct (of_Z (value r))).

Definition distinct_ids (st : AppState) : Prop :=
  NoDup (map rec_id (records st)) /\ NoDup (map cmd_id (commands st)).

Definition sample_state : AppState :=
  mkAppState
    [mkRecordItem "rec_b" (Some "sample-1") 12 "2025-01-01T00:00:01.000Z";
     mkRecordItem "rec_a" None 7 "2025-01-01T00:00:00.000Z"]
    [mkCommandRun "cmd_a" (Some "rec_a") "check"
       "NO: 7 is prime — it cannot be expressed as product of two integers > 1."
       "2025-01-01T00:00:02.000Z"]
    None false.

Definition sample_session : list Event :=
  [Create "rec_c" "2025-01-01T00:00:03.000Z" (Some "  third ") (of_Z 15);
   Run (mkRunRequest "cmd_b" "2025-01-01T00:00:04.000Z" (Some "rec_c") "check");
   Run (mkRunRequest "cmd_c" "2025-01-01T00:00:05.000Z" None "check:all");
   ViewOutput (mkCommandRun "cmd_a" (Some "rec_a") "check"
       "NO: 7 is prime — it cannot be expressed as product of two integers > 1."
       "2025-01-01T00:00:02.000Z");
   Delete "rec_a"].

(** *** Sessions that the history does not survive in order *)

(** ["check"] on an id that no record has leaves a run that refers to
    that id. *)
Definition ghost_state : AppState :=
  runCommand "cmd_1" "2025-01-01T00:00:00.000Z" (Some "ghost") "check"
    empty_state.





(** A creation that is accepted, and the record it creates. *)
Definition creation (c : string * string * option string * Z) : Event :=
  let '(id, now, lbl, z) := c in Create id now lbl (of_Z z).

Definition created (c : string * string * option string * Z) : RecordItem :=
  let '(id, now, lbl, z) := c in mkRecordItem id (normal_label lbl) z now.

(** White space of JSON only. *)
Fixpoint spaces_only (w : string) : bool :=
  match w with
  | EmptyString => true
  | String c w' => is_ws c && spaces_only w'
  end.

(** [text] is read as [v] whatever character follows it. *)
Definition reads_free (n : nat) (text : string) (v : json) : Prop :=
  forall fuel rest,
    (n <= fuel)%nat -> parse_value fuel (text ++ rest) = Ok v rest.

(** * Properties *)

Example check_12 :
  isCompositeProduct (of_Z 12) = mkCheckResult true "12 = 2 × 6".
Proof. reflexivity. Qed.

Example check_13 :
  isCompositeProduct (of_Z 13)
  = mkCheckResult false
      "13 is prime — it cannot be expressed as product of two integers > 1.".
Proof. reflexivity. Qed.

Example check_2 : isCompositeProduct (of_Z 2) = mkCheckResult false not_eligible.
Proof. reflexivity. Qed.

Example check_half :
  isCompositeProduct (Finite (9 # 2)) = mkCheckResult false not_eligible.
Proof. reflexivity. Qed.

Example check_all_4_7 :
  command_output None "check:all"
    [mkRecordItem "rec_b" None 4 "2025-01-01T00:00:01.000Z";
     mkRecordItem "rec_a" None 7 "2025-01-01T00:00:00.000Z"]
  = "rec_b (4) → YES: 4 = 2 × 2" ++ blank_line
    ++ "rec_a (7) → NO: 7 is prime — it cannot be expressed as product of two integers > 1.".
Proof. reflexivity. Qed.

Example search_by_label :
  filtered " SAMPLE "
    [mkRecordItem "rec_b" None 4 "2025-01-01T00:00:01.000Z";
     mkRecordItem "rec_a" (Some "sample-1") 12 "2025-01-01T00:00:00.000Z"]
  = [mkRecordItem "rec_a" (Some "sample-1") 12 "2025-01-01T00:00:00.000Z"].
Proof. reflexivity. Qed.

Example trim_ascii : Str.trim "  a b  " = "a b".
Proof. reflexivity. Qed.

(** U+00A0, [x], U+2003, U+FEFF: only the [x] is left. *)
Example trim_unicode :
  Str.trim (bytes [194; 160; 120; 226; 128; 131; 239; 187; 191]%nat) = "x".
Proof. reflexivity. Qed.

(** The bytes of [é] (195 169) are no white space. *)
Example trim_keeps_letters :
  Str.trim (bytes [32; 195; 169; 32]%nat) = bytes [195; 169]%nat.
Proof. reflexivity. Qed.

Example create_trims_label :
  records (fst (handleCreate "rec_1" "2025-01-01T00:00:00.000Z"
                  (Some (bytes [194; 160; 120; 194; 160]%nat)) (of_Z 12)
                  empty_state))
  = [mkRecordItem "rec_1" (Some "x") 12 "2025-01-01T00:00:00.000Z"].
Proof. reflexivity. Qed.

Example parse_nested :
  JSON.parse " [1.50, -2e2, true, null, [ ], { } ] "
  = Some (JArray [JNumber (Finite (3 # 2)); JNumber (of_Z (-200));
                  JBool true; JNull; JArray []; JObject []]).
Proof. reflexivity. Qed.

Example parse_rejects :
  JSON.parse "[1,]" = None /\ JSON.parse "01" = None
  /\ JSON.parse "nul" = None /\ JSON.parse "1." = None
  /\ JSON.parse "[1] x" = None.
Proof. repeat split. Qed.

(** ** Strings *)

Section StringFacts.

Lemma append_assoc (a b c : string) : (a ++ b) ++ c = a ++ b ++ c.
Proof. induction a as [| x a IH]; simpl; [reflexivity | now rewrite IH]. Qed.

Lemma append_nil_r (s : string) : s ++ EmptyString = s.
Proof. induction s as [| c s IH]; simpl; [reflexivity | now rewrite IH]. Qed.

Lemma length_append (a b : string) :
  String.length (a ++ b) = (String.length a + String.length b)%nat.
Proof. induction a as [| c a IH]; simpl; [reflexivity | now rewrite IH]. Qed.


End StringFacts.

(** ** Numbers *)

Section NumberFacts.

Lemma isInteger_of_Z z : isInteger (of_Z z) = true.
Proof. unfold isInteger, of_Z; simpl. rewrite Z.rem_1_r. reflexivity. Qed.

Lemma to_Z_of_Z z : to_Z (of_Z z) = z.
Proof. unfold to_Z, of_Z; simpl. apply Z.quot_1_r. Qed.

Lemma leb_of_Z z k : leb (of_Z z) k = (z <=? k).
Proof.
  unfold leb, of_Z, Qle_bool; simpl. now rewrite !Z.mul_1_r.
Qed.

Lemma denotes_of_Z z : denotes (of_Z z) z.
Proof. simpl. reflexivity. Qed.

Lemma isInteger_denotes n :
  isInteger n = true <-> exists z, denotes n z.
Proof.
  destruct n as [[num den] | | b]; simpl.
  - rewrite Z.eqb_eq, Z.rem_divide by discriminate.
    unfold Qeq; simpl. split; intros [z Hz]; exists z; lia.
  - split; [discriminate | intros [_ []]].
  - split; [discriminate | intros [_ []]].
Qed.

Lemma denotes_to_Z n z : denotes n z -> to_Z n = z.
Proof.
  destruct n as [[num den] | | b]; simpl; try contradiction.
  unfold Qeq; simpl. intros H. rewrite Z.mul_1_r in H. subst num.
  apply Z.quot_mul. discriminate.
Qed.

Lemma denotes_leb n z k : denotes n z -> leb n k = (z <=? k).
Proof.
  destruct n as [[num den] | | b]; simpl; try contradiction.
  unfold Qeq, Qle_bool; simpl. intros H.
  rewrite Z.mul_1_r in *. subst num.
  apply eq_true_iff_eq. rewrite !Z.leb_le.
  split; intro; nia.
Qed.

End NumberFacts.

(** ** The composite-product check *)

Section CompositeCheck.

(** What the loop has established when it stops. *)
Lemma scan_spec n i :
  2 <= i ->
  (forall d, 2 <= d < i -> ~ (d | n)) ->
  match scan n i with
  | Some k =>
      i <= k /\ k * k <= n /\ (k | n) /\ (forall d, 2 <= d < k -> ~ (d | n))
  | None => forall d, 2 <= d -> d * d <= n -> ~ (d | n)
  end.
Proof.
  funelim (scan n i); intros Hi Hlow.
  - intros d Hd Hdd. apply Hlow. nia.
  - repeat split; try lia; try assumption.
    apply Z.rem_divide; [lia | assumption].
  - match goal with
    | Hrem : Z.rem n i <> 0, IH : 2 <= i + 1 -> _ |- _ =>
        assert (Hstep : forall d, 2 <= d < i + 1 -> ~ (d | n));
        [ intros d Hd; destruct (Z.eq_dec d i) as [-> | Hne];
          [ intro Hdiv; apply Hrem; apply Z.rem_divide; [lia | assumption]
          | apply Hlow; lia ]
        | specialize (IH ltac:(lia) Hstep) as IH' ]
    end.
    destruct (scan n (i + 1)) as [k |].
    + destruct IH' as (H1 & H2 & H3 & H4).
      repeat split; try lia; assumption.
    + assumption.
Qed.

(** No divisor up to the square root means no proper divisor. *)
Lemma prime_of_no_small_divisor n :
  1 < n ->
  (forall d, 2 <= d -> d * d <= n -> ~ (d | n)) ->
  prime n.
Proof.
  intros Hn Hnone. apply prime_alt. split; [assumption |].
  intros d Hd Hdiv.
  destruct Hdiv as [c Hc].
  destruct (Z_le_dec (d * d) n) as [Hle | Hgt].
  - apply (Hnone d); [lia | assumption | exists c; assumption].
  - apply (Hnone c); [nia | nia | exists d; lia].
Qed.

Lemma not_prime_of_divisor n k :
  2 <= k -> k * k <= n -> (k | n) -> ~ prime n.
Proof.
  intros Hk Hkk Hdiv Hp.
  apply prime_alt in Hp. destruct Hp as [_ Hp].
  apply (Hp k); [nia | assumption].
Qed.

Lemma isCompositeProduct_of_Z n :
  3 < n ->
  isCompositeProduct (of_Z n)
  = match scan n 2 with
    | Some i => mkCheckResult true (product_text n i (Z.quot n i))
    | None => mkCheckResult false (prime_text n)
    end.
Proof.
  intros Hn. unfold isCompositeProduct.
  rewrite isInteger_of_Z, leb_of_Z, to_Z_of_Z.
  replace (n <=? 3) with false by (symmetry; apply Z.leb_gt; lia).
  reflexivity.
Qed.

End CompositeCheck.

(** C2.  For every input that is not an integer, and for every integer
    [n <= 3], the check answers [false] with the one explanation
    ["Must be an integer greater than 3 (smallest product is 2*2)."],
    whatever the reason; the function is total, so nothing is raised. *)
Theorem isCompositeProduct_not_eligible (n : number)
    (H : (forall z, ~ denotes n z) \/ (exists z, denotes n z /\ z <= 3)) :
  isCompositeProduct n
  = mkCheckResult false
      "Must be an integer greater than 3 (smallest product is 2*2).".
Proof.
  unfold isCompositeProduct, not_eligible.
  destruct H as [Hnone | (z & Hz & Hle)].
  - assert (Hint : isInteger n = false).
    { destruct (isInteger n) eqn:E; [| reflexivity].
      apply isInteger_denotes in E. destruct E as [z Hz].
      exfalso. exact (Hnone z Hz). }
    rewrite Hint. reflexivity.
  - rewrite (denotes_leb n z 3 Hz).
    replace (z <=? 3) with true by (symmetry; apply Z.leb_le; lia).
    rewrite orb_true_r. reflexivity.
Qed.

Lemma isCompositeProduct_not_eligible_witness :
  ((forall z, ~ denotes (of_Z 3) z) \/ (exists z, denotes (of_Z 3) z /\ z <= 3))
  /\ isCompositeProduct (of_Z 3)
     = mkCheckResult false
         "Must be an integer greater than 3 (smallest product is 2*2).".
Proof.
  assert (H : (forall z, ~ denotes (of_Z 3) z)
              \/ (exists z, denotes (of_Z 3) z /\ z <= 3)).
  { right. exists 3. split; [reflexivity | lia]. }
  split; [exact H | exact (isCompositeProduct_not_eligible (of_Z 3) H)].
Defined.

(** ** Running commands *)

Section RunCommand.

Variables (id started : string) (rid : option string) (cmd : string).
Variable st : AppState.

Lemma runCommand_commands :
  commands (runCommand id started rid cmd st)
  = firstn history_limit
      (mkCommandRun id rid cmd (command_output rid cmd (records st)) started
       :: commands st).
Proof. reflexivity. Qed.

Lemma runCommand_latest :
  latest (runCommand id started rid cmd st)
  = Some (mkCommandRun id rid cmd
            (command_output rid cmd (records st)) started).
Proof. reflexivity. Qed.

Lemma runCommand_records :
  records (runCommand id started rid cmd st) = records st.
Proof. reflexivity. Qed.

End RunCommand.

Lemma find_record_absent id rs :
  (forall r, In r rs -> rec_id r <> id) -> find_record (Some id) rs = None.
Proof.
  intros Habs. simpl.
  destruct (find (fun r => (rec_id r =? id)%string) rs) as [r |] eqn:E;
    [| reflexivity].
  apply find_some in E. destruct E as [Hin Heq].
  apply String.eqb_eq in Heq. exfalso. exact (Habs r Hin Heq).
Qed.

Lemma truthy_nonempty s : s <> EmptyString -> Str.truthy s = true.
Proof.
  intros H. unfold Str.truthy.
  destruct (String.eqb_spec s EmptyString); [contradiction | reflexivity].
Qed.



(** C4, as the claim states it, fails: the empty string is a [recordId]
    that resolves to no record, and ["check"] answers it as an unknown
    command. *)
Lemma check_empty_recordId_not_reported :
  exists r,
    latest (runCommand "cmd_1" "2025-01-01T00:00:00.000Z" (Some EmptyString)
                       "check" empty_state) = Some r
    /\ find_record (recordId r) (records empty_state) = None
    /\ output r = "Unknown command: check"
    /\ output r <> "Record not found (it may have been deleted).".
Proof.
  eexists. split; [reflexivity |]. repeat split. discriminate.
Qed.

(** C4, amended.  [runCommand] is total.  ["check"] with a [recordId]
    that is not empty and matches no record, and any command other than
    ["check"] and ["check:all"], put one run at the head of the history,
    truncated like every other: the first with a "not found" message,
    the second with ["Unknown command: <command>"]. *)
Theorem runCommand_soft_failure (id started : string) (rid : option string)
    (cmd : string) (st : AppState)
    (H : (cmd = "check"
          /\ exists rid', rid = Some rid' /\ rid' <> EmptyString
                          /\ forall r, In r (records st) -> rec_id r <> rid')
         \/ (cmd <> "check" /\ cmd <> "check:all")) :
  exists out,
    out = (if (cmd =? "check")%string
           then "Record not found (it may have been deleted)."
           else "Unknown command: " ++ cmd)
    /\ commands (runCommand id started rid cmd st)
       = firstn history_limit
           (mkCommandRun id rid cmd out started :: commands st)
    /\ latest (runCommand id started rid cmd st)
       = Some (mkCommandRun id rid cmd out started).
Proof.
  eexists. split; [reflexivity |].
  rewrite runCommand_commands, runCommand_latest.
  assert (Hout : command_output rid cmd (records st)
                 = if (cmd =? "check")%string
                   then "Record not found (it may have been deleted)."
                   else "Unknown command: " ++ cmd).
  { unfold command_output.
    destruct H as [(-> & rid' & -> & Hne & Habs) | (Hc & Hca)].
    - simpl. rewrite (truthy_nonempty rid' Hne).
      pose proof (find_record_absent rid' (records st) Habs) as Hf.
      simpl in Hf. rewrite Hf. reflexivity.
    - destruct (String.eqb_spec cmd "check"); [contradiction |].
      destruct (String.eqb_spec cmd "check:all"); [contradiction |].
      reflexivity. }
  rewrite Hout. split; reflexivity.
Qed.

Lemma runCommand_soft_failure_witness :
  exists out,
    out = "Unknown command: foo"
    /\ commands (runCommand "cmd_1" "2025-01-01T00:00:00.000Z" None "foo"
                            empty_state)
       = firstn history_limit
           [mkCommandRun "cmd_1" None "foo" out "2025-01-01T00:00:00.000Z"]
    /\ latest (runCommand "cmd_1" "2025-01-01T00:00:00.000Z" None "foo"
                          empty_state)
       = Some (mkCommandRun "cmd_1" None "foo" out "2025-01-01T00:00:00.000Z").
Proof.
  apply (runCommand_soft_failure "cmd_1" "2025-01-01T00:00:00.000Z" None "foo"
           empty_state).
  right. split; discriminate.
Defined.

(** C10.  ["check"] with no [recordId], or with the empty string, takes
    the last branch: the run is stored and its output is
    ["Unknown command: check"]. *)
Theorem check_without_recordId (id started : string) (st : AppState) :
  latest (runCommand id started None "check" st)
  = Some (mkCommandRun id None "check" "Unknown command: check" started)
  /\ latest (runCommand id started (Some EmptyString) "check" st)
     = Some (mkCommandRun id (Some EmptyString) "check"
               "Unknown command: check" started).
Proof. split; reflexivity. Qed.

(** ** Deleting records *)

Section Delete.

Variable id : string.

Lemma filter_idem {A : Type} (p : A -> bool) (l : list A) :
  filter p (filter p l) = filter p l.
Proof. apply forallb_filter_id, forallb_filter. Qed.

Lemma filter_all {A : Type} (p : A -> bool) (l : list A) :
  (forall a, In a l -> p a = true) -> filter p l = l.
Proof.
  intros H. apply forallb_filter_id. apply forallb_forall. exact H.
Qed.

Lemma refers_to_spec c : refers_to id c = true <-> recordId c = Some id.
Proof.
  unfold refers_to. destruct (recordId c) as [rid |].
  - rewrite String.eqb_eq. split; congruence.
  - split; discriminate.
Qed.

End Delete.

(** C5, as the claim states it, fails: after ["check"] on the id
    ["ghost"], which no record has, the history holds a run that refers
    to it; deleting ["ghost"], an id that is absent, takes that run away,
    so it is not a no-op. *)
Lemma handleDelete_absent_removes_runs :
  (forall r, In r (records ghost_state) -> rec_id r <> "ghost")
  /\ commands ghost_state
     = [mkCommandRun "cmd_1" (Some "ghost") "check"
          "Record not found (it may have been deleted)."
          "2025-01-01T00:00:00.000Z"]
  /\ commands (fst (handleDelete "ghost" ghost_state)) = []
  /\ fst (handleDelete "ghost" ghost_state) <> ghost_state.
Proof.
  split; [intros r [] |]. split; [reflexivity |]. split; [reflexivity |].
  discriminate.
Qed.

(** C5, amended.  After [handleDelete id] no record has that id and no
    run in the history refers to it; a second call changes nothing; where
    no record has the id the records stay as they were, while the runs
    that refer to the id are removed all the same; the whole state then
    stays as it was exactly when no run refers to the id. *)
Theorem handleDelete_cascade (id : string) (st : AppState) :
  (forall r, In r (records (fst (handleDelete id st))) -> rec_id r <> id)
  /\ (forall c, In c (commands (fst (handleDelete id st))) ->
                recordId c <> Some id)
  /\ fst (handleDelete id (fst (handleDelete id st))) = fst (handleDelete id st)
  /\ ((forall r, In r (records st) -> rec_id r <> id) ->
      records (fst (handleDelete id st)) = records st)
  /\ ((forall r, In r (records st) -> rec_id r <> id) ->
      (fst (handleDelete id st) = st
       <-> forall c, In c (commands st) -> recordId c <> Some id)).
Proof.
  assert (Hrec : (forall r, In r (records st) -> rec_id r <> id) ->
                 filter (fun r => negb (rec_id r =? id)%string) (records st)
                 = records st).
  { intros Habs. apply filter_all. intros r Hin.
    apply negb_true_iff, String.eqb_neq. exact (Habs r Hin). }
  assert (Hcmd : (forall c, In c (commands st) -> recordId c <> Some id) ->
                 filter (fun c => negb (refers_to id c)) (commands st)
                 = commands st).
  { intros Habs. apply filter_all. intros c Hin.
    apply negb_true_iff. destruct (refers_to id c) eqn:E; [| reflexivity].
    apply refers_to_spec in E. exfalso. exact (Habs c Hin E). }
  split; [| split; [| split; [| split]]]; simpl.
  - intros r Hin. apply filter_In in Hin. destruct Hin as [_ Hne].
    apply negb_true_iff, String.eqb_neq in Hne. exact Hne.
  - intros c Hin. apply filter_In in Hin. destruct Hin as [_ Hne].
    apply negb_true_iff in Hne. intro Heq.
    apply refers_to_spec in Heq. congruence.
  - unfold handleDelete; simpl. rewrite !filter_idem. reflexivity.
  - exact Hrec.
  - intros Hr. split.
    + intros Hsame c Hin Heq.
      apply (f_equal commands) in Hsame. cbn [commands] in Hsame.
      rewrite <- Hsame in Hin.
      apply filter_In in Hin. destruct Hin as [_ Hc].
      apply refers_to_spec in Heq. rewrite Heq in Hc. discriminate.
    + intros Hc. unfold handleDelete; simpl.
      rewrite Hrec, Hcmd by assumption.
      destruct st; reflexivity.
Qed.

(** ** The bounded history *)

Section Sorting.

Context {A : Type}.
Variable R : A -> A -> Prop.

Lemma StronglySorted_app (l1 l2 : list A) :
  StronglySorted R (l1 ++ l2)
  <-> StronglySorted R l1 /\ StronglySorted R l2
      /\ (forall a b, In a l1 -> In b l2 -> R a b).
Proof.
  induction l1 as [| x l1 IH]; simpl.
  - split.
    + intros H. repeat split; [constructor | exact H | intros a b []].
    + intros (_ & H & _). exact H.
  - split.
    + intros H. apply StronglySorted_inv in H. destruct H as [Hs Hall].
      apply IH in Hs. destruct Hs as (H1 & H2 & H12).
      rewrite Forall_app in Hall. destruct Hall as [Ha1 Ha2].
      repeat split.
      * constructor; assumption.
      * assumption.
      * intros a b [<- | Hin] Hb.
        -- rewrite Forall_forall in Ha2. apply Ha2. exact Hb.
        -- apply H12; assumption.
    + intros (H1 & H2 & H12).
      apply StronglySorted_inv in H1. destruct H1 as [Hs Hall].
      constructor.
      * apply IH. repeat split; try assumption.
        intros a b Ha Hb. apply H12; [right |]; assumption.
      * rewrite Forall_app. split; [assumption |].
        rewrite Forall_forall. intros b Hb. apply H12; [left; reflexivity |].
        exact Hb.
Qed.




End Sorting.



Section History.

Lemma firstn_app_firstn {A : Type} (m n : nat) (a b : list A) :
  (m <= n)%nat -> firstn m (a ++ firstn n b) = firstn m (a ++ b).
Proof.
  revert m n. induction a as [| x a IH]; intros m n Hmn; simpl.
  - rewrite firstn_firstn. f_equal. lia.
  - destruct m as [| m]; [reflexivity |]. simpl. f_equal.
    apply IH. lia.
Qed.

Lemma run_all_records qs st : records (run_all qs st) = records st.
Proof.
  revert st. induction qs as [| q qs IH]; intros st; [reflexivity |].
  simpl. rewrite IH. reflexivity.
Qed.

Lemma executed_ext st st' q :
  records st' = records st -> executed st' q = executed st q.
Proof. intros H. unfold executed. rewrite H. reflexivity. Qed.

(** The history after a sequence of runs: the runs, newest first, then
    what was there before, cut at the limit. *)
Lemma run_all_commands q qs st :
  commands (run_all (q :: qs) st)
  = firstn history_limit
      (rev (map (executed st) (q :: qs)) ++ commands st).
Proof.
  revert q st. induction qs as [| q' qs IH]; intros q st.
  - reflexivity.
  - change (run_all (q :: q' :: qs) st) with (run_all (q' :: qs) (run st q)).
    rewrite IH.
    rewrite (map_ext (executed (run st q)) (executed st))
      by (intros; apply executed_ext; reflexivity).
    change (commands (run st q))
      with (firstn history_limit (executed st q :: commands st)).
    rewrite firstn_app_firstn by lia.
    change (map (executed st) (q :: q' :: qs))
      with (executed st q :: map (executed st) (q' :: qs)).
    change (rev (executed st q :: map (executed st) (q' :: qs)))
      with (rev (map (executed st) (q' :: qs)) ++ [executed st q])%list.
    rewrite <- app_assoc. reflexivity.
Qed.


End History.






(** ** Search *)

Section Search.

Lemma prefix_spec q s : prefix q s = true <-> exists b, s = q ++ b.
Proof.
  revert s. induction q as [| c q IH]; intros s; simpl.
  - split; [intros _; exists s; reflexivity | destruct s; reflexivity].
  - destruct s as [| d s]; simpl.
    + split; [discriminate | intros [b Hb]; discriminate].
    + destruct (ascii_dec c d) as [-> | Hne].
      * rewrite IH. split; intros [b Hb]; exists b; congruence.
      * split; [discriminate | intros [b Hb]; congruence].
Qed.

Lemma includes_spec s q : Str.includes s q = true <-> contains s q.
Proof.
  split.
  - induction s as [| c s IH]; cbn [Str.includes].
    + destruct (prefix q EmptyString) eqn:E; [| discriminate].
      intros _. apply prefix_spec in E. destruct E as [b Hb].
      exists EmptyString, b. exact Hb.
    + destruct (prefix q (String c s)) eqn:E.
      * intros _. apply prefix_spec in E. destruct E as [b Hb].
        exists EmptyString, b. exact Hb.
      * intros H. destruct (IH H) as (a & b & Hab).
        exists (String c a), b. simpl. congruence.
  - intros (a & b & ->). induction a as [| c a IH].
    + assert (E : prefix q (q ++ b) = true)
        by (apply prefix_spec; exists b; reflexivity).
      change (EmptyString ++ q ++ b) with (q ++ b).
      destruct (q ++ b); cbn [Str.includes]; rewrite E; reflexivity.
    + change (String c a ++ q ++ b) with (String c (a ++ q ++ b)).
      cbn [Str.includes].
      destruct (prefix q (String c (a ++ q ++ b))); [reflexivity | exact IH].
Qed.

Lemma toLowerCase_empty s :
  Str.toLowerCase s = EmptyString <-> s = EmptyString.
Proof. destruct s; simpl; split; congruence. Qed.

Lemma filter_Subseq {A : Type} (p : A -> bool) (l : list A) :
  Subseq (filter p l) l.
Proof.
  induction l as [| x l IH]; simpl; [constructor |].
  destruct (p x); constructor; exact IH.
Qed.

Lemma Subseq_refl {A : Type} (l : list A) : Subseq l l.
Proof. induction l; constructor; assumption. Qed.

Lemma matches_spec q r : matches q r = true <-> field_match q r.
Proof.
  unfold matches, field_match.
  rewrite !orb_true_iff, !includes_spec.
  destruct (label r) as [l |].
  - rewrite includes_spec. split.
    + intros [[H | H] | H]; [left; exists l; split; [reflexivity | exact H]
                            | right; left; exact H | right; right; exact H].
    + intros [(l' & Hl & H) | [H | H]];
        [left; left; congruence | left; right; exact H | right; exact H].
  - split.
    + intros [[H | H] | H]; [discriminate | right; left; exact H
                            | right; right; exact H].
    + intros [(l' & Hl & H) | [H | H]];
        [discriminate | left; right; exact H | right; exact H].
Qed.

Lemma contains_empty s : contains s EmptyString.
Proof. exists EmptyString, s. reflexivity. Qed.

End Search.

(** C7, as the claim states it, fails: the query [" a"] is not blank
    and no field of the record contains it, in any case of the letters,
    yet the record is returned, because the query is trimmed first. *)
Lemma search_trims_query :
  ~ blank " a"
  /\ In sample_record (filtered " a" [sample_record])
  /\ ~ field_match (Str.toLowerCase " a") sample_record.
Proof.
  split; [| split].
  - intros H. specialize (H "a"%char (or_intror (or_introl eq_refl))).
    discriminate.
  - left. reflexivity.
  - intros H. apply matches_spec in H. discriminate.
Qed.

(** ** JSON text: what is written is read back *)

Section JsonStrings.

Lemma parse_quote_char c rest :
  parse_chars None (quote_char c ++ rest)
  = prepend (String c EmptyString) (parse_chars None rest).
Proof.
  destruct c as [[] [] [] [] [] [] [] []]; reflexivity.
Qed.

Lemma parse_quote_body s rest :
  parse_chars None (quote_body s ++ String dquote rest) = Ok s rest.
Proof.
  induction s as [| c s IH]; simpl.
  - reflexivity.
  - rewrite append_assoc, parse_quote_char, IH. reflexivity.
Qed.

Lemma quote_app s rest :
  quote s ++ rest = String dquote (quote_body s ++ String dquote rest).
Proof. unfold quote. simpl. now rewrite append_assoc. Qed.

End JsonStrings.

Section JsonNumbers.

Lemma digits_eq n acc :
  digits n acc
  = if Z_lt_dec n 10 then String (digit_char n) acc
    else digits (n / 10) (String (digit_char (n mod 10)) acc).
Proof.
  rewrite digits_equation_1. unfold digits_unfold_clause_1.
  destruct (Z_lt_dec n 10); reflexivity.
Qed.

Lemma digits_acc n :
  0 <= n -> forall acc, digits n acc = digits n EmptyString ++ acc.
Proof.
  revert n. apply (Z_lt_induction
                     (fun n => forall acc,
                          digits n acc = digits n EmptyString ++ acc)).
  intros n IH acc.
  rewrite (digits_eq n acc), (digits_eq n EmptyString).
  destruct (Z_lt_dec n 10) as [Hlt | Hge]; [reflexivity |].
  assert (Hq : 0 <= n / 10 < n).
  { split; [apply Z.div_pos; lia | apply Z.div_lt; lia]. }
  rewrite (IH (n / 10) Hq (String _ acc)).
  rewrite (IH (n / 10) Hq (String _ EmptyString)).
  rewrite append_assoc. reflexivity.
Qed.

Lemma digits_small n :
  n < 10 -> digits n EmptyString = String (digit_char n) EmptyString.
Proof.
  intros H. rewrite digits_eq. destruct (Z_lt_dec n 10); [reflexivity | lia].
Qed.

Lemma digits_snoc n :
  10 <= n ->
  digits n EmptyString
  = digits (n / 10) EmptyString ++ String (digit_char (n mod 10)) EmptyString.
Proof.
  intros H. rewrite digits_eq. destruct (Z_lt_dec n 10); [lia |].
  apply digits_acc. apply Z.div_pos; lia.
Qed.

Lemma digit_char_spec d :
  0 <= d < 10 ->
  is_digit (digit_char d) = true /\ digit_val (digit_char d) = d.
Proof.
  intros H.
  assert (E : d = 0 \/ d = 1 \/ d = 2 \/ d = 3 \/ d = 4 \/ d = 5 \/ d = 6
              \/ d = 7 \/ d = 8 \/ d = 9) by lia.
  repeat (destruct E as [-> | E]; [split; reflexivity |]).
  subst d. split; reflexivity.
Qed.

Lemma digit_char_nonzero d :
  1 <= d < 10 -> Ascii.eqb (digit_char d) "0" = false.
Proof.
  intros H.
  assert (E : d = 1 \/ d = 2 \/ d = 3 \/ d = 4 \/ d = 5 \/ d = 6
              \/ d = 7 \/ d = 8 \/ d = 9) by lia.
  repeat (destruct E as [-> | E]; [reflexivity |]).
  subst d. reflexivity.
Qed.

Lemma digits_only_app a b :
  digits_only (a ++ b) = digits_only a && digits_only b.
Proof.
  induction a as [| c a IH]; simpl; [reflexivity |].
  rewrite IH. apply andb_assoc.
Qed.

Lemma digits_digits_only n :
  0 <= n -> digits_only (digits n EmptyString) = true.
Proof.
  strong_induction n.
  destruct (Z_lt_dec n 10) as [Hlt | Hge].
  - rewrite digits_small by assumption. cbn [digits_only].
    rewrite (proj1 (digit_char_spec n ltac:(lia))). reflexivity.
  - rewrite digits_snoc, digits_only_app by lia. cbn [digits_only].
    assert (Hq : 0 <= n / 10 < n)
      by (split; [apply Z.div_pos; lia | apply Z.div_lt; lia]).
    rewrite (IH (n / 10) Hq (proj1 Hq)).
    rewrite (proj1 (digit_char_spec (n mod 10)
                      ltac:(apply Z.mod_pos_bound; lia))).
    reflexivity.
Qed.

Lemma horner_app a s1 s2 : horner a (s1 ++ s2) = horner (horner a s1) s2.
Proof.
  revert a. induction s1 as [| c s1 IH]; intros a; simpl;
    [reflexivity | apply IH].
Qed.

Lemma horner_digits n : 0 <= n -> horner 0 (digits n EmptyString) = n.
Proof.
  strong_induction n.
  destruct (Z_lt_dec n 10) as [Hlt | Hge].
  - rewrite digits_small by assumption. cbn [horner].
    rewrite (proj2 (digit_char_spec n ltac:(lia))). lia.
  - rewrite digits_snoc, horner_app by lia. cbn [horner].
    assert (Hq : 0 <= n / 10 < n)
      by (split; [apply Z.div_pos; lia | apply Z.div_lt; lia]).
    rewrite (IH (n / 10) Hq (proj1 Hq)).
    rewrite (proj2 (digit_char_spec (n mod 10)
                      ltac:(apply Z.mod_pos_bound; lia))).
    pose proof (Z.div_mod n 10 ltac:(lia)). lia.
Qed.

(** The digits of a positive number do not start with [0]. *)
Lemma digits_head n :
  1 <= n ->
  exists c s', digits n EmptyString = String c s'
               /\ Ascii.eqb c "0" = false.
Proof.
  strong_induction n.
  destruct (Z_lt_dec n 10) as [Hlt | Hge].
  - rewrite digits_small by assumption.
    exists (digit_char n), EmptyString. split; [reflexivity |].
    apply digit_char_nonzero. lia.
  - rewrite digits_snoc by lia.
    assert (Hq : 0 <= n / 10 < n)
      by (split; [apply Z.div_pos; lia | apply Z.div_lt; lia]).
    assert (Hq1 : 1 <= n / 10)
      by (apply Z.div_le_lower_bound; lia).
    destruct (IH (n / 10) Hq Hq1) as (c & s' & -> & Hc).
    exists c, (s' ++ String (digit_char (n mod 10)) EmptyString).
    split; [reflexivity | exact Hc].
Qed.

Lemma valid_int_digits n : 0 <= n -> valid_int (digits n EmptyString) = true.
Proof.
  intros Hn. destruct (Z.eq_dec n 0) as [-> | Hne]; [reflexivity |].
  destruct (digits_head n ltac:(lia)) as (c & s' & -> & Hc).
  unfold valid_int. destruct s'; [reflexivity |]. rewrite Hc. reflexivity.
Qed.

Lemma is_digit_not c x :
  is_digit c = true -> is_digit x = false -> Ascii.eqb c x = false.
Proof.
  intros Hc Hx. destruct (Ascii.eqb_spec c x) as [-> | Hne];
    [congruence | reflexivity].
Qed.

Lemma span_digits_app ds rest :
  digits_only ds = true ->
  match rest with
  | EmptyString => True
  | String c _ => is_digit c = false
  end ->
  span_digits (ds ++ rest) = (ds, rest).
Proof.
  intros Hds Hc. induction ds as [| d ds IH]; cbn [append span_digits].
  - destruct rest as [| c rest]; [reflexivity |].
    cbn [span_digits]. rewrite Hc. reflexivity.
  - cbn [digits_only] in Hds. apply andb_true_iff in Hds.
    destruct Hds as [Hd Hds]. rewrite Hd, (IH Hds). reflexivity.
Qed.

Lemma closes_inv rest :
  closes rest ->
  rest = EmptyString
  \/ exists c r, rest = String c r
                 /\ is_digit c = false
                 /\ Ascii.eqb c "." = false
                 /\ (Ascii.eqb c "e" || Ascii.eqb c "E")%bool = false
                 /\ is_ws c = false.
Proof.
  intros [-> | (c & r & -> & [-> | [-> | ->]])]; [left; reflexivity | ..];
    right; eexists; exists r; repeat split.
Qed.

Lemma parse_digits_tail n rest :
  0 <= n -> closes rest ->
  span_digits (digits n EmptyString ++ rest) = (digits n EmptyString, rest)
  /\ fraction rest = Some (EmptyString, rest)
  /\ exponent rest = Some (0, rest).
Proof.
  intros Hn Hrest.
  destruct (closes_inv rest Hrest)
    as [-> | (c & r & -> & Hd & Hdot & He & _)].
  - split; [| split; reflexivity].
    apply span_digits_app; [apply digits_digits_only; exact Hn | exact I].
  - split; [| split].
    + apply span_digits_app; [apply digits_digits_only; exact Hn | exact Hd].
    + unfold fraction. rewrite Hdot. reflexivity.
    + unfold exponent. rewrite He. reflexivity.
Qed.

Lemma decimal_integer z : decimal z (0 - Z.of_nat (length EmptyString)) = of_Z z.
Proof.
  unfold decimal, of_Z. simpl. rewrite Z.mul_1_r. reflexivity.
Qed.

(** A decimal integer followed by [,], [}] or []] is read back. *)
Lemma parse_number_toString z rest :
  closes rest ->
  parse_number (toString z ++ rest) = Ok (JNumber (of_Z z)) rest.
Proof.
  intros Hrest. unfold toString.
  destruct (z <? 0) eqn:Hz.
  - apply Z.ltb_lt in Hz.
    destruct (parse_digits_tail (- z) rest ltac:(lia) Hrest)
      as (Hspan & Hfrac & Hexp).
    cbn [append]. unfold parse_number.
    change (Ascii.eqb "-" "-") with true. cbv iota.
    rewrite Hspan, valid_int_digits, Hfrac, Hexp by lia.
    rewrite append_nil_r, horner_digits, decimal_integer by lia.
    rewrite Z.opp_involutive. reflexivity.
  - apply Z.ltb_ge in Hz.
    destruct (parse_digits_tail z rest Hz Hrest) as (Hspan & Hfrac & Hexp).
    pose proof (digits_digits_only z Hz) as Hall.
    unfold parse_number.
    destruct (digits z EmptyString) as [| c s'] eqn:Hd;
      [pose proof (valid_int_digits z Hz) as Hv; rewrite Hd in Hv;
       discriminate |].
    cbn [append]. cbn [digits_only] in Hall.
    apply andb_true_iff in Hall. destruct Hall as [Hc _].
    rewrite (is_digit_not c "-" Hc eq_refl).
    change (String c (s' ++ rest)) with (String c s' ++ rest).
    rewrite Hspan, <- Hd, valid_int_digits, Hfrac, Hexp by lia.
    rewrite append_nil_r, horner_digits, decimal_integer by lia.
    reflexivity.
Qed.

End JsonNumbers.

Section JsonValues.

Lemma closes_comma r : closes (String "," r).
Proof. right. exists ","%char, r. tauto. Qed.

Lemma closes_brace r : closes (String "}" r).
Proof. right. exists "}"%char, r. tauto. Qed.

Lemma closes_bracket r : closes (String "]" r).
Proof. right. exists "]"%char, r. tauto. Qed.

Lemma reads_string s : reads 1 (quote s) (JString s).
Proof.
  intros [| fuel] rest Hfuel _; [lia |].
  rewrite quote_app. cbn [parse_value skip_ws].
  change (is_ws dquote) with false. cbv iota.
  change (Ascii.eqb dquote dquote) with true. cbv iota.
  rewrite parse_quote_body. reflexivity.
Qed.

Lemma substring_all s : substring 0 (length s) s = s.
Proof. induction s as [| c s IH]; simpl; [reflexivity | now rewrite IH]. Qed.

Lemma reads_null : reads 1 "null" JNull.
Proof.
  intros [| fuel] rest Hfuel _; [lia |].
  cbn [append parse_value skip_ws].
  change (is_ws "n") with false. cbv iota.
  change (Ascii.eqb "n" dquote) with false.
  change (Ascii.eqb "n" "[") with false.
  change (Ascii.eqb "n" "{") with false.
  change (Ascii.eqb "n" "n") with true. cbv iota.
  unfold keyword. simpl.
  replace (prefix EmptyString rest) with true by (destruct rest; reflexivity).
  rewrite Nat.sub_0_r, substring_all. reflexivity.
Qed.

(** The first character of a number sends [parse_value] to
    [parse_number]. *)
Lemma number_start c r fuel :
  (is_digit c = true \/ c = "-"%char) ->
  parse_value (S fuel) (String c r) = parse_number (String c r).
Proof.
  intros Hc. cbn [parse_value skip_ws].
  assert (H : is_ws c = false /\ Ascii.eqb c dquote = false
              /\ Ascii.eqb c "[" = false /\ Ascii.eqb c "{" = false
              /\ Ascii.eqb c "n" = false /\ Ascii.eqb c "t" = false
              /\ Ascii.eqb c "f" = false).
  { destruct Hc as [Hd | ->]; [| repeat split].
    repeat split; try (apply is_digit_not; [exact Hd | reflexivity]).
    destruct c as [[] [] [] [] [] [] [] []]; try reflexivity; discriminate. }
  destruct H as (-> & -> & -> & -> & -> & -> & ->). reflexivity.
Qed.

Lemma toString_head z :
  exists c r, toString z = String c r /\ (is_digit c = true \/ c = "-"%char).
Proof.
  unfold toString. destruct (z <? 0) eqn:Hz.
  - eexists; eexists. split; [reflexivity | right; reflexivity].
  - apply Z.ltb_ge in Hz.
    pose proof (digits_digits_only z Hz) as Hall.
    pose proof (valid_int_digits z Hz) as Hv.
    destruct (digits z EmptyString) as [| c s']; [discriminate |].
    cbn [digits_only] in Hall. apply andb_true_iff in Hall.
    exists c, s'. split; [reflexivity | left; tauto].
Qed.

Lemma reads_number z : reads 1 (toString z) (JNumber (of_Z z)).
Proof.
  intros [| fuel] rest Hfuel Hrest; [lia |].
  destruct (toString_head z) as (c & r & Hs & Hc).
  rewrite <- (parse_number_toString z rest Hrest).
  rewrite Hs. cbn [append]. apply number_start. exact Hc.
Qed.

Lemma members_text_cons m m' ms :
  members_text (m :: m' :: ms)
  = member (fst m) (snd m) ++ String "," (members_text (m' :: ms)).
Proof. reflexivity. Qed.

(** The members of an object, up to its closing brace. *)
Lemma parse_members_reads (ms : list (string * string * json)) :
  ms <> [] ->
  Forall (fun m => reads 1 (snd (fst m)) (snd m)) ms ->
  forall fuel rest,
    (List.length ms < fuel)%nat ->
    parse_members fuel (members_text (map fst ms) ++ String "}" rest)
    = Ok (map (fun m => (fst (fst m), snd m)) ms) rest.
Proof.
  induction ms as [| [[k t] v] ms IH]; [congruence |].
  intros _ Hall fuel rest Hfuel.
  apply Forall_cons_iff in Hall. destruct Hall as [Hkv Hall].
  cbn [fst snd] in Hkv.
  destruct fuel as [| fuel]; [simpl in Hfuel; lia |].
  assert (Hstep : forall tail,
             closes tail ->
             parse_members (S fuel) (member k t ++ tail)
             = bind (Ok v tail) (fun v r3 =>
                 match skip_ws r3 with
                 | EmptyString => SyntaxError
                 | String c3 r4 =>
                     if Ascii.eqb c3 ","
                     then omap (cons (k, v)) (parse_members fuel r4)
                     else if Ascii.eqb c3 "}" then Ok [(k, v)] r4
                     else SyntaxError
                 end)).
  { intros tail Htail. unfold member.
    rewrite !append_assoc, quote_app.
    cbn [parse_members skip_ws].
    change (is_ws dquote) with false. cbv iota.
    change (Ascii.eqb dquote dquote) with true. cbv iota.
    rewrite parse_quote_body. cbn [bind append skip_ws].
    change (is_ws ":") with false. cbv iota.
    change (Ascii.eqb ":" ":") with true. cbv iota.
    rewrite (Hkv fuel tail) by (simpl in Hfuel; lia || assumption).
    reflexivity. }
  destruct ms as [| m' ms].
  - cbn [map members_text Str.join concat fst snd].
    rewrite (Hstep (String "}" rest) (closes_brace rest)).
    reflexivity.
  - change (map fst ((k, t, v) :: m' :: ms))
      with ((k, t) :: fst m' :: map fst ms).
    rewrite members_text_cons. cbn [fst snd].
    rewrite append_assoc. cbn [append].
    rewrite (Hstep _ (closes_comma _)).
    cbn [bind skip_ws]. change (is_ws ",") with false. cbv iota.
    change (Ascii.eqb "," ",") with true. cbv iota.
    change (fst m' :: map fst ms) with (map fst (m' :: ms)).
    rewrite (IH ltac:(discriminate) Hall fuel rest)
      by (simpl in Hfuel |- *; lia).
    reflexivity.
Qed.

End JsonValues.

Section JsonStructures.

Lemma reads_more n m text v : (n <= m)%nat -> reads n text v -> reads m text v.
Proof. intros Hnm H fuel rest Hfuel. apply H. lia. Qed.

Lemma reads_object (ms : list (string * string * json)) :
  ms <> [] ->
  Forall (fun m => reads 1 (snd (fst m)) (snd m)) ms ->
  reads (List.length ms + 2) (stringify_object (map fst ms))
        (object_of (map (fun m => (fst (fst m), snd m)) ms)).
Proof.
  intros Hne Hall fuel rest Hfuel _.
  destruct fuel as [| fuel]; [lia |].
  unfold stringify_object. fold (members_text (map fst ms)).
  cbn [append]. rewrite append_assoc. cbn [append parse_value skip_ws].
  change (is_ws "{") with false. cbv iota.
  change (Ascii.eqb "{" dquote) with false.
  change (Ascii.eqb "{" "[") with false.
  change (Ascii.eqb "{" "{") with true. cbv iota.
  pose proof (parse_members_reads ms Hne Hall fuel rest ltac:(lia)) as Hms.
  assert (Hhead : exists r',
             members_text (map fst ms) ++ String "}" rest = String dquote r').
  { destruct ms as [| [[k t] v] [| m' ms]]; [congruence | |].
    - eexists. cbn [map members_text Str.join concat fst snd].
      unfold member, quote. cbn [append]. reflexivity.
    - eexists. change (map fst ((k, t, v) :: m' :: ms))
        with ((k, t) :: fst m' :: map fst ms).
      rewrite members_text_cons. unfold member, quote. cbn [append fst snd].
      reflexivity. }
  destruct Hhead as [r' Hr']. rewrite Hr' in *.
  cbn [skip_ws]. change (is_ws dquote) with false. cbv iota.
  change (Ascii.eqb dquote "}") with false. cbv iota.
  rewrite Hms. reflexivity.
Qed.

Lemma reads_record r : reads 6 (stringify_record r) (record_value r).
Proof.
  assert (Hm : map fst (record_triples r) = record_members r)
    by (unfold record_triples, record_members; destruct (label r); reflexivity).
  assert (Hv : object_of (map (fun m => (fst (fst m), snd m)) (record_triples r))
               = record_value r)
    by (unfold record_triples, record_value; destruct (label r); reflexivity).
  unfold stringify_record. rewrite <- Hm, <- Hv.
  apply (reads_more (List.length (record_triples r) + 2)).
  - unfold record_triples. destruct (label r); simpl; lia.
  - apply reads_object.
    + discriminate.
    + unfold record_triples.
      destruct (label r); repeat constructor;
        cbn [fst snd]; (apply reads_string || apply reads_number).
Qed.

Lemma reads_command c : reads 7 (stringify_command c) (command_value c).
Proof.
  assert (Hm : map fst (command_triples c) = command_members c)
    by (unfold command_triples, command_members; destruct (recordId c);
        reflexivity).
  assert (Hv : object_of (map (fun m => (fst (fst m), snd m))
                            (command_triples c))
               = command_value c)
    by (unfold command_triples, command_value; destruct (recordId c);
        reflexivity).
  unfold stringify_command. rewrite <- Hm, <- Hv.
  apply (reads_object (command_triples c)).
  - discriminate.
  - unfold command_triples.
    destruct (recordId c); repeat constructor;
      cbn [fst snd]; (apply reads_string || apply reads_null).
Qed.

(** The elements of an array, up to its closing bracket. *)
Lemma parse_elements_reads n (items : list (string * json)) :
  items <> [] ->
  Forall (fun it => reads n (fst it) (snd it)) items ->
  forall fuel rest,
    (n + List.length items <= fuel)%nat ->
    parse_elements fuel (Str.join "," (map fst items) ++ String "]" rest)
    = Ok (map snd items) rest.
Proof.
  induction items as [| [t v] items IH]; [congruence |].
  intros _ Hall fuel rest Hfuel.
  apply Forall_cons_iff in Hall. destruct Hall as [Htv Hall].
  cbn [fst snd] in Htv.
  destruct fuel as [| fuel]; [simpl in Hfuel; lia |].
  destruct items as [| it items].
  - cbn [map Str.join concat fst snd parse_elements].
    rewrite (Htv fuel (String "]" rest))
      by (simpl in Hfuel; lia || apply closes_bracket).
    reflexivity.
  - change (Str.join "," (map fst ((t, v) :: it :: items)))
      with (t ++ String "," (Str.join "," (map fst (it :: items)))).
    rewrite append_assoc. cbn [append parse_elements].
    rewrite (Htv fuel _) by (simpl in Hfuel; lia || apply closes_comma).
    cbn [bind skip_ws]. change (is_ws ",") with false. cbv iota.
    change (Ascii.eqb "," ",") with true. cbv iota.
    rewrite (IH ltac:(discriminate) Hall fuel rest)
      by (simpl in Hfuel |- *; lia).
    reflexivity.
Qed.

Lemma reads_array n (items : list (string * json)) :
  Forall (fun it => reads n (fst it) (snd it)) items ->
  Forall (fun it => exists r, fst it = String "{" r) items ->
  reads (n + List.length items + 1) (stringify_array (map fst items))
        (JArray (map snd items)).
Proof.
  intros Hall Hopen fuel rest Hfuel _.
  destruct fuel as [| fuel]; [lia |].
  unfold stringify_array. cbn [append]. rewrite append_assoc.
  cbn [append parse_value skip_ws].
  change (is_ws "[") with false. cbv iota.
  change (Ascii.eqb "[" dquote) with false.
  change (Ascii.eqb "[" "[") with true. cbv iota.
  destruct items as [| [t v] items].
  - reflexivity.
  - pose proof (parse_elements_reads n ((t, v) :: items) ltac:(discriminate)
                  Hall fuel rest ltac:(lia)) as Hes.
    apply Forall_cons_iff in Hopen. destruct Hopen as [[r Hr] _].
    cbn [fst] in Hr. subst t.
    assert (Hhead : exists r',
               Str.join "," (map fst ((String "{" r, v) :: items))
               ++ String "]" rest = String "{" r').
    { destruct items; eexists; cbn [map Str.join concat fst append];
        reflexivity. }
    destruct Hhead as [r' Hr']. rewrite Hr' in *.
    cbn [skip_ws]. change (is_ws "{") with false. cbv iota.
    change (Ascii.eqb "{" "]") with false. cbv iota.
    rewrite Hes. reflexivity.
Qed.

End JsonStructures.

Section RoundTrip.

Lemma stringify_object_shape ms :
  exists r, stringify_object ms = String "{" r /\ (1 <= String.length r)%nat.
Proof.
  unfold stringify_object. cbn [append]. eexists. split; [reflexivity |].
  rewrite length_append. simpl. lia.
Qed.

Lemma join_length (l : list string) :
  Forall (fun t => (2 <= String.length t)%nat) l ->
  (3 * List.length l <= String.length (Str.join "," l) + 1)%nat.
Proof.
  induction l as [| t l IH]; intros Hall; [simpl; lia |].
  apply Forall_cons_iff in Hall. destruct Hall as [Ht Hall].
  specialize (IH Hall).
  destruct l as [| t' l].
  - simpl. lia.
  - change (Str.join "," (t :: t' :: l))
      with (t ++ String "," (Str.join "," (t' :: l))).
    rewrite length_append. cbn [String.length List.length] in *. lia.
Qed.

Lemma parse_stringify_array n (items : list (string * json)) :
  (n <= 7)%nat ->
  Forall (fun it => reads n (fst it) (snd it)) items ->
  Forall (fun it => exists r, fst it = String "{" r
                              /\ (1 <= String.length r)%nat) items ->
  JSON.parse (stringify_array (map fst items)) = Some (JArray (map snd items)).
Proof.
  intros Hn Hall Hshape.
  destruct items as [| it items]; [reflexivity |].
  assert (Hopen : Forall (fun it => exists r, fst it = String "{" r)
                         (it :: items)).
  { revert Hshape. apply Forall_impl. intros a (r & Hr & _). exists r.
    exact Hr. }
  assert (Hlen : Forall (fun t => (2 <= String.length t)%nat)
                        (map fst (it :: items))).
  { apply Forall_map. revert Hshape. apply Forall_impl.
    intros a (r & -> & Hr). simpl. lia. }
  pose proof (join_length _ Hlen) as Hjoin.
  rewrite length_map in Hjoin.
  pose proof (reads_array n (it :: items) Hall Hopen) as Hreads.
  unfold JSON.parse.
  rewrite <- (append_nil_r (stringify_array (map fst (it :: items)))) at 2.
  rewrite Hreads; [reflexivity | | left; reflexivity].
  unfold fuel_for, stringify_array.
  cbn [append String.length]. rewrite length_append.
  cbn [String.length List.length] in *. lia.
Qed.

Lemma parse_stringify_records rs :
  JSON.parse (stringify_records rs) = Some (records_value rs).
Proof.
  unfold stringify_records, records_value.
  pose proof (parse_stringify_array 6
                (map (fun r => (stringify_record r, record_value r)) rs)) as H.
  rewrite !map_map in H. cbn [fst snd] in H. apply H.
  - lia.
  - apply Forall_map, Forall_forall. intros r _. apply reads_record.
  - apply Forall_map, Forall_forall. intros r _. apply stringify_object_shape.
Qed.

Lemma parse_stringify_commands cs :
  JSON.parse (stringify_commands cs) = Some (commands_value cs).
Proof.
  unfold stringify_commands, commands_value.
  pose proof (parse_stringify_array 7
                (map (fun c => (stringify_command c, command_value c)) cs))
    as H.
  rewrite !map_map in H. cbn [fst snd] in H. apply H.
  - lia.
  - apply Forall_map, Forall_forall. intros c _. apply reads_command.
  - apply Forall_map, Forall_forall. intros c _. apply stringify_object_shape.
Qed.

Lemma stringify_array_truthy items : Str.truthy (stringify_array items) = true.
Proof. reflexivity. Qed.

Lemma as_record_value r : as_record (record_value r) = Some r.
Proof.
  destruct r as [id [l |] v c]; unfold record_value, as_record; simpl;
    rewrite Z.rem_1_r, Z.quot_1_r; reflexivity.
Qed.

Lemma as_command_value c : as_command (command_value c) = Some c.
Proof. destruct c as [id [rid |] cmd out t]; reflexivity. Qed.

Lemma all_some_map {A B : Type} (f : A -> B) (g : B -> option A) (l : list A) :
  (forall a, g (f a) = Some a) -> all_some (map g (map f l)) = Some l.
Proof.
  intros Hgf. induction l as [| a l IH]; simpl; [reflexivity |].
  rewrite Hgf, IH. reflexivity.
Qed.

Lemma as_records_value rs : as_records (records_value rs) = Some rs.
Proof. apply all_some_map, as_record_value. Qed.

Lemma as_commands_value cs : as_commands (commands_value cs) = Some cs.
Proof. apply all_some_map, as_command_value. Qed.

Lemma getItem_setItem k v ls : getItem k (setItem k v ls) = Some v.
Proof. unfold getItem, setItem. now rewrite String.eqb_refl. Qed.

End RoundTrip.

(** ** JSON text: the fuel is enough *)

Section Fuel.

Lemma bind_ok {A B : Type} (o : outcome A) (k : A -> string -> outcome B) b r :
  bind o k = Ok b r -> exists a r', o = Ok a r' /\ k a r' = Ok b r.
Proof. destruct o as [a r' | |]; simpl; [eauto | discriminate ..]. Qed.

Lemma omap_ok {A B : Type} (f : A -> B) (o : outcome A) b r :
  omap f o = Ok b r -> exists a, o = Ok a r /\ b = f a.
Proof.
  destruct o as [a r' | |]; simpl; [| discriminate ..].
  intros H. injection H as <- <-. eauto.
Qed.

Lemma bind_fuel {A B : Type} (o : outcome A) (k : A -> string -> outcome B) :
  bind o k = OutOfFuel ->
  o = OutOfFuel \/ exists a r, o = Ok a r /\ k a r = OutOfFuel.
Proof. destruct o as [a r | |]; simpl; [eauto | discriminate | auto]. Qed.

Lemma omap_fuel {A B : Type} (f : A -> B) (o : outcome A) :
  omap f o = OutOfFuel -> o = OutOfFuel.
Proof. destruct o; simpl; [discriminate | discriminate | reflexivity]. Qed.

Lemma skip_ws_length s : (String.length (skip_ws s) <= String.length s)%nat.
Proof.
  induction s as [| c s IH]; simpl; [lia |].
  destruct (is_ws c); simpl; lia.
Qed.

Lemma span_digits_length s ds r :
  span_digits s = (ds, r) ->
  String.length s = (String.length ds + String.length r)%nat.
Proof.
  revert ds r. induction s as [| c s IH]; intros ds r; simpl.
  - intros H. injection H as <- <-. reflexivity.
  - destruct (is_digit c).
    + destruct (span_digits s) as [ds' r'] eqn:E.
      intros H. injection H as <- <-. simpl. rewrite (IH ds' r' eq_refl).
      reflexivity.
    + intros H. injection H as <- <-. reflexivity.
Qed.

(** A string literal: its closing quote is read. *)
Lemma parse_chars_consumes s :
  forall pending,
    parse_chars pending s <> OutOfFuel
    /\ forall str r, parse_chars pending s = Ok str r ->
                     (String.length r < String.length s)%nat.
Proof.
  remember (String.length s) as n eqn:Hn. revert s Hn.
  induction n as [n IH] using lt_wf_ind. intros s Hn pending.
  assert (Hrec : forall p s' pre,
             (String.length s' < n)%nat ->
             prepend pre (parse_chars p s') <> OutOfFuel
             /\ forall str r, prepend pre (parse_chars p s') = Ok str r ->
                              (String.length r < n)%nat).
  { intros p s' pre Hlt.
    destruct (IH (String.length s') Hlt s' eq_refl p) as [Hf Hok].
    split.
    - intros H. apply omap_fuel in H. exact (Hf H).
    - intros str r H. apply omap_ok in H. destruct H as (a & H & _).
      specialize (Hok a r H). lia. }
  assert (Hrec0 : forall p s',
             (String.length s' < n)%nat ->
             parse_chars p s' <> OutOfFuel
             /\ forall str r, parse_chars p s' = Ok str r ->
                              (String.length r < n)%nat).
  { intros p s' Hlt.
    destruct (IH (String.length s') Hlt s' eq_refl p) as [Hf Hok].
    split; [exact Hf |].
    intros str r H. specialize (Hok str r H). lia. }
  destruct s as [| c s]; [split; [discriminate | discriminate] |].
  cbn [String.length] in Hn. cbn [parse_chars].
  destruct (Ascii.eqb c dquote).
  { split; [discriminate |]. intros str r H. injection H as _ <-.
    cbn [String.length]. lia. }
  destruct (Ascii.eqb c backslash).
  2: { destruct (Nat.ltb (nat_of_ascii c) 32);
         [split; discriminate |].
       destruct (Hrec None s (flush pending ++ String c EmptyString)
                   ltac:(lia)) as [Hf Hok].
       split; [exact Hf |]. intros str r H. specialize (Hok str r H).
       cbn [String.length]. lia. }
  destruct s as [| e s]; [split; discriminate |].
  destruct (Ascii.eqb e "u").
  2: { destruct (unescape e) as [b |]; [| split; discriminate].
       destruct (Hrec None s (flush pending ++ String b EmptyString)
                   ltac:(cbn [String.length] in Hn; lia)) as [Hf Hok].
       split; [exact Hf |]. intros str r H. specialize (Hok str r H).
       cbn [String.length]. lia. }
  destruct s as [| h1 [| h2 [| h3 [| h4 s]]]]; try (split; discriminate).
  destruct (hex4 h1 h2 h3 h4) as [cu |]; [| split; discriminate].
  cbn [String.length] in Hn |- *.
  assert (Hlt : (String.length s < n)%nat) by lia.
  destruct pending as [hi |].
  - destruct (is_low cu); [| destruct (is_high cu)];
      match goal with
      | |- context [prepend ?pre (parse_chars ?p s)] =>
          destruct (Hrec p s pre Hlt) as [Hf Hok]
      end;
      (split; [exact Hf |]; intros str r H; specialize (Hok str r H); lia).
  - destruct (is_high cu).
    + destruct (Hrec0 (Some cu) s Hlt) as [Hf Hok].
      split; [exact Hf |]. intros str r H. specialize (Hok str r H). lia.
    + destruct (Hrec None s (utf8 cu) Hlt) as [Hf Hok].
      split; [exact Hf |]. intros str r H. specialize (Hok str r H). lia.
Qed.

Lemma fraction_length s fp r :
  fraction s = Some (fp, r) -> (String.length r <= String.length s)%nat.
Proof.
  unfold fraction. destruct s as [| c s].
  - intros H. injection H as _ <-. lia.
  - destruct (Ascii.eqb c ".").
    + destruct (span_digits s) as [ds r'] eqn:E.
      apply span_digits_length in E.
      destruct ds; [discriminate |].
      intros H. injection H as _ <-. simpl in *. lia.
    + intros H. injection H as _ <-. lia.
Qed.

Lemma signed_digits_length s e r :
  signed_digits s = Some (e, r) -> (String.length r <= String.length s)%nat.
Proof.
  unfold signed_digits.
  assert (H : forall s1,
             (String.length s1 <= String.length s)%nat ->
             (let (es, r0) := span_digits s1 in
              match es with
              | EmptyString => None
              | String _ _ => Some (e, r0)
              end) = Some (e, r) ->
             (String.length r <= String.length s)%nat).
  { intros s1 Hs1. destruct (span_digits s1) as [es r0] eqn:E.
    apply span_digits_length in E. destruct es; [discriminate |].
    intros H. injection H as <-. lia. }
  destruct s as [| c s].
  - simpl. discriminate.
  - destruct (Ascii.eqb c "-"); [| destruct (Ascii.eqb c "+")];
      destruct (span_digits _) as [es r0] eqn:E;
      apply span_digits_length in E;
      (destruct es; [discriminate |]);
      intros H0; injection H0 as _ <-; simpl in *; lia.
Qed.

Lemma exponent_length s e r :
  exponent s = Some (e, r) -> (String.length r <= String.length s)%nat.
Proof.
  unfold exponent. destruct s as [| c s].
  - intros H. injection H as _ <-. lia.
  - destruct (Ascii.eqb c "e" || Ascii.eqb c "E")%bool.
    + intros H. apply signed_digits_length in H. simpl. lia.
    + intros H. injection H as _ <-. lia.
Qed.

Lemma parse_number_consumes s :
  parse_number s <> OutOfFuel
  /\ forall v r, parse_number s = Ok v r ->
                 (String.length r < String.length s)%nat.
Proof.
  unfold parse_number.
  assert (H : forall s1,
             (String.length s1 <= String.length s)%nat ->
             forall negative : bool,
               (let (ip, s2) := span_digits s1 in
                if valid_int ip then
                  match fraction s2 with
                  | None => SyntaxError
                  | Some (fp, s3) =>
                      match exponent s3 with
                      | None => SyntaxError
                      | Some (ex, s4) =>
                          Ok (JNumber
                                (decimal
                                   (if negative
                                    then - horner 0 (ip ++ fp)
                                    else horner 0 (ip ++ fp))
                                   (ex - Z.of_nat (length fp)))) s4
                      end
                  end
                else SyntaxError) <> OutOfFuel
               /\ forall v r,
                   (let (ip, s2) := span_digits s1 in
                    if valid_int ip then
                      match fraction s2 with
                      | None => SyntaxError
                      | Some (fp, s3) =>
                          match exponent s3 with
                          | None => SyntaxError
                          | Some (ex, s4) =>
                              Ok (JNumber
                                    (decimal
                                       (if negative
                                        then - horner 0 (ip ++ fp)
                                        else horner 0 (ip ++ fp))
                                       (ex - Z.of_nat (length fp)))) s4
                          end
                      end
                    else SyntaxError) = Ok v r ->
                   (String.length r < String.length s)%nat).
  { intros s1 Hs1 negative.
    destruct (span_digits s1) as [ip s2] eqn:E.
    apply span_digits_length in E.
    destruct (valid_int ip) eqn:Hv; [| split; discriminate].
    destruct (fraction s2) as [[fp s3] |] eqn:Hf; [| split; discriminate].
    apply fraction_length in Hf.
    destruct (exponent s3) as [[ex s4] |] eqn:He; [| split; discriminate].
    apply exponent_length in He.
    split; [discriminate |].
    intros v r H. injection H as _ <-.
    destruct ip; [discriminate |]. simpl in E. lia. }
  destruct s as [| c s].
  - exact (H EmptyString (Nat.le_refl _) false).
  - destruct (Ascii.eqb c "-").
    + exact (H s ltac:(simpl; lia) true).
    + exact (H (String c s) (Nat.le_refl _) false).
Qed.

Lemma substring_length n m s : (String.length (substring n m s) <= m)%nat.
Proof.
  revert n m. induction s as [| c s IH]; intros n m.
  - destruct n, m; simpl; lia.
  - destruct n as [| n]; [destruct m as [| m] |]; simpl.
    + lia.
    + specialize (IH 0%nat m). lia.
    + apply IH.
Qed.

Lemma keyword_consumes word v s :
  word <> EmptyString ->
  keyword word v s <> OutOfFuel
  /\ forall v' r, keyword word v s = Ok v' r ->
                  (String.length r < String.length s)%nat.
Proof.
  intros Hw. unfold keyword.
  destruct (prefix word s) eqn:E; [| split; discriminate].
  split; [discriminate |].
  intros v' r H. injection H as _ <-.
  apply prefix_spec in E. destruct E as [b ->].
  pose proof (substring_length (String.length word)
                (String.length (word ++ b) - String.length word)
                (word ++ b)) as Hsub.
  rewrite length_append in *.
  destruct word; [congruence |]. simpl in *. lia.
Qed.

End Fuel.

Section FuelValues.

(** Every value read takes at least one character. *)
Lemma parse_consumes fuel :
  (forall s v r, parse_value fuel s = Ok v r ->
                 (String.length r < String.length s)%nat)
  /\ (forall s vs r, parse_elements fuel s = Ok vs r ->
                     (String.length r < String.length s)%nat)
  /\ (forall s ms r, parse_members fuel s = Ok ms r ->
                     (String.length r < String.length s)%nat).
Proof.
  induction fuel as [| fuel (IHv & IHe & IHm)];
    [repeat split; discriminate |].
  split; [| split].
  - intros s v r. cbn [parse_value].
    pose proof (skip_ws_length s) as Hs.
    destruct (skip_ws s) as [| c r0]; [discriminate |].
    cbn [String.length] in Hs.
    destruct (Ascii.eqb c dquote).
    { intros H. apply omap_ok in H. destruct H as (a & H & _).
      apply parse_chars_consumes in H. lia. }
    destruct (Ascii.eqb c "[").
    { pose proof (skip_ws_length r0) as Hr0.
      destruct (skip_ws r0) as [| c' r']; [discriminate |].
      cbn [String.length] in Hr0.
      destruct (Ascii.eqb c' "]").
      - intros H. injection H as _ <-. lia.
      - intros H. apply omap_ok in H. destruct H as (a & H & _).
        apply IHe in H. lia. }
    destruct (Ascii.eqb c "{").
    { pose proof (skip_ws_length r0) as Hr0.
      destruct (skip_ws r0) as [| c' r']; [discriminate |].
      cbn [String.length] in Hr0.
      destruct (Ascii.eqb c' "}").
      - intros H. injection H as _ <-. lia.
      - intros H. apply omap_ok in H. destruct H as (a & H & _).
        apply IHm in H. lia. }
    destruct (Ascii.eqb c "n").
    { intros H. apply keyword_consumes in H; [| discriminate].
      cbn [String.length] in H. lia. }
    destruct (Ascii.eqb c "t").
    { intros H. apply keyword_consumes in H; [| discriminate].
      cbn [String.length] in H. lia. }
    destruct (Ascii.eqb c "f").
    { intros H. apply keyword_consumes in H; [| discriminate].
      cbn [String.length] in H. lia. }
    intros H. apply parse_number_consumes in H.
    cbn [String.length] in H. lia.
  - intros s vs r H. cbn [parse_elements] in H.
    apply bind_ok in H. destruct H as (v & r1 & Hv & Hk).
    apply IHv in Hv.
    pose proof (skip_ws_length r1) as Hr1.
    destruct (skip_ws r1) as [| c r']; [discriminate |].
    cbn [String.length] in Hr1.
    destruct (Ascii.eqb c ",").
    + apply omap_ok in Hk. destruct Hk as (a & Hk & _).
      apply IHe in Hk. lia.
    + destruct (Ascii.eqb c "]"); [| discriminate].
      injection Hk as _ <-. lia.
  - intros s ms r H. cbn [parse_members] in H.
    pose proof (skip_ws_length s) as Hs.
    destruct (skip_ws s) as [| c r0]; [discriminate |].
    cbn [String.length] in Hs.
    destruct (Ascii.eqb c dquote); [| discriminate].
    apply bind_ok in H. destruct H as (k & r1 & Hk & H).
    apply parse_chars_consumes in Hk.
    pose proof (skip_ws_length r1) as Hr1.
    destruct (skip_ws r1) as [| c1 r2]; [discriminate |].
    cbn [String.length] in Hr1.
    destruct (Ascii.eqb c1 ":"); [| discriminate].
    apply bind_ok in H. destruct H as (v & r3 & Hv & H).
    apply IHv in Hv.
    pose proof (skip_ws_length r3) as Hr3.
    destruct (skip_ws r3) as [| c3 r4]; [discriminate |].
    cbn [String.length] in Hr3.
    destruct (Ascii.eqb c3 ",").
    + apply omap_ok in H. destruct H as (a & H & _).
      apply IHm in H. lia.
    + destruct (Ascii.eqb c3 "}"); [| discriminate].
      injection H as _ <-. lia.
Qed.

(** With twice the length of the text as fuel, no call runs out. *)
Lemma parse_never_out_of_fuel fuel :
  (forall s, (2 * String.length s + 1 <= fuel)%nat ->
             parse_value fuel s <> OutOfFuel)
  /\ (forall s, (2 * String.length s + 2 <= fuel)%nat ->
                parse_elements fuel s <> OutOfFuel)
  /\ (forall s, (2 * String.length s + 2 <= fuel)%nat ->
                parse_members fuel s <> OutOfFuel).
Proof.
  induction fuel as [| fuel (IHv & IHe & IHm)];
    [repeat split; intros s Hs; lia |].
  destruct (parse_consumes fuel) as (Cv & Ce & Cm).
  split; [| split].
  - intros s Hfuel. cbn [parse_value].
    pose proof (skip_ws_length s) as Hs.
    destruct (skip_ws s) as [| c r0]; [discriminate |].
    cbn [String.length] in Hs.
    destruct (Ascii.eqb c dquote).
    { intros H. apply omap_fuel in H.
      exact (proj1 (parse_chars_consumes r0 None) H). }
    destruct (Ascii.eqb c "[").
    { pose proof (skip_ws_length r0) as Hr0.
      destruct (skip_ws r0) as [| c' r']; [discriminate |].
      destruct (Ascii.eqb c' "]"); [discriminate |].
      intros H. apply omap_fuel in H. revert H. apply IHe. lia. }
    destruct (Ascii.eqb c "{").
    { pose proof (skip_ws_length r0) as Hr0.
      destruct (skip_ws r0) as [| c' r']; [discriminate |].
      destruct (Ascii.eqb c' "}"); [discriminate |].
      intros H. apply omap_fuel in H. revert H. apply IHm. lia. }
    destruct (Ascii.eqb c "n");
      [apply keyword_consumes; discriminate |].
    destruct (Ascii.eqb c "t");
      [apply keyword_consumes; discriminate |].
    destruct (Ascii.eqb c "f");
      [apply keyword_consumes; discriminate |].
    apply parse_number_consumes.
  - intros s Hfuel H. cbn [parse_elements] in H.
    apply bind_fuel in H. destruct H as [H | (v & r1 & Hv & H)].
    + revert H. apply IHv. lia.
    + apply Cv in Hv.
      pose proof (skip_ws_length r1) as Hr1.
      destruct (skip_ws r1) as [| c r']; [discriminate |].
      cbn [String.length] in Hr1.
      destruct (Ascii.eqb c ",").
      * apply omap_fuel in H. revert H. apply IHe. lia.
      * destruct (Ascii.eqb c "]"); discriminate.
  - intros s Hfuel H. cbn [parse_members] in H.
    pose proof (skip_ws_length s) as Hs.
    destruct (skip_ws s) as [| c r0]; [discriminate |].
    cbn [String.length] in Hs.
    destruct (Ascii.eqb c dquote); [| discriminate].
    apply bind_fuel in H. destruct H as [H | (k & r1 & Hk & H)].
    + exact (proj1 (parse_chars_consumes r0 None) H).
    + apply parse_chars_consumes in Hk.
      pose proof (skip_ws_length r1) as Hr1.
      destruct (skip_ws r1) as [| c1 r2]; [discriminate |].
      cbn [String.length] in Hr1.
      destruct (Ascii.eqb c1 ":"); [| discriminate].
      apply bind_fuel in H. destruct H as [H | (v & r3 & Hv & H)].
      * revert H. apply IHv. lia.
      * apply Cv in Hv.
        pose proof (skip_ws_length r3) as Hr3.
        destruct (skip_ws r3) as [| c3 r4]; [discriminate |].
        cbn [String.length] in Hr3.
        destruct (Ascii.eqb c3 ",").
        -- apply omap_fuel in H. revert H. apply IHm. lia.
        -- destruct (Ascii.eqb c3 "}"); discriminate.
Qed.

Lemma fuel_for_enough text : parse_value (fuel_for text) text <> OutOfFuel.
Proof. apply parse_never_out_of_fuel. unfold fuel_for. lia. Qed.

End FuelValues.

(** ** Text: white space, letter case and numerals *)

Section Trimming.

Lemma append_eq_append (a b c d : string) :
  a ++ b = c ++ d ->
  exists e, (a = c ++ e /\ d = e ++ b) \/ (c = a ++ e /\ b = e ++ d).
Proof.
  revert c. induction a as [| x a IH]; intros c H; simpl in H.
  - exists c. right. split; [reflexivity | exact H].
  - destruct c as [| y c]; simpl in H.
    + exists (String x a). left. split; [reflexivity | now rewrite <- H].
    + injection H as -> H. destruct (IH c H) as [e [[-> ->] | [-> ->]]];
        exists e; [left | right]; split; reflexivity.
Qed.

Lemma white_start x s :
  In x white_space -> Str.trimStart (x ++ s) = Str.trimStart s.
Proof. intros H. each_white H; reflexivity. Qed.

Lemma white_nonempty x : In x white_space -> x <> EmptyString.
Proof. intros H. each_white H; discriminate. Qed.

Lemma white_lead x :
  In x white_space -> exists c y, x = String c y /\ continuation c = false.
Proof. intros H. each_white H; eexists; eexists; split; reflexivity. Qed.

Lemma white_rest x a c b :
  In x white_space -> x = a ++ String c b -> a <> EmptyString ->
  continuation c = true.
Proof.
  intros H Heq Hne.
  destruct a as [| a1 [| a2 [| a3 a4]]]; [congruence | | |].
  - each_white H; simpl in Heq; inversion Heq; reflexivity.
  - each_white H; simpl in Heq; inversion Heq; reflexivity.
  - exfalso. each_white H; simpl in Heq; inversion Heq;
      match goal with E : _ = (a4 ++ _)%string |- _ => destruct a4; discriminate E end.
Qed.


Lemma ascii_of_nat_of c n : nat_of_ascii c = n -> c = ascii_of_nat n.
Proof. intros <-. symmetry. apply ascii_nat_embedding. Qed.

Lemma is_space_white c :
  Str.is_space c = true -> In (String c EmptyString) white_space.
Proof.
  destruct c as [[] [] [] [] [] [] [] []]; try discriminate; intros _; cbv;
    repeat (first [left; reflexivity | right]).
Qed.

Lemma is_space2_white c1 c2 :
  Str.is_space2 c1 c2 = true ->
  In (String c1 (String c2 EmptyString)) white_space.
Proof.
  unfold Str.is_space2. rewrite andb_true_iff, !Nat.eqb_eq.
  intros [H1 H2]. apply ascii_of_nat_of in H1, H2. subst. cbv.
  repeat (first [left; reflexivity | right]).
Qed.

Lemma eqb_ascii_of_nat c n :
  Nat.eqb (nat_of_ascii c) n = true -> c = ascii_of_nat n.
Proof. intros H. apply Nat.eqb_eq in H. apply ascii_of_nat_of. exact H. Qed.

Lemma is_space3_white c1 c2 c3 :
  Str.is_space3 c1 c2 c3 = true ->
  In (String c1 (String c2 (String c3 EmptyString))) white_space.
Proof.
  unfold Str.is_space3. cbv zeta. intros H.
  repeat (apply orb_true_iff in H; destruct H as [H | H]);
    apply andb_true_iff in H; destruct H as [H H3];
    apply andb_true_iff in H; destruct H as [H1 H2];
    apply eqb_ascii_of_nat in H1, H2; subst c1 c2;
    destruct c3 as [[] [] [] [] [] [] [] []]; cbv in H3; try discriminate H3;
    cbv; repeat (first [left; reflexivity | right]).
Qed.

(** What [trimStart] does with the head of a string. *)
Lemma trimStart_cases s :
  s = EmptyString
  \/ (exists x r, In x white_space /\ s = x ++ r
                  /\ Str.trimStart s = Str.trimStart r)
  \/ (Str.trimStart s = s /\ ~ starts_white s).
Proof.
  destruct s as [| c1 r1]; [left; reflexivity | right].
  destruct (Str.is_space c1) eqn:E1.
  { left. exists (String c1 EmptyString), r1.
    split; [apply is_space_white; exact E1 |]. split; [reflexivity |].
    cbn [Str.trimStart]. rewrite E1. reflexivity. }
  destruct r1 as [| c2 r2].
  { right. split; [cbn [Str.trimStart]; rewrite E1; reflexivity |].
    intros (x & t' & Hx & Heq). each_white Hx; simpl in Heq; inversion Heq;
      subst; discriminate. }
  destruct (Str.is_space2 c1 c2) eqn:E2.
  { left. exists (String c1 (String c2 EmptyString)), r2.
    split; [apply is_space2_white; exact E2 |]. split; [reflexivity |].
    cbn [Str.trimStart]. rewrite E1, E2. reflexivity. }
  destruct r2 as [| c3 r3].
  { right. split; [cbn [Str.trimStart]; rewrite E1, E2; reflexivity |].
    intros (x & t' & Hx & Heq). each_white Hx; simpl in Heq; inversion Heq;
      subst; discriminate. }
  destruct (Str.is_space3 c1 c2 c3) eqn:E3.
  { left. exists (String c1 (String c2 (String c3 EmptyString))), r3.
    split; [apply is_space3_white; exact E3 |]. split; [reflexivity |].
    cbn [Str.trimStart]. rewrite E1, E2, E3. reflexivity. }
  right. split; [cbn [Str.trimStart]; rewrite E1, E2, E3; reflexivity |].
  intros (x & t' & Hx & Heq). each_white Hx; simpl in Heq; inversion Heq;
    subst; discriminate.
Qed.

Lemma not_starts_white_empty : ~ starts_white EmptyString.
Proof.
  intros (x & t' & Hx & Heq). apply (white_nonempty x Hx).
  destruct x; [reflexivity | discriminate].
Qed.

Lemma white_length x : In x white_space -> (0 < String.length x)%nat.
Proof.
  intros H. pose proof (white_nonempty x H). destruct x; [congruence |].
  simpl. lia.
Qed.

Lemma trimStart_split s :
  exists w, all_white w /\ s = w ++ Str.trimStart s.
Proof.
  remember (String.length s) as n eqn:Hn. revert s Hn.
  induction n as [n IH] using lt_wf_ind. intros s Hn.
  destruct (trimStart_cases s) as [-> | [(x & r & Hx & -> & Ht) | [Ht _]]].
  - exists EmptyString. split; [constructor | reflexivity].
  - destruct (IH (String.length r)) with (s := r) as (w & Hw & Hr);
      [| reflexivity |].
    + subst n. rewrite length_append. pose proof (white_length x Hx). lia.
    + exists (x ++ w). split; [constructor; assumption |].
      rewrite Ht, append_assoc, <- Hr. reflexivity.
  - exists EmptyString. split; [constructor | now rewrite Ht].
Qed.

Lemma trimStart_not_starts s : ~ starts_white (Str.trimStart s).
Proof.
  remember (String.length s) as n eqn:Hn. revert s Hn.
  induction n as [n IH] using lt_wf_ind. intros s Hn.
  destruct (trimStart_cases s) as [-> | [(x & r & Hx & -> & Ht) | [Ht Hs]]].
  - exact not_starts_white_empty.
  - rewrite Ht. apply (IH (String.length r)); [| reflexivity].
    subst n. rewrite length_append. pose proof (white_length x Hx). lia.
  - rewrite Ht. exact Hs.
Qed.

Lemma trimStart_fixed t : ~ starts_white t -> Str.trimStart t = t.
Proof.
  intros Ht.
  destruct (trimStart_cases t) as [-> | [(x & r & Hx & -> & _) | [H _]]].
  - reflexivity.
  - exfalso. apply Ht. exists x, r. split; [exact Hx | reflexivity].
  - exact H.
Qed.

Lemma trimStart_all_white w s :
  all_white w -> Str.trimStart (w ++ s) = Str.trimStart s.
Proof.
  induction 1 as [| x w Hx Hw IH]; [reflexivity |].
  rewrite append_assoc, white_start by exact Hx. exact IH.
Qed.

Lemma all_white_trimStart s : Str.trimStart s = EmptyString <-> all_white s.
Proof.
  split.
  - intros H. destruct (trimStart_split s) as (w & Hw & Hs).
    rewrite H, append_nil_r in Hs. now subst.
  - intros H. rewrite <- (append_nil_r s). now rewrite trimStart_all_white.
Qed.

Lemma all_white_one x : In x white_space -> all_white x.
Proof.
  intros H. rewrite <- (append_nil_r x). constructor; [exact H | constructor].
Qed.

Lemma all_white_inv s :
  all_white s ->
  s = EmptyString
  \/ exists y r, In y white_space /\ all_white r /\ s = y ++ r.
Proof.
  intros H. destruct H as [| x w Hx Hw]; [left; reflexivity |].
  right. exists x, w. repeat split; assumption.
Qed.

Lemma all_white_last a : all_white a -> a <> EmptyString -> ends_white a.
Proof.
  induction 1 as [| x w Hx Hw IH]; [congruence |]. intros _.
  destruct w as [| c w'].
  - exists EmptyString, x. split; [exact Hx | apply append_nil_r].
  - destruct IH as (t' & y & Hy & Heq); [discriminate |].
    exists (x ++ t'), y. split; [exact Hy |].
    rewrite Heq, append_assoc. reflexivity.
Qed.

(** A white sequence never begins inside another one. *)
Lemma white_no_overlap y a c e w :
  In y white_space -> y = a ++ String c e -> a <> EmptyString ->
  all_white (String c w) -> False.
Proof.
  intros Hy Heq Hne Hw.
  pose proof (white_rest y a c e Hy Heq Hne) as Hcont.
  apply all_white_inv in Hw. destruct Hw as [Hw | (y' & r' & Hy' & _ & Hw)];
    [discriminate |].
  destruct (white_lead y' Hy') as (c' & z & -> & Hlead).
  simpl in Hw. injection Hw as -> _. congruence.
Qed.

Lemma all_white_cancel a w : all_white (a ++ w) -> all_white w -> all_white a.
Proof.
  remember (String.length a) as n eqn:Hn. revert a Hn.
  induction n as [n IH] using lt_wf_ind. intros a Hn Haw Hw.
  destruct a as [| c0 a0]; [constructor |].
  apply all_white_inv in Haw.
  destruct Haw as [Haw | (y & r & Hy & Hr & Heq)]; [discriminate |].
  apply append_eq_append in Heq.
  destruct Heq as [e [[Ha Hre] | [Hya Hwe]]].
  - rewrite Ha. constructor; [exact Hy |].
    apply (IH (String.length e)); [| reflexivity | now rewrite <- Hre | exact Hw].
    subst n. rewrite Ha, length_append. pose proof (white_length y Hy). lia.
  - destruct e as [| c e].
    + rewrite append_nil_r in Hya. rewrite <- Hya. apply all_white_one, Hy.
    + exfalso. rewrite Hwe in Hw. simpl in Hw.
      apply (white_no_overlap y (String c0 a0) c e (e ++ r) Hy Hya);
        [discriminate | exact Hw].
Qed.

Lemma trimEnd_cons c s :
  Str.trimEnd (String c s)
  = if (Str.trimStart (String c s) =? EmptyString)%string then EmptyString
    else String c (Str.trimEnd s).
Proof. reflexivity. Qed.

Lemma trimEnd_white w : all_white w -> Str.trimEnd w = EmptyString.
Proof.
  intros H. destruct w as [| c w]; [reflexivity |].
  rewrite trimEnd_cons. apply all_white_trimStart in H. rewrite H. reflexivity.
Qed.

Lemma trimEnd_split s : exists w, all_white w /\ s = Str.trimEnd s ++ w.
Proof.
  induction s as [| c s (w & Hw & IH)].
  - exists EmptyString. split; [constructor | reflexivity].
  - rewrite trimEnd_cons.
    destruct (String.eqb_spec (Str.trimStart (String c s)) EmptyString)
      as [E | _].
    + exists (String c s). split; [apply all_white_trimStart, E | reflexivity].
    + exists w. split; [exact Hw |]. simpl. now rewrite <- IH.
Qed.

Lemma trimEnd_not_ends s : ~ ends_white (Str.trimEnd s).
Proof.
  induction s as [| c s IH].
  - intros (t' & x & Hx & Heq). apply (white_nonempty x Hx).
    destruct t'; simpl in Heq; [now rewrite <- Heq | discriminate].
  - rewrite trimEnd_cons.
    destruct (String.eqb_spec (Str.trimStart (String c s)) EmptyString)
      as [E | Hne].
    + intros (t' & x & Hx & Heq). apply (white_nonempty x Hx).
      destruct t'; simpl in Heq; [now rewrite <- Heq | discriminate].
    + intros (t' & x & Hx & Heq). destruct t' as [| d t'].
      * apply Hne. apply all_white_trimStart.
        destruct (trimEnd_split s) as (w & Hw & Hs).
        simpl in Heq. rewrite Hs.
        change (String c (Str.trimEnd s ++ w))
          with (String c (Str.trimEnd s) ++ w).
        rewrite Heq. constructor; assumption.
      * simpl in Heq. injection Heq as _ Heq.
        apply IH. exists t', x. split; assumption.
Qed.

Lemma trimEnd_keep_suffix t w :
  ~ ends_white t -> all_white w ->
  forall pre u, t = pre ++ u -> Str.trimEnd (u ++ w) = u.
Proof.
  intros Ht Hw pre u. revert pre.
  induction u as [| c u IH]; intros pre Heq.
  - apply trimEnd_white. exact Hw.
  - change (String c u ++ w) with (String c (u ++ w)).
    rewrite trimEnd_cons.
    destruct (String.eqb_spec (Str.trimStart (String c (u ++ w))) EmptyString)
      as [E | _].
    + exfalso. apply Ht. apply all_white_trimStart in E.
      apply (all_white_cancel (String c u) w) in E; [| exact Hw].
      apply all_white_last in E; [| discriminate].
      destruct E as (t' & x & Hx & Hcu).
      exists (pre ++ t'), x. split; [exact Hx |].
      rewrite Heq, Hcu, append_assoc. reflexivity.
    + f_equal. apply (IH (pre ++ String c EmptyString)).
      rewrite Heq, append_assoc. reflexivity.
Qed.

Lemma trimEnd_keep t w :
  ~ ends_white t -> all_white w -> Str.trimEnd (t ++ w) = t.
Proof.
  intros Ht Hw. exact (trimEnd_keep_suffix t w Ht Hw EmptyString t eq_refl).
Qed.

(** [trim] gives the one string that is left when the white space
    around is taken away. *)
Lemma stripped_unique s t : stripped s t -> Str.trim s = t.
Proof.
  intros (w1 & w2 & -> & Hw1 & Hw2 & Hst & Hen).
  unfold Str.trim. rewrite trimStart_all_white by exact Hw1.
  destruct t as [| c t].
  - simpl. apply all_white_trimStart in Hw2. rewrite Hw2. reflexivity.
  - rewrite trimStart_fixed; [apply trimEnd_keep; assumption |].
    intros (x & r & Hx & Heq).
    apply append_eq_append in Heq.
    destruct Heq as [e [[Ha Hre] | [Hxa Hwe]]].
    + apply Hst. exists x, e. split; assumption.
    + destruct e as [| d e].
      * rewrite append_nil_r in Hxa. apply Hst.
        exists x, EmptyString. split; [exact Hx |].
        rewrite append_nil_r. congruence.
      * rewrite Hwe in Hw2. simpl in Hw2.
        apply (white_no_overlap x (String c t) d e (e ++ r) Hx Hxa);
          [discriminate | exact Hw2].
Qed.

Lemma stripped_trim s : stripped s (Str.trim s).
Proof.
  unfold Str.trim.
  destruct (trimStart_split s) as (w1 & Hw1 & Hs).
  destruct (trimEnd_split (Str.trimStart s)) as (w2 & Hw2 & Ht).
  exists w1, w2. split; [now rewrite <- Ht |].
  split; [exact Hw1 |]. split; [exact Hw2 |].
  split; [| apply trimEnd_not_ends].
  intros (x & r & Hx & Heq).
  apply (trimStart_not_starts s). exists x, (r ++ w2).
  split; [exact Hx |]. rewrite Ht at 1. rewrite Heq, append_assoc. reflexivity.
Qed.

End Trimming.

Section LetterCase.

Lemma lower_char_fold c : Str.lower_char c = fold_char c.
Proof. destruct c as [[] [] [] [] [] [] [] []]; reflexivity. Qed.

Lemma lower_same a b :
  Str.toLowerCase a = Str.toLowerCase b <-> same_letters a b.
Proof.
  revert b. induction a as [| c a IH]; intros [| d b]; simpl;
    try (split; [discriminate | contradiction]).
  - split; [intros _; exact I | reflexivity].
  - rewrite <- IH, !lower_char_fold. split.
    + intros H. injection H as H1 H2. split; assumption.
    + intros [H1 H2]. now rewrite H1, H2.
Qed.

Lemma same_letters_refl a : same_letters a a.
Proof. apply lower_same. reflexivity. Qed.

Lemma same_letters_sym a b : same_letters a b -> same_letters b a.
Proof. rewrite <- !lower_same. congruence. Qed.

Lemma toLowerCase_app a b :
  Str.toLowerCase (a ++ b) = Str.toLowerCase a ++ Str.toLowerCase b.
Proof. induction a as [| c a IH]; simpl; [reflexivity | now rewrite IH]. Qed.

Lemma lower_split s x y :
  Str.toLowerCase s = x ++ y ->
  exists s1 s2, s = s1 ++ s2 /\ Str.toLowerCase s1 = x
                /\ Str.toLowerCase s2 = y.
Proof.
  revert s. induction x as [| c x IH]; intros s H.
  - exists EmptyString, s. repeat split. exact H.
  - destruct s as [| d s]; [discriminate |]. simpl in H.
    injection H as Hc H. destruct (IH s H) as (s1 & s2 & -> & H1 & H2).
    exists (String d s1), s2. repeat split; [| exact H2].
    simpl. now rewrite Hc, H1.
Qed.

Lemma contains_lower_ci s q :
  contains (Str.toLowerCase s) (Str.toLowerCase q) <-> contains_ci s q.
Proof.
  split.
  - intros (a' & b' & H).
    apply lower_split in H. destruct H as (a & r & -> & Ha & H).
    apply lower_split in H. destruct H as (m & b & -> & Hm & Hb).
    exists a, m, b. split; [reflexivity |]. apply lower_same. exact Hm.
  - intros (a & m & b & -> & Hm). apply lower_same in Hm.
    exists (Str.toLowerCase a), (Str.toLowerCase b).
    now rewrite !toLowerCase_app, Hm.
Qed.

Lemma lower_digit c : is_digit c = true -> Str.lower_char c = c.
Proof.
  destruct c as [[] [] [] [] [] [] [] []]; try discriminate; reflexivity.
Qed.

Lemma lower_digits s : digits_only s = true -> Str.toLowerCase s = s.
Proof.
  induction s as [| c s IH]; [reflexivity |].
  cbn [digits_only Str.toLowerCase]. intros H.
  apply andb_true_iff in H. destruct H as [Hc Hs].
  now rewrite (lower_digit c Hc), (IH Hs).
Qed.

Lemma lower_toString z : Str.toLowerCase (toString z) = toString z.
Proof.
  unfold toString. destruct (z <? 0) eqn:Hz.
  - apply Z.ltb_lt in Hz. cbn [Str.toLowerCase].
    rewrite (lower_digits _ (digits_digits_only (- z) ltac:(lia))).
    reflexivity.
  - apply Z.ltb_ge in Hz.
    apply lower_digits, digits_digits_only. exact Hz.
Qed.

End LetterCase.

Section Numerals.

Lemma toString_numeral z : numeral z (toString z).
Proof.
  unfold numeral, toString. destruct (z <? 0) eqn:Hz.
  - apply Z.ltb_lt in Hz. exists (digits (- z) EmptyString).
    split; [apply digits_digits_only; lia |].
    split; [apply valid_int_digits; lia |].
    split; [rewrite horner_digits by lia; lia | reflexivity].
  - apply Z.ltb_ge in Hz. exists (digits z EmptyString).
    split; [apply digits_digits_only; lia |].
    split; [apply valid_int_digits; lia |].
    split; [rewrite horner_digits by lia; lia | reflexivity].
Qed.

Lemma isCompositeProduct_by_toString n :
  isCompositeProduct_by toString n = isCompositeProduct n.
Proof. reflexivity. Qed.

Lemma isCompositeProduct_by_of_Z print n :
  3 < n ->
  isCompositeProduct_by print (of_Z n)
  = match scan n 2 with
    | Some i =>
        mkCheckResult true
          (print n ++ " = " ++ print i ++ " × " ++ print (Z.quot n i))
    | None =>
        mkCheckResult false
          (print n
           ++ " is prime — it cannot be expressed as product of two integers > 1.")
    end.
Proof.
  intros Hn. unfold isCompositeProduct_by.
  rewrite isInteger_of_Z, leb_of_Z, to_Z_of_Z.
  replace (n <=? 3) with false by (symmetry; apply Z.leb_gt; lia).
  reflexivity.
Qed.

End Numerals.

(** C1.  For every integer [n > 3] the check answers [true] exactly when
    [n] is not prime, however the platform prints numbers.  When it
    answers [true] there is the smallest divisor [i >= 2] of [n], with
    [i * (n/i) = n] and [2 <= i <= n/i], and the explanation is the text
    of [n], [" = "], the text of [i], [" × "] and the text of [n/i], in
    the platform's conversion of numbers to text; on the safe integers
    that conversion is [toString], and the three texts are the decimal
    numerals of [n], [i] and [n/i]. *)
Theorem isCompositeProduct_correct (n : Z) (Hn : 3 < n) :
  (forall print,
     result (isCompositeProduct_by print (of_Z n)) = true <-> ~ prime n)
  /\ (result (isCompositeProduct (of_Z n)) = true <-> ~ prime n)
  /\ (result (isCompositeProduct (of_Z n)) = true ->
      exists i,
        i * (n / i) = n
        /\ (i | n)
        /\ (forall d, 2 <= d -> (d | n) -> i <= d)
        /\ 2 <= i <= n / i
        /\ (forall print,
              explanation (isCompositeProduct_by print (of_Z n))
              = print n ++ " = " ++ print i ++ " × " ++ print (n / i))
        /\ (n <= 9007199254740991 ->
            isCompositeProduct (of_Z n)
            = isCompositeProduct_by toString (of_Z n)
            /\ explanation (isCompositeProduct (of_Z n))
               = toString n ++ " = " ++ toString i ++ " × " ++ toString (n / i)
            /\ numeral n (toString n)
            /\ numeral i (toString i)
            /\ numeral (n / i) (toString (n / i)))).
Proof.
  pose proof (scan_spec n 2 ltac:(lia) ltac:(intros; lia)) as Hscan.
  pose proof (fun print => isCompositeProduct_by_of_Z print n Hn) as Hby.
  assert (Hlink : isCompositeProduct (of_Z n)
                  = isCompositeProduct_by toString (of_Z n))
    by (symmetry; apply isCompositeProduct_by_toString).
  destruct (scan n 2) as [k |].
  - destruct Hscan as (Hk & Hkk & Hdiv & Hmin).
    assert (Hq : Z.quot n k = n / k) by (apply Z.quot_div_nonneg; lia).
    assert (Hex : k * (n / k) = n).
    { destruct Hdiv as [c ->]. rewrite Z.div_mul by lia. lia. }
    rewrite Hq in Hby.
    assert (Hnp : ~ prime n)
      by (apply (not_prime_of_divisor n k); assumption).
    assert (Hres : result (isCompositeProduct (of_Z n)) = true)
      by (rewrite Hlink, Hby; reflexivity).
    split; [| split].
    + intros print. rewrite Hby. split; [intros _; exact Hnp | reflexivity].
    + split; [intros _; exact Hnp | intros _; exact Hres].
    + intros _. exists k.
      split; [exact Hex |]. split; [exact Hdiv |].
      split.
      { intros d Hd Hdn. destruct (Z_lt_dec d k) as [Hlt | ]; [| lia].
        exfalso. apply (Hmin d); [lia | assumption]. }
      split; [nia |].
      split; [intros print; rewrite Hby; reflexivity |].
      intros _. split; [exact Hlink |].
      split; [rewrite Hlink, Hby; reflexivity |].
      repeat split; apply toString_numeral.
  - assert (Hp : prime n)
      by (apply prime_of_no_small_divisor; [lia | assumption]).
    assert (Hres : result (isCompositeProduct (of_Z n)) = false)
      by (rewrite Hlink, Hby; reflexivity).
    split; [| split].
    + intros print. rewrite Hby. split; [discriminate | contradiction].
    + rewrite Hres. split; [discriminate | contradiction].
    + rewrite Hres. discriminate.
Qed.

Lemma isCompositeProduct_correct_witness :
  3 < 12
  /\ (result (isCompositeProduct (of_Z 12)) = true <-> ~ prime 12).
Proof.
  assert (H : 3 < 12) by lia.
  split; [exact H | exact (proj1 (proj2 (isCompositeProduct_correct 12 H)))].
Defined.

(** ** Search: the query and the fields *)

Section SearchQuery.

Lemma filtered_In query rs r :
  In r (filtered query rs)
  <-> In r rs /\ field_match (Str.toLowerCase (Str.trim query)) r.
Proof.
  unfold filtered, Str.truthy.
  destruct (String.eqb_spec (Str.toLowerCase (Str.trim query)) EmptyString)
    as [-> | Hne]; simpl.
  - split; [intros H; split; [exact H |] | tauto].
    right. left. apply contains_empty.
  - rewrite filter_In, matches_spec. reflexivity.
Qed.

Lemma matches_by_spec lower print q r :
  matches_by lower print q r = true
  <-> (exists l, label r = Some l /\ contains (lower l) q)
      \/ contains (print (value r)) q
      \/ contains (lower (rec_id r)) q.
Proof.
  unfold matches_by.
  rewrite !orb_true_iff, !includes_spec.
  destruct (label r) as [l |].
  - rewrite includes_spec. split.
    + intros [[H | H] | H]; [left; exists l; split; [reflexivity | exact H]
                            | right; left; exact H | right; right; exact H].
    + intros [(l' & Hl & H) | [H | H]];
        [left; left; congruence | left; right; exact H | right; exact H].
  - split.
    + intros [[H | H] | H]; [discriminate | right; left; exact H
                            | right; right; exact H].
    + intros [(l' & Hl & H) | [H | H]];
        [discriminate | left; right; exact H | right; exact H].
Qed.

Lemma filtered_by_In lower print query rs r :
  In r (filtered_by lower print query rs)
  <-> In r rs
      /\ ((exists l, label r = Some l
                     /\ contains (lower l) (lower (Str.trim query)))
          \/ contains (print (value r)) (lower (Str.trim query))
          \/ contains (lower (rec_id r)) (lower (Str.trim query))).
Proof.
  unfold filtered_by, Str.truthy.
  destruct (String.eqb_spec (lower (Str.trim query)) EmptyString)
    as [-> | Hne]; simpl.
  - split; [intros H; split; [exact H |] | tauto].
    right. left. apply contains_empty.
  - rewrite filter_In, matches_by_spec. reflexivity.
Qed.

Lemma field_match_lower_ci t r :
  field_match (Str.toLowerCase t) r <-> field_match_ci t r.
Proof.
  unfold field_match, field_match_ci.
  rewrite <- (lower_toString (value r)) at 1.
  rewrite !contains_lower_ci.
  split; (intros [(l & Hl & H) | H]; [left; exists l; split; [exact Hl |] | right; exact H]);
    apply contains_lower_ci; exact H.
Qed.

Lemma filtered_ci query t rs r :
  stripped query t ->
  (In r (filtered query rs) <-> In r rs /\ field_match_ci t r).
Proof.
  intros Ht. apply stripped_unique in Ht.
  rewrite filtered_In, Ht, field_match_lower_ci. reflexivity.
Qed.

End SearchQuery.

(** C7, amended.  Let [t] be the query without the white space around
    it.  Whatever [toLowerCase] and the conversion of numbers to text
    are, a record is returned exactly when it is in the collection and
    its label (when present) in lower case, the text of its value or its
    id in lower case contains [t] in lower case.  On ASCII text and safe
    integers this is: the label, the decimal numeral of the value or the
    id contains [t] up to the case of the letters.  The records returned
    keep the order of the collection, and a query of white space only,
    or empty, returns the collection as it is. *)
Theorem filtered_spec (query : string) (rs : list RecordItem) :
  (exists t, stripped query t)
  /\ (forall t, stripped query t ->
        (forall lower print r,
           In r (filtered_by lower print query rs)
           <-> In r rs
               /\ ((exists l, label r = Some l
                              /\ contains (lower l) (lower t))
                   \/ contains (print (value r)) (lower t)
                   \/ contains (lower (rec_id r)) (lower t)))
        /\ (plain query = true -> Forall plain_record rs ->
            filtered query rs
            = filtered_by Str.toLowerCase toString query rs
            /\ forall r,
                 (In r (filtered query rs)
                  <-> In r rs /\ field_match_ci t r)
                 /\ (In r rs -> numeral (value r) (toString (value r)))))
  /\ (forall lower print, Subseq (filtered_by lower print query rs) rs)
  /\ (all_white query ->
      forall lower print, lower EmptyString = EmptyString ->
        filtered_by lower print query rs = rs).
Proof.
  split; [exists (Str.trim query); apply stripped_trim |].
  split; [| split].
  - intros t Ht. split.
    + intros lower print r. rewrite filtered_by_In.
      rewrite (stripped_unique query t Ht). reflexivity.
    + intros _ _. split; [reflexivity |].
      intros r. split; [apply filtered_ci; exact Ht |].
      intros _. apply toString_numeral.
  - intros lower print. unfold filtered_by.
    destruct (negb _); [apply Subseq_refl | apply filter_Subseq].
  - intros Hw lower print Hlower. unfold filtered_by, Str.trim.
    apply all_white_trimStart in Hw. rewrite Hw. cbn [Str.trimEnd].
    rewrite Hlower. reflexivity.
Qed.

Lemma filtered_spec_witness :
  stripped " SAM " "SAM"
  /\ plain " SAM " = true
  /\ Forall plain_record (records sample_state)
  /\ In (mkRecordItem "rec_b" (Some "sample-1") 12 "2025-01-01T00:00:01.000Z")
        (filtered " SAM " (records sample_state)).
Proof.
  assert (Ht : stripped " SAM " "SAM") by exact (stripped_trim " SAM ").
  assert (Hrs : Forall plain_record (records sample_state)).
  { unfold plain_record, safe.
    constructor; [simpl; repeat split; lia |].
    constructor; [simpl; repeat split; lia | constructor]. }
  split; [exact Ht |]. split; [reflexivity |]. split; [exact Hrs |].
  destruct (filtered_spec " SAM " (records sample_state)) as (_ & H & _).
  destruct (H "SAM" Ht) as [_ Hci].
  destruct (Hci eq_refl Hrs) as [_ Hr].
  apply Hr. split; [left; reflexivity |].
  left. exists "sample-1". split; [reflexivity |].
  exists EmptyString, "sam", "ple-1". split; [reflexivity |].
  simpl. repeat split.
Defined.

(** ** Creating records *)

Section Creating.

Lemma normal_label_stripped s t :
  stripped s t ->
  normal_label (Some s) = if string_dec t EmptyString then None else Some t.
Proof.
  intros H. apply stripped_unique in H. unfold normal_label, Str.truthy.
  rewrite H. destruct (string_dec t EmptyString) as [-> | Hne];
    [reflexivity |].
  destruct (String.eqb_spec t EmptyString); [contradiction | reflexivity].
Qed.

Lemma creations_records cs st :
  records (play (map creation cs) st)
  = (rev (map created cs) ++ records st)%list.
Proof.
  revert st. induction cs as [| [[[id now] lbl] z] cs IH]; intros st;
    [reflexivity |].
  change (play (map creation ((id, now, lbl, z) :: cs)) st)
    with (play (map creation cs)
            (fst (handleCreate id now lbl (of_Z z) st))).
  rewrite IH. unfold handleCreate.
  rewrite isInteger_of_Z, to_Z_of_Z. cbn [negb fst records map rev created].
  rewrite <- app_assoc. reflexivity.
Qed.

End Creating.

(** C9.  [handleCreate] reports the error exactly when the value is not
    an integer, and then leaves the state as it was.  For the integer
    [z] it puts one new record in front of the collection, with value
    [z]; its label is the label given without the white space around it,
    and is absent where nothing is left (or none was given).  So the
    collection lists the records in the reverse order of their creation,
    the newest first. *)
Theorem handleCreate_validates (id now : string) (lbl : option string)
    (num : number) (st : AppState) :
  (snd (handleCreate id now lbl num st)
   = notify_error "Value must be an integer"
   <-> ~ exists z, denotes num z)
  /\ ((~ exists z, denotes num z) -> fst (handleCreate id now lbl num st) = st)
  /\ (forall z, denotes num z ->
        exists item,
          records (fst (handleCreate id now lbl num st)) = item :: records st
          /\ commands (fst (handleCreate id now lbl num st)) = commands st
          /\ rec_id item = id
          /\ value item = z
          /\ createdAt item = now
          /\ (lbl = None -> label item = None)
          /\ (forall s, lbl = Some s ->
                (exists t, stripped s t)
                /\ forall t, stripped s t ->
                     label item
                     = if string_dec t EmptyString then None else Some t)
          /\ snd (handleCreate id now lbl num st)
             = notify_success "Record created" ("ID: " ++ id))
  /\ (forall cs,
        records (play (map creation cs) st)
        = (rev (map created cs) ++ records st)%list).
Proof.
  split; [| split; [| split; [| intros cs; apply creations_records]]];
    unfold handleCreate; destruct (isInteger num) eqn:E; simpl.
  - pose proof (proj1 (isInteger_denotes num) E) as Hex.
    split; [discriminate | intros Hno; contradiction].
  - split; [| reflexivity]. intros _ Hex.
    apply isInteger_denotes in Hex. congruence.
  - intros Hno. exfalso. apply Hno. apply isInteger_denotes. exact E.
  - reflexivity.
  - intros z Hz. eexists. split; [reflexivity |]. split; [reflexivity |].
    split; [reflexivity |]. split; [simpl; apply denotes_to_Z; exact Hz |].
    split; [reflexivity |]. split; [intros ->; reflexivity |].
    split; [| reflexivity].
    intros s ->. split; [exists (Str.trim s); apply stripped_trim |].
    intros t Ht. cbn [label]. apply normal_label_stripped. exact Ht.
  - intros z Hz. exfalso.
    assert (Hex : exists z, denotes num z) by (exists z; exact Hz).
    apply isInteger_denotes in Hex. congruence.
Qed.

(** ** Persistence *)

(** C8, as the claim states it, fails: a stored text that is valid JSON
    but not an array of records is handed back as it was parsed, not
    replaced by the empty collection. *)
Lemma load_keeps_foreign_value :
  load (Some "42") = JNumber (of_Z 42)
  /\ as_records (load (Some "42")) = None
  /\ load (Some "42") <> JArray []
  /\ load (Some "[1]") = JArray [JNumber (of_Z 1)]
  /\ as_records (load (Some "[1]")) = None
  /\ load (Some "[1]") <> JArray [].
Proof. repeat split; discriminate. Qed.

(** C8, amended.  [load] is total (reading never runs out of fuel): with
    nothing stored, with the empty text and with a text that is not JSON
    it gives the empty collection; a text that is JSON is given back as
    parsed, whatever its shape; and the records and the runs that were
    saved are loaded again, equal by value. *)
Theorem load_soft_round_trip :
  (forall text, parse_value (fuel_for text) text <> OutOfFuel)
  /\ load None = JArray []
  /\ load (Some EmptyString) = JArray []
  /\ (forall text, JSON.parse text = None -> load (Some text) = JArray [])
  /\ (forall text v,
        text <> EmptyString -> JSON.parse text = Some v ->
        load (Some text) = v)
  /\ (forall rs ls,
        load_records (save_records rs ls) = records_value rs
        /\ as_records (load_records (save_records rs ls)) = Some rs)
  /\ (forall cs ls,
        load_commands (save_commands cs ls) = commands_value cs
        /\ as_commands (load_commands (save_commands cs ls)) = Some cs).
Proof.
  split; [exact fuel_for_enough |].
  split; [reflexivity |]. split; [reflexivity |].
  split; [| split; [| split]].
  - intros text H. unfold load. rewrite H. destruct (Str.truthy text);
      reflexivity.
  - intros text v Hne H. unfold load.
    rewrite (truthy_nonempty text Hne), H. reflexivity.
  - intros rs ls.
    assert (H : load_records (save_records rs ls) = records_value rs).
    { unfold load_records, save_records. rewrite getItem_setItem.
      unfold load. unfold stringify_records at 1.
      rewrite stringify_array_truthy, parse_stringify_records. reflexivity. }
    rewrite H. split; [reflexivity | apply as_records_value].
  - intros cs ls.
    assert (H : load_commands (save_commands cs ls) = commands_value cs).
    { unfold load_commands, save_commands. rewrite getItem_setItem.
      unfold load. unfold stringify_commands at 1.
      rewrite stringify_array_truthy, parse_stringify_commands. reflexivity. }
    rewrite H. split; [reflexivity | apply as_commands_value].
Qed.

(** * Further properties *)

(** ** The composite-product check on every input *)

Section CompositeAll.

Lemma isCompositeProduct_denotes n z :
  denotes n z -> 3 < z ->
  isCompositeProduct n
  = match scan z 2 with
    | Some i => mkCheckResult true (product_text z i (Z.quot z i))
    | None => mkCheckResult false (prime_text z)
    end.
Proof.
  intros Hz Hgt. unfold isCompositeProduct.
  rewrite (proj2 (isInteger_denotes n) (ex_intro _ z Hz)).
  rewrite (denotes_leb n z 3 Hz), (denotes_to_Z n z Hz).
  replace (z <=? 3) with false by (symmetry; apply Z.leb_gt; lia).
  reflexivity.
Qed.

Lemma denotes_unique n z z' : denotes n z -> denotes n z' -> z = z'.
Proof.
  intros H H'. apply denotes_to_Z in H. apply denotes_to_Z in H'. congruence.
Qed.

Lemma composite_not_prime z : composite z -> ~ prime z.
Proof.
  intros (a & b & Ha & Hb & <-) Hp.
  apply prime_alt in Hp. destruct Hp as [_ Hp].
  apply (Hp a); [nia | exists b; lia].
Qed.

Lemma scan_composite z :
  3 < z ->
  match scan z 2 with
  | Some _ => composite z
  | None => prime z
  end.
Proof.
  intros Hz.
  pose proof (scan_spec z 2 ltac:(lia) ltac:(intros; lia)) as Hscan.
  destruct (scan z 2) as [k |].
  - destruct Hscan as (Hk & Hkk & [c Hc] & _).
    exists k, c. repeat split; nia.
  - apply prime_of_no_small_divisor; [lia | assumption].
Qed.

End CompositeAll.

Lemma result_true_iff n :
  result (isCompositeProduct n) = true
  <-> exists z, denotes n z /\ composite z.
Proof.
  destruct (isInteger n) eqn:Hint.
  - apply isInteger_denotes in Hint. destruct Hint as [z Hz].
    destruct (Z_le_dec z 3) as [Hle | Hgt].
    + unfold isCompositeProduct.
      rewrite (denotes_leb n z 3 Hz).
      replace (z <=? 3) with true by (symmetry; apply Z.leb_le; lia).
      rewrite orb_true_r. simpl. split; [discriminate |].
      intros (z' & Hz' & a & b & Ha & Hb & Hab).
      rewrite (denotes_unique n z z' Hz Hz') in Hle. nia.
    + rewrite (isCompositeProduct_denotes n z Hz ltac:(lia)).
      pose proof (scan_composite z ltac:(lia)) as Hscan.
      destruct (scan z 2) as [k |]; simpl.
      * split; [intros _; exists z; split; assumption | reflexivity].
      * split; [discriminate |].
        intros (z' & Hz' & Hc).
        rewrite <- (denotes_unique n z z' Hz Hz') in Hc.
        exfalso. exact (composite_not_prime z Hc Hscan).
  - unfold isCompositeProduct. rewrite Hint. simpl.
    split; [discriminate |].
    intros (z & Hz & _).
    rewrite (proj2 (isInteger_denotes n) (ex_intro _ z Hz)) in Hint.
    discriminate.
Qed.

(** X1.  On every number, integer or not, the check answers [true]
    exactly when the number is an integer that is the product of two
    integers greater than 1. *)
Theorem isCompositeProduct_iff_composite (n : number) :
  result (isCompositeProduct n) = true
  <-> exists z, denotes n z /\ composite z.
Proof. exact (result_true_iff n). Qed.



(** ** The output of ["check"] and of ["check:all"] *)

Section CheckOutputs.

Lemma verdict_yes res :
  prefix "YES: " (verdict res) = result res.
Proof.
  unfold verdict. destruct (result res), (explanation res); reflexivity.
Qed.

Lemma verdict_no res :
  prefix "NO: " (verdict res) = negb (result res).
Proof.
  unfold verdict. destruct (result res), (explanation res); reflexivity.
Qed.

Lemma result_of_Z_composite z :
  result (isCompositeProduct (of_Z z)) = true <-> composite z.
Proof.
  rewrite result_true_iff. split.
  - intros (z' & Hz' & Hc).
    rewrite (denotes_unique (of_Z z) z z' (denotes_of_Z z) Hz'). exact Hc.
  - intros Hc. exists z. split; [apply denotes_of_Z | exact Hc].
Qed.


Lemma check_output_found id rs r :
  id <> EmptyString ->
  find (fun x => (rec_id x =? id)%string) rs = Some r ->
  command_output (Some id) "check" rs
  = verdict (isCompositeProduct (of_Z (value r))).
Proof.
  intros Hne Hfind. unfold command_output. simpl.
  rewrite (truthy_nonempty id Hne), Hfind. reflexivity.
Qed.

End CheckOutputs.

(** X3.  ["check"] on an id that is not empty and that a record has
    answers for the first record with that id: its output is the verdict
    on that record's value, it starts with ["YES: "] exactly when the
    value is a product of two integers greater than 1, and with
    ["NO: "] otherwise. *)
Theorem check_output_verdict (id : string) (rs : list RecordItem)
    (r : RecordItem)
    (Hid : id <> EmptyString)
    (Hfind : find (fun x => (rec_id x =? id)%string) rs = Some r) :
  command_output (Some id) "check" rs
  = verdict (isCompositeProduct (of_Z (value r)))
  /\ (prefix "YES: " (command_output (Some id) "check" rs) = true
      <-> composite (value r))
  /\ (prefix "NO: " (command_output (Some id) "check" rs) = true
      <-> ~ composite (value r)).
Proof.
  rewrite (check_output_found id rs r Hid Hfind).
  rewrite verdict_yes, verdict_no, <- result_of_Z_composite.
  split; [reflexivity |]. split; [reflexivity |].
  destruct (result (isCompositeProduct (of_Z (value r)))); simpl;
    split; congruence.
Qed.

Lemma check_output_verdict_witness :
  command_output (Some "rec_b") "check" (records sample_state)
  = verdict (isCompositeProduct (of_Z 12))
  /\ (prefix "YES: " (command_output (Some "rec_b") "check"
                        (records sample_state)) = true
      <-> composite 12)
  /\ (prefix "NO: " (command_output (Some "rec_b") "check"
                       (records sample_state)) = true
      <-> ~ composite 12).
Proof.
  apply (check_output_verdict "rec_b" (records sample_state)
           (mkRecordItem "rec_b" (Some "sample-1") 12
              "2025-01-01T00:00:01.000Z")).
  - discriminate.
  - reflexivity.
Defined.



(** X5.  After a record was created, ["check:all"] reports it first:
    the output is the line of the new record, followed by a blank line
    and by the output there was before when there were records. *)
Theorem check_all_after_create (id now : string) (lbl : option string)
    (num : number) (z : Z) (rid : option string) (st : AppState)
    (Hz : denotes num z) :
  command_output rid "check:all"
    (records (fst (handleCreate id now lbl num st)))
  = check_line (mkRecordItem id (normal_label lbl) z now)
    ++ match records st with
       | [] => EmptyString
       | _ :: _ => blank_line ++ command_output rid "check:all" (records st)
       end.
Proof.
  unfold handleCreate.
  rewrite (proj2 (isInteger_denotes num) (ex_intro _ z Hz)).
  rewrite (denotes_to_Z num z Hz). simpl.
  change (command_output rid "check:all")
    with (fun rs => Str.join blank_line (map check_line rs)).
  cbv beta. destruct (records st) as [| r rs].
  - cbn [map Str.join concat]. rewrite append_nil_r. reflexivity.
  - reflexivity.
Qed.

Lemma check_all_after_create_witness :
  command_output None "check:all"
    (records (fst (handleCreate "rec_c" "2025-01-01T00:00:03.000Z" None
                     (of_Z 15) sample_state)))
  = check_line (mkRecordItem "rec_c" None 15 "2025-01-01T00:00:03.000Z")
    ++ blank_line ++ command_output None "check:all" (records sample_state).
Proof.
  apply (check_all_after_create "rec_c" "2025-01-01T00:00:03.000Z" None
           (of_Z 15) 15 None sample_state).
  reflexivity.
Defined.

(** X6.  ["check"] on the id of the record just created, when that id
    is not empty, answers for the new record, whatever records there
    were: the output is the verdict on the value given. *)
Theorem check_after_create (id now : string) (lbl : option string)
    (num : number) (z : Z) (st : AppState)
    (Hz : denotes num z) (Hid : id <> EmptyString) :
  command_output (Some id) "check"
    (records (fst (handleCreate id now lbl num st)))
  = verdict (isCompositeProduct (of_Z z)).
Proof.
  unfold handleCreate.
  rewrite (proj2 (isInteger_denotes num) (ex_intro _ z Hz)).
  rewrite (denotes_to_Z num z Hz). cbn [negb fst records].
  apply (check_output_found id _ (mkRecordItem id (normal_label lbl) z now) Hid).
  cbn [find rec_id]. rewrite String.eqb_refl. reflexivity.
Qed.

Lemma check_after_create_witness :
  command_output (Some "rec_c") "check"
    (records (fst (handleCreate "rec_c" "2025-01-01T00:00:03.000Z" None
                     (Finite (30 # 2)) sample_state)))
  = "YES: 15 = 3 × 5".
Proof.
  apply (check_after_create "rec_c" "2025-01-01T00:00:03.000Z" None
           (Finite (30 # 2)) 15 sample_state).
  - reflexivity.
  - discriminate.
Defined.

(** ** Deleting: what stays *)

Section DeleteKeeps.


Lemma filter_one_less {A : Type} (f : A -> string) (id : string) (l : list A) :
  NoDup (map f l) -> In id (map f l) ->
  S (List.length (filter (fun a => negb (f a =? id)%string) l))
  = List.length l.
Proof.
  induction l as [| x l IH]; intros Hnd Hin; [contradiction |].
  simpl in Hnd. apply NoDup_cons_iff in Hnd. destruct Hnd as [Hx Hnd].
  simpl. destruct (String.eqb_spec (f x) id) as [Heq | Hne]; simpl.
  - f_equal. f_equal. apply filter_all. intros a Ha.
    apply negb_true_iff, String.eqb_neq. intros Hfa.
    apply Hx. rewrite Heq, <- Hfa. apply in_map. exact Ha.
  - f_equal. apply IH; [exact Hnd |].
    destruct Hin as [Hin | Hin]; [congruence | exact Hin].
Qed.

Lemma handleDelete_absent id st :
  ~ In id (map rec_id (records st)) ->
  (forall c, In c (commands st) -> recordId c <> Some id) ->
  fst (handleDelete id st) = st.
Proof.
  intros Hfresh Hunref. unfold handleDelete. cbn [fst].
  rewrite (filter_all (fun r => negb (rec_id r =? id)%string) (records st)).
  - rewrite (filter_all (fun c => negb (refers_to id c)) (commands st)).
    + destruct st; reflexivity.
    + intros c Hc. apply negb_true_iff.
      destruct (refers_to id c) eqn:E; [| reflexivity].
      apply refers_to_spec in E. exfalso. exact (Hunref c Hc E).
  - intros r Hr. apply negb_true_iff, String.eqb_neq.
    intros Heq. apply Hfresh. rewrite <- Heq. apply in_map. exact Hr.
Qed.

End DeleteKeeps.

(** X7.  [handleDelete] keeps, in their order, exactly the records with
    another id and exactly the runs that do not refer to the id; and
    where the ids of the records are pairwise distinct and one of them
    is the id, the collection gets shorter by exactly one. *)
Theorem handleDelete_keeps_others (id : string) (st : AppState) :
  (forall r, In r (records (fst (handleDelete id st)))
             <-> In r (records st) /\ rec_id r <> id)
  /\ (forall c, In c (commands (fst (handleDelete id st)))
                <-> In c (commands st) /\ recordId c <> Some id)
  /\ Subseq (records (fst (handleDelete id st))) (records st)
  /\ Subseq (commands (fst (handleDelete id st))) (commands st)
  /\ (NoDup (map rec_id (records st)) -> In id (map rec_id (records st)) ->
      S (List.length (records (fst (handleDelete id st))))
      = List.length (records st)).
Proof.
  cbn [handleDelete fst records commands].
  split; [| split; [| split; [| split]]].
  - intros r. rewrite filter_In, negb_true_iff, String.eqb_neq. reflexivity.
  - intros c. rewrite filter_In, negb_true_iff.
    split; intros [Hin H]; (split; [exact Hin |]).
    + intros Heq. apply refers_to_spec in Heq. congruence.
    + destruct (refers_to id c) eqn:E; [| reflexivity].
      apply refers_to_spec in E. contradiction.
  - apply filter_Subseq.
  - apply filter_Subseq.
  - apply filter_one_less.
Qed.

(** X8.  Creating a record under an id that no record has and no run
    refers to, and deleting that id again, gives back the records and
    the history there were, whether the value was accepted or not. *)
Theorem create_then_delete (id now : string) (lbl : option string)
    (num : number) (st : AppState)
    (Hfresh : ~ In id (map rec_id (records st)))
    (Hunref : forall c, In c (commands st) -> recordId c <> Some id) :
  fst (handleDelete id (fst (handleCreate id now lbl num st))) = st.
Proof.
  unfold handleCreate. destruct (isInteger num); cbn [negb fst].
  - unfold handleDelete. cbn [fst records commands selectedRecord drawerOpen
                               filter rec_id].
    rewrite String.eqb_refl. cbn [negb].
    pose proof (handleDelete_absent id st Hfresh Hunref) as H.
    unfold handleDelete in H. cbn [fst] in H. exact H.
  - apply handleDelete_absent; assumption.
Qed.

Lemma create_then_delete_witness :
  fst (handleDelete "rec_c"
         (fst (handleCreate "rec_c" "2025-01-01T00:00:03.000Z" (Some "x")
                 (of_Z 15) sample_state)))
  = sample_state.
Proof.
  apply (create_then_delete "rec_c" "2025-01-01T00:00:03.000Z" (Some "x")
           (of_Z 15) sample_state).
  - simpl. intuition discriminate.
  - intros c [<- | []]. discriminate.
Defined.

(** ** The history table and the drawer *)

Section HistoryTable.

Lemma filter_filter_same {A : Type} (p : A -> bool) (l : list A) :
  filter p (filter p l) = filter p l.
Proof. apply forallb_filter_id, forallb_filter. Qed.

Lemma move_to_front (rec : CommandRun) (cs : list CommandRun) :
  NoDup (map cmd_id cs) -> In rec cs ->
  Permutation
    (rec :: filter (fun x => negb (cmd_id x =? cmd_id rec)%string) cs) cs.
Proof.
  induction cs as [| x cs IH]; intros Hnd Hin; [contradiction |].
  simpl in Hnd. apply NoDup_cons_iff in Hnd. destruct Hnd as [Hx Hnd].
  cbn [filter].
  destruct (String.eqb_spec (cmd_id x) (cmd_id rec)) as [Heq | Hne];
    cbn [negb].
  - assert (Hrec : rec = x).
    { destruct Hin as [-> | Hin]; [reflexivity |].
      exfalso. apply Hx. rewrite Heq. apply in_map. exact Hin. }
    subst x. rewrite filter_all; [reflexivity |].
    intros a Ha. apply negb_true_iff, String.eqb_neq. intros Hfa.
    apply Hx. rewrite <- Hfa. apply in_map. exact Ha.
  - destruct Hin as [-> | Hin]; [congruence |].
    rewrite perm_swap. apply perm_skip. apply IH; assumption.
Qed.

Lemma head_filter {A : Type} (p : A -> bool) (l : list A) :
  head (filter p l) = find p l.
Proof.
  induction l as [| x l IH]; simpl; [reflexivity |].
  destruct (p x); [reflexivity | exact IH].
Qed.

End HistoryTable.

(** X9.  "View output" puts the run of its row at the head of the
    history, so that the drawer shows its output, and keeps the other
    runs in their order; pressing it twice is pressing it once; and
    where the ids of the runs are pairwise distinct the history holds
    the same runs as before, as many as before. *)
Theorem viewOutput_moves_to_front (rec : CommandRun) (st : AppState)
    (Hrow : In rec (commands st)) :
  drawer_body (viewOutput rec st) = shows (output rec)
  /\ drawerOpen (viewOutput rec st) = true
  /\ (exists others,
        commands (viewOutput rec st) = rec :: others
        /\ Subseq others (commands st)
        /\ forall c, In c others
                     <-> In c (commands st) /\ cmd_id c <> cmd_id rec)
  /\ viewOutput rec (viewOutput rec st) = viewOutput rec st
  /\ records (viewOutput rec st) = records st
  /\ (NoDup (map cmd_id (commands st)) ->
      Permutation (commands (viewOutput rec st)) (commands st)
      /\ List.length (commands (viewOutput rec st))
         = List.length (commands st)).
Proof.
  split; [reflexivity |]. split; [reflexivity |].
  split; [| split; [| split; [reflexivity |]]].
  - eexists. split; [reflexivity |]. split; [apply filter_Subseq |].
    intros c. rewrite filter_In, negb_true_iff, String.eqb_neq. reflexivity.
  - unfold viewOutput. cbn [records commands filter].
    rewrite String.eqb_refl. cbn [negb]. rewrite filter_filter_same.
    reflexivity.
  - intros Hnd.
    pose proof (move_to_front rec (commands st) Hnd Hrow) as Hperm.
    split; [exact Hperm |]. apply Permutation_length. exact Hperm.
Qed.

Lemma viewOutput_moves_to_front_witness :
  drawer_body
    (viewOutput
       (mkCommandRun "cmd_a" (Some "rec_a") "check"
          "NO: 7 is prime — it cannot be expressed as product of two integers > 1."
          "2025-01-01T00:00:02.000Z")
       sample_state)
  = shows "NO: 7 is prime — it cannot be expressed as product of two integers > 1.".
Proof.
  apply (viewOutput_moves_to_front
           (mkCommandRun "cmd_a" (Some "rec_a") "check"
              "NO: 7 is prime — it cannot be expressed as product of two integers > 1."
              "2025-01-01T00:00:02.000Z")
           sample_state).
  left. reflexivity.
Defined.

(** X10.  "Delete command log" keeps, in their order, exactly the runs
    with another id, and leaves the records alone; a second press
    changes nothing; and where the ids of the runs are pairwise distinct
    and the row is in the history, the history gets shorter by exactly
    one. *)
Theorem deleteCommandLog_removes_row (rec : CommandRun) (st : AppState) :
  (forall c, In c (commands (deleteCommandLog rec st))
             <-> In c (commands st) /\ cmd_id c <> cmd_id rec)
  /\ Subseq (commands (deleteCommandLog rec st)) (commands st)
  /\ records (deleteCommandLog rec st) = records st
  /\ deleteCommandLog rec (deleteCommandLog rec st) = deleteCommandLog rec st
  /\ (NoDup (map cmd_id (commands st)) -> In rec (commands st) ->
      S (List.length (commands (deleteCommandLog rec st)))
      = List.length (commands st)).
Proof.
  split; [| split; [| split; [| split]]].
  - intros c. cbn [deleteCommandLog commands].
    rewrite filter_In, negb_true_iff, String.eqb_neq. reflexivity.
  - apply filter_Subseq.
  - reflexivity.
  - unfold deleteCommandLog. cbn [records commands selectedRecord drawerOpen].
    rewrite filter_filter_same. reflexivity.
  - intros Hnd Hin. cbn [deleteCommandLog commands].
    apply filter_one_less; [exact Hnd | apply in_map; exact Hin].
Qed.

Lemma earlier_refl a : earlier a a.
Proof. destruct (String.leb_total a a); assumption. Qed.

Lemma find_newest id cs c :
  StronglySorted newest_first cs ->
  find (fun c => negb (refers_to id c)) cs = Some c ->
  forall d, In d cs -> recordId d <> Some id ->
    earlier (startedAt d) (startedAt c).
Proof.
  induction 1 as [| x l Hs IH Hall]; [discriminate |].
  cbn [find]. destruct (negb (refers_to id x)) eqn:E.
  - intros Hc d [<- | Hd] _; injection Hc as <-; [apply earlier_refl |].
    rewrite Forall_forall in Hall. exact (Hall d Hd).
  - intros Hc d [<- | Hd] Hne.
    + exfalso. apply Hne. apply refers_to_spec.
      apply negb_false_iff. exact E.
    + exact (IH Hc d Hd Hne).
Qed.

(** X11.  After a record was deleted the drawer shows the first run of
    the history list that does not refer to it, or "No output" when
    there is none; where the history was in the order of [startedAt],
    newest first, no run that is left started later than the one shown.
    The title is left as it was, so it can still name the deleted
    record. *)
Theorem drawer_after_delete (id : string) (st : AppState) :
  drawer_body (fst (handleDelete id st))
  = match find (fun c => negb (refers_to id c)) (commands st) with
    | Some c => shows (output c)
    | None => no_output
    end
  /\ drawer_title (fst (handleDelete id st)) = drawer_title st
  /\ (StronglySorted newest_first (commands st) ->
      forall c,
        find (fun c => negb (refers_to id c)) (commands st) = Some c ->
        forall d, In d (commands (fst (handleDelete id st))) ->
          earlier (startedAt d) (startedAt c)).
Proof.
  split; [| split; [reflexivity |]].
  - unfold drawer_body. cbn [handleDelete fst commands].
    rewrite <- head_filter.
    destruct (filter (fun c => negb (refers_to id c)) (commands st));
      reflexivity.
  - intros Hs c Hc d Hd. cbn [handleDelete fst commands] in Hd.
    apply filter_In in Hd. destruct Hd as [Hd Hne].
    apply (find_newest id (commands st) c Hs Hc d Hd).
    intros Heq. apply refers_to_spec in Heq. rewrite Heq in Hne.
    discriminate.
Qed.

(** ** What every session keeps *)

Section Sessions.

Lemma along_invariant (P : AppState -> Event -> Prop) (I : AppState -> Prop) :
  (forall st e, P st e -> I st -> I (handle st e)) ->
  forall es st, along P es st -> I st -> I (play es st).
Proof.
  intros Hstep es. induction es as [| e es IH]; intros st Hes Hst.
  - exact Hst.
  - destruct Hes as [He Hes]. apply (IH (handle st e)); [exact Hes |].
    apply Hstep; assumption.
Qed.

Lemma along_always es st : along (fun _ _ => True) es st.
Proof.
  revert st. induction es as [| e es IH]; intros st; simpl; [exact I |].
  split; [exact I | apply IH].
Qed.

Lemma filter_length {A : Type} (p : A -> bool) (l : list A) :
  (List.length (filter p l) <= List.length l)%nat.
Proof.
  induction l as [| x l IH]; simpl; [lia |]. destruct (p x); simpl; lia.
Qed.

Lemma filter_shorter {A : Type} (p : A -> bool) (l : list A) (a : A) :
  In a l -> p a = false ->
  (List.length (filter p l) < List.length l)%nat.
Proof.
  induction l as [| x l IH]; intros Hin Hp; [contradiction |].
  simpl. destruct Hin as [-> | Hin].
  - rewrite Hp. pose proof (filter_length p l). lia.
  - specialize (IH Hin Hp). destruct (p x); simpl; lia.
Qed.

Lemma bound_step st e :
  on_a_row st e ->
  (List.length (commands st) <= history_limit)%nat ->
  (List.length (commands (handle st e)) <= history_limit)%nat.
Proof.
  intros Hrow Hlen.
  destruct e as [id now lbl num | id | q | rec | rec]; cbn [handle].
  - unfold handleCreate. destruct (isInteger num); exact Hlen.
  - cbn [handleDelete fst commands].
    pose proof (filter_length (fun c => negb (refers_to id c)) (commands st)).
    lia.
  - unfold run, runCommand. cbn [commands]. rewrite length_firstn. lia.
  - cbn [viewOutput commands List.length].
    assert (Hp : negb (cmd_id rec =? cmd_id rec)%string = false)
      by (rewrite String.eqb_refl; reflexivity).
    pose proof (filter_shorter
                  (fun x => negb (cmd_id x =? cmd_id rec)%string)
                  (commands st) rec Hrow Hp) as H.
    lia.
  - cbn [deleteCommandLog commands].
    pose proof (filter_length
                  (fun c => negb (cmd_id c =? cmd_id rec)%string)
                  (commands st)).
    lia.
Qed.

Lemma tidy_trim s : Str.trim s <> EmptyString -> tidy (Some (Str.trim s)).
Proof.
  intros Hne. destruct (stripped_trim s) as (w1 & w2 & _ & _ & _ & H1 & H2).
  split; [exact Hne | split; assumption].
Qed.

Lemma normal_label_tidy l : tidy (normal_label l).
Proof.
  destruct l as [s |]; [| exact I]. unfold normal_label, Str.truthy.
  destruct (String.eqb_spec (Str.trim s) EmptyString) as [E | Hne];
    cbn [negb]; [exact I |].
  apply tidy_trim. exact Hne.
Qed.

Lemma tidy_fixed s : s <> EmptyString -> Str.trim s = s -> tidy (Some s).
Proof. intros Hne H. rewrite <- H in Hne |- *. apply tidy_trim. exact Hne. Qed.

Lemma tidy_step st e :
  Forall (fun r => tidy (label r)) (records st) ->
  Forall (fun r => tidy (label r)) (records (handle st e)).
Proof.
  intros Hall.
  destruct e as [id now lbl num | id | q | rec | rec]; cbn [handle];
    try exact Hall.
  - unfold handleCreate. destruct (isInteger num); cbn [negb fst records];
      [| exact Hall].
    constructor; [apply normal_label_tidy | exact Hall].
  - cbn [handleDelete fst records]. apply Forall_forall. intros r Hr.
    apply filter_In in Hr. rewrite Forall_forall in Hall. apply Hall, Hr.
Qed.

End Sessions.

(** X12.  Whatever the user does, pressing the buttons of a row on rows
    that are in the table, a history of at most 200 runs stays one. *)
Theorem history_stays_bounded (es : list Event) (st : AppState)
    (Hrows : along on_a_row es st)
    (Hlen : (List.length (commands st) <= 200)%nat) :
  (List.length (commands (play es st)) <= 200)%nat.
Proof.
  exact (along_invariant on_a_row
           (fun s => (List.length (commands s) <= history_limit)%nat)
           bound_step es st Hrows Hlen).
Qed.

Lemma history_stays_bounded_witness :
  (List.length (commands (play sample_session sample_state)) <= 200)%nat.
Proof.
  apply (history_stays_bounded sample_session sample_state).
  - simpl. intuition.
  - simpl. lia.
Defined.

(** X13.  A label that [handleCreate] stores is never empty, and
    neither begins nor ends with white space (any of the white space and
    line terminators that [trim] takes away); so where every record has
    such a label or none, every record has after any sequence of
    actions. *)
Theorem labels_stay_tidy (es : list Event) (st : AppState)
    (Htidy : Forall (fun r => tidy (label r)) (records st)) :
  Forall (fun r => tidy (label r)) (records (play es st))
  /\ forall id now lbl num r,
       In r (records (fst (handleCreate id now lbl num st))) ->
       match label r with
       | None => True
       | Some s =>
           s <> EmptyString
           /\ (forall x t, In x white_space -> s <> x ++ t)
           /\ (forall t x, In x white_space -> s <> t ++ x)
       end.
Proof.
  split.
  - exact (along_invariant (fun _ _ => True)
             (fun s => Forall (fun r => tidy (label r)) (records s))
             (fun s e _ => tidy_step s e) es st (along_always es st) Htidy).
  - intros id now lbl num r Hr.
    pose proof (tidy_step st (Create id now lbl num) Htidy) as H.
    cbn [handle] in H. rewrite Forall_forall in H. specialize (H r Hr).
    destruct (label r) as [s |]; [| exact I].
    destruct H as (Hne & Hst & Hen). split; [exact Hne |].
    split.
    + intros x t Hx Heq. apply Hst. exists x, t. split; assumption.
    + intros t x Hx Heq. apply Hen. exists t, x. split; assumption.
Qed.

Lemma labels_stay_tidy_witness :
  Forall (fun r => tidy (label r))
         (records (play sample_session sample_state)).
Proof.
  apply (labels_stay_tidy sample_session sample_state).
  constructor; [apply tidy_fixed; [discriminate | reflexivity] |].
  constructor; [exact I | constructor].
Defined.

Section SessionIds.

Lemma NoDup_map_filter {A : Type} (f : A -> string) (p : A -> bool)
    (l : list A) :
  NoDup (map f l) -> NoDup (map f (filter p l)).
Proof.
  induction l as [| x l IH]; intros Hnd; [constructor |].
  simpl in Hnd. apply NoDup_cons_iff in Hnd. destruct Hnd as [Hx Hnd].
  simpl. destruct (p x); [| apply IH; exact Hnd].
  simpl. constructor; [| apply IH; exact Hnd].
  intros Hin. apply Hx. apply in_map_iff in Hin.
  destruct Hin as (a & Ha & Hin). apply filter_In in Hin.
  apply in_map_iff. exists a. tauto.
Qed.

Lemma In_firstn {A : Type} (n : nat) (l : list A) (a : A) :
  In a (firstn n l) -> In a l.
Proof.
  intros H. rewrite <- (firstn_skipn n l). apply in_or_app. left. exact H.
Qed.

Lemma NoDup_map_firstn {A : Type} (f : A -> string) (n : nat) (l : list A) :
  NoDup (map f l) -> NoDup (map f (firstn n l)).
Proof.
  revert n. induction l as [| x l IH]; intros n Hnd.
  - rewrite firstn_nil. constructor.
  - destruct n as [| n]; [constructor |].
    simpl in Hnd |- *. apply NoDup_cons_iff in Hnd. destruct Hnd as [Hx Hnd].
    constructor; [| apply IH; exact Hnd].
    intros Hin. apply Hx. apply in_map_iff in Hin.
    destruct Hin as (a & Ha & Hin). apply In_firstn in Hin.
    apply in_map_iff. exists a. tauto.
Qed.

Lemma distinct_step st e :
  fresh_uid st e -> distinct_ids st -> distinct_ids (handle st e).
Proof.
  intros Hfresh [Hr Hc].
  destruct e as [id now lbl num | id | q | rec | rec]; cbn [handle].
  - unfold handleCreate. destruct (isInteger num); cbn [negb fst];
      [| split; assumption].
    split; [| exact Hc]. cbn [records map rec_id].
    constructor; [exact Hfresh | exact Hr].
  - split; cbn [handleDelete fst records commands];
      apply NoDup_map_filter; assumption.
  - split; [exact Hr |]. unfold run, runCommand. cbn [commands].
    apply NoDup_map_firstn. cbn [map cmd_id].
    constructor; [exact Hfresh | exact Hc].
  - split; [exact Hr |]. cbn [viewOutput commands map].
    constructor; [| apply NoDup_map_filter; exact Hc].
    intros Hin. apply in_map_iff in Hin. destruct Hin as (a & Ha & Hin).
    apply filter_In in Hin. destruct Hin as [_ Hne].
    apply negb_true_iff, String.eqb_neq in Hne. congruence.
  - split; [exact Hr |]. cbn [deleteCommandLog commands].
    apply NoDup_map_filter. exact Hc.
Qed.

Lemma not_a_verdict (out : string) :
  out = "Record not found (it may have been deleted)."
  \/ (exists cmd, out = "Unknown command: " ++ cmd) ->
  prefix "YES: " out = false /\ prefix "NO: " out = false.
Proof. intros [-> | [cmd ->]]; split; reflexivity. Qed.

Lemma check_output_cases rid rs :
  (exists r, In r rs /\ rid = Some (rec_id r)
             /\ command_output rid "check" rs
                = verdict (isCompositeProduct (of_Z (value r))))
  \/ (prefix "YES: " (command_output rid "check" rs) = false
      /\ prefix "NO: " (command_output rid "check" rs) = false).
Proof.
  unfold command_output. cbn [String.eqb Ascii.eqb Bool.eqb andb].
  destruct rid as [id |]; [| right; split; reflexivity].
  destruct (Str.truthy id); [| right; split; reflexivity].
  cbn [find_record].
  destruct (find (fun r => (rec_id r =? id)%string) rs) as [r |] eqn:E.
  - left. apply find_some in E. destruct E as [Hin Heq].
    apply String.eqb_eq in Heq. exists r. subst id. repeat split. exact Hin.
  - right. split; reflexivity.
Qed.

Lemma truthful_step st e :
  on_a_row st e -> truthful st -> truthful (handle st e).
Proof.
  intros Hrow Ht.
  destruct e as [id now lbl num | id | q | rec | rec]; cbn [handle].
  - unfold handleCreate. destruct (isInteger num); cbn [negb fst];
      [| exact Ht].
    intros c Hc Hv. destruct (Ht c Hc Hv) as (r & Hr & H).
    exists r. split; [right; exact Hr | exact H].
  - intros c Hc Hv. cbn [handleDelete fst commands records] in *.
    apply filter_In in Hc. destruct Hc as [Hc Hne].
    destruct (Ht c Hc Hv) as (r & Hr & Hid & Hout).
    exists r. split; [| split; assumption].
    apply filter_In. split; [exact Hr |].
    apply negb_true_iff, String.eqb_neq. intros Heq.
    apply negb_true_iff in Hne. unfold refers_to in Hne.
    rewrite Hid, Heq, String.eqb_refl in Hne. discriminate.
  - intros c Hc Hv. unfold run, runCommand in Hc. cbn [commands] in Hc.
    apply In_firstn in Hc. unfold run, runCommand. cbn [records].
    destruct Hc as [<- | Hc]; [| exact (Ht c Hc Hv)].
    destruct Hv as [Hcmd Hv]. cbn [command output] in Hcmd, Hv.
    cbn [recordId output]. rewrite Hcmd in *.
    destruct (check_output_cases (req_recordId q) (records st))
      as [(r & Hr & Hid & Hout) | [Hy Hn]].
    + exists r. split; [exact Hr |]. split; assumption.
    + rewrite Hy, Hn in Hv. destruct Hv; discriminate.
  - intros c Hc Hv. cbn [viewOutput commands records] in *.
    destruct Hc as [<- | Hc]; [exact (Ht rec Hrow Hv) |].
    apply filter_In in Hc. exact (Ht c (proj1 Hc) Hv).
  - intros c Hc Hv. cbn [deleteCommandLog commands records] in *.
    apply filter_In in Hc. exact (Ht c (proj1 Hc) Hv).
Qed.

End SessionIds.

(** X14.  While [uid] gives ids that are new, the ids of the records stay
    pairwise distinct and so do the ids of the runs, through every
    action, "View output" included, which puts a run back in. *)
Theorem ids_stay_distinct (es : list Event) (st : AppState)
    (Hfresh : along fresh_uid es st)
    (Hids : distinct_ids st) :
  distinct_ids (play es st).
Proof.
  exact (along_invariant fresh_uid distinct_ids distinct_step es st
           Hfresh Hids).
Qed.

Lemma ids_stay_distinct_witness :
  distinct_ids (play sample_session sample_state).
Proof.
  apply (ids_stay_distinct sample_session sample_state).
  - simpl. intuition discriminate.
  - split; repeat constructor; simpl; intuition discriminate.
Defined.

(** X15.  A verdict of ["check"] in the history always belongs to a
    record that exists: whatever the user does, for every run of
    ["check"] that says YES or NO there is a record with the id the run
    names, and the output of the run is the verdict on that record's
    value.  (Deleting the record takes the run away; a lookup that
    fails leaves no verdict.) *)
Theorem verdicts_stay_truthful (es : list Event) (st : AppState)
    (Hrows : along on_a_row es st)
    (Htrue : truthful st) :
  truthful (play es st).
Proof.
  exact (along_invariant on_a_row truthful truthful_step es st Hrows Htrue).
Qed.

Lemma verdicts_stay_truthful_witness :
  truthful (play sample_session sample_state).
Proof.
  apply (verdicts_stay_truthful sample_session sample_state).
  - simpl. intuition.
  - intros c [<- | []] _.
    exists (mkRecordItem "rec_a" None 7 "2025-01-01T00:00:00.000Z").
    split; [right; left; reflexivity | split; reflexivity].
Defined.

(** ** Search: what it finds *)

Section SearchMore.

Lemma contains_trans s t q : contains s t -> contains t q -> contains s q.
Proof.
  intros (a & b & ->) (c & d & ->). exists (a ++ c), (d ++ b).
  now rewrite !append_assoc.
Qed.



Lemma filter_comm {A : Type} (p q : A -> bool) (l : list A) :
  filter p (filter q l) = filter q (filter p l).
Proof.
  induction l as [| x l IH]; simpl; [reflexivity |].
  destruct (p x) eqn:Hp, (q x) eqn:Hq; simpl;
    rewrite ?Hp, ?Hq, IH; reflexivity.
Qed.

End SearchMore.

Lemma contains_stripped s t : stripped s t -> contains s t.
Proof. intros (w1 & w2 & -> & _). exists w1, w2. reflexivity. Qed.

Lemma contains_ci_same l t t' :
  contains l t' -> same_letters t t' -> contains_ci l t.
Proof.
  intros (a & b & ->) Ht. exists a, t', b. split; [reflexivity |].
  apply same_letters_sym. exact Ht.
Qed.

(** X16.  On ASCII text and safe integers, a record is found by any
    piece of text taken from its label, from the decimal numeral of its
    value or from its id, with white space around it or not, and in
    whatever case its letters are typed. *)
Theorem search_finds_by_substring (s : string) (r : RecordItem)
    (rs : list RecordItem)
    (Hin : In r rs)
    (Hplain : plain s = true /\ plain_record r)
    (Hsub : (exists l, label r = Some l /\ contains l s)
            \/ contains (toString (value r)) s
            \/ contains (rec_id r) s) :
  In r (filtered s rs)
  /\ (forall query t t',
        plain query = true ->
        stripped query t -> stripped s t' -> same_letters t t' ->
        In r (filtered query rs))
  /\ numeral (value r) (toString (value r)).
Proof.
  assert (Hm : forall t', stripped s t' ->
               forall t, same_letters t t' -> field_match_ci t r).
  { intros t' Ht' t Htt. pose proof (contains_stripped s t' Ht') as Hc.
    destruct Hsub as [(l & Hl & H) | [H | H]].
    - left. exists l. split; [exact Hl |].
      exact (contains_ci_same _ _ _ (contains_trans _ _ _ H Hc) Htt).
    - right. left.
      exact (contains_ci_same _ _ _ (contains_trans _ _ _ H Hc) Htt).
    - right. right.
      exact (contains_ci_same _ _ _ (contains_trans _ _ _ H Hc) Htt). }
  split; [| split; [| apply toString_numeral]].
  - apply (filtered_ci s (Str.trim s)); [apply stripped_trim |].
    split; [exact Hin |].
    exact (Hm _ (stripped_trim s) _ (same_letters_refl _)).
  - intros query t t' _ Ht Ht' Htt.
    apply (filtered_ci query t); [exact Ht |].
    split; [exact Hin | exact (Hm t' Ht' t Htt)].
Qed.

Lemma search_finds_by_substring_witness :
  In (mkRecordItem "rec_b" (Some "sample-1") 12 "2025-01-01T00:00:01.000Z")
     (filtered "ple-1" (records sample_state)).
Proof.
  refine (proj1 (search_finds_by_substring "ple-1"
                   (mkRecordItem "rec_b" (Some "sample-1") 12
                      "2025-01-01T00:00:01.000Z")
                   (records sample_state) _ _ _)).
  - left. reflexivity.
  - unfold plain_record, safe. simpl. repeat split; lia.
  - left. exists "sample-1". split; [reflexivity |].
    exists "sam", EmptyString. reflexivity.
Defined.



(** X18.  Deleting a record takes it out of the search results and
    leaves the other results as they were: searching after the deletion
    gives what the search gave before, without the records of that id. *)
Theorem search_after_delete (query id : string) (st : AppState) :
  filtered query (records (fst (handleDelete id st)))
  = filter (fun r => negb (rec_id r =? id)%string)
           (filtered query (records st)).
Proof.
  unfold filtered. cbn [handleDelete fst records].
  destruct (negb (Str.truthy (Str.toLowerCase (Str.trim query))));
    [reflexivity | apply filter_comm].
Qed.

(** ** The history below and at its limit *)

(** X19.  While the history has room, nothing is dropped: after runs
    that fit under the limit of 200 together with what was there, the
    history is those runs, latest first, followed by what was there. *)
Theorem history_without_eviction (qs : list RunRequest) (st : AppState)
    (Hfit : (List.length qs + List.length (commands st) <= 200)%nat) :
  commands (run_all qs st)
  = (rev (map (executed st) qs) ++ commands st)%list
  /\ List.length (commands (run_all qs st))
     = (List.length qs + List.length (commands st))%nat.
Proof.
  assert (H : commands (run_all qs st)
              = (rev (map (executed st) qs) ++ commands st)%list).
  { destruct qs as [| q qs]; [reflexivity |].
    rewrite run_all_commands. apply firstn_all2.
    rewrite length_app, length_rev, length_map.
    unfold history_limit. exact Hfit. }
  split; [exact H |].
  rewrite H, length_app, length_rev, length_map. reflexivity.
Qed.

Lemma history_without_eviction_witness :
  commands (run_all [mkRunRequest "cmd_b" "2025-01-01T00:00:04.000Z"
                       (Some "rec_b") "check"] sample_state)
  = [mkCommandRun "cmd_b" (Some "rec_b") "check" "YES: 12 = 2 × 6"
       "2025-01-01T00:00:04.000Z";
     mkCommandRun "cmd_a" (Some "rec_a") "check"
       "NO: 7 is prime — it cannot be expressed as product of two integers > 1."
       "2025-01-01T00:00:02.000Z"].
Proof.
  refine (proj1 (history_without_eviction
                   [mkRunRequest "cmd_b" "2025-01-01T00:00:04.000Z"
                      (Some "rec_b") "check"] sample_state _)).
  simpl. lia.
Defined.

(** X20.  On a full history of 200 runs, one more run drops exactly the
    last entry of the list and keeps all the others, in their order,
    behind the new one; where the history was in the order of
    [startedAt], newest first, no entry that is kept started before the
    one dropped. *)
Theorem run_on_full_history (q : RunRequest) (st : AppState)
    (Hfull : List.length (commands st) = 200%nat) :
  commands (run st q) = executed st q :: removelast (commands st)
  /\ List.length (commands (run st q)) = 200%nat
  /\ exists dropped,
       commands st = (removelast (commands st) ++ [dropped])%list
       /\ (StronglySorted newest_first (commands st) ->
           forall c, In c (removelast (commands st)) ->
             earlier (startedAt dropped) (startedAt c)).
Proof.
  assert (H : commands (run st q)
              = executed st q :: removelast (commands st)).
  { change (commands (run st q))
      with (firstn 200 (executed st q :: commands st)).
    rewrite removelast_firstn_len, Hfull. reflexivity. }
  split; [exact H |]. split.
  - change (commands (run st q))
      with (firstn 200 (executed st q :: commands st)).
    rewrite length_firstn. cbn [List.length]. lia.
  - assert (Hne : commands st <> []).
    { intros E. rewrite E in Hfull. discriminate. }
    exists (last (commands st) (executed st q)).
    pose proof (app_removelast_last (executed st q) Hne) as Hsplit.
    split; [exact Hsplit |].
    intros Hs c Hc. rewrite Hsplit in Hs.
    apply StronglySorted_app in Hs. destruct Hs as (_ & _ & Hall).
    apply (Hall c (last (commands st) (executed st q)) Hc).
    left. reflexivity.
Qed.

Lemma run_on_full_history_witness :
  List.length
    (commands (run (run_all sample_requests empty_state)
                   (mkRunRequest "cmd_x" "2025-01-01T00:00:09.000Z" None
                      "check:all")))
  = 200%nat.
Proof.
  refine (proj1 (proj2 (run_on_full_history
                   (mkRunRequest "cmd_x" "2025-01-01T00:00:09.000Z" None
                      "check:all")
                   (run_all sample_requests empty_state) _))).
  vm_compute. reflexivity.
Defined.

(** ** The two stored collections *)

(** X21.  The records and the runs are stored under two different keys:
    whichever of the two is saved last, both load again as they were
    saved, and what is stored under any other key is left alone. *)
Theorem both_collections_reload (rs : list RecordItem) (cs : list CommandRun)
    (ls : Storage) :
  load_records (save_commands cs (save_records rs ls)) = records_value rs
  /\ load_commands (save_commands cs (save_records rs ls)) = commands_value cs
  /\ load_records (save_records rs (save_commands cs ls)) = records_value rs
  /\ load_commands (save_records rs (save_commands cs ls)) = commands_value cs
  /\ (forall k, k <> LS_RECORDS -> k <> LS_COMMANDS ->
        getItem k (save_commands cs (save_records rs ls)) = getItem k ls).
Proof.
  assert (Hr : forall text,
             text = stringify_records rs ->
             load (Some text) = records_value rs).
  { intros text ->. unfold load. unfold stringify_records at 1.
    rewrite stringify_array_truthy, parse_stringify_records. reflexivity. }
  assert (Hc : forall text,
             text = stringify_commands cs ->
             load (Some text) = commands_value cs).
  { intros text ->. unfold load. unfold stringify_commands at 1.
    rewrite stringify_array_truthy, parse_stringify_commands. reflexivity. }
  unfold load_records, load_commands, save_records, save_commands,
    getItem, setItem.
  change (LS_RECORDS =? LS_COMMANDS)%string with false.
  change (LS_COMMANDS =? LS_RECORDS)%string with false.
  rewrite !String.eqb_refl.
  split; [apply Hr; reflexivity |]. split; [apply Hc; reflexivity |].
  split; [apply Hr; reflexivity |]. split; [apply Hc; reflexivity |].
  intros k Hk1 Hk2.
  destruct (String.eqb_spec k LS_COMMANDS); [contradiction |].
  destruct (String.eqb_spec k LS_RECORDS); [contradiction |].
  reflexivity.
Qed.

(** ** The exported file *)

Section ExportedFile.

Lemma skip_ws_app w s : spaces_only w = true -> skip_ws (w ++ s) = skip_ws s.
Proof.
  induction w as [| c w IH]; cbn [spaces_only append skip_ws];
    [reflexivity |].
  intros H. apply andb_true_iff in H. destruct H as [Hc Hw].
  rewrite Hc. exact (IH Hw).
Qed.

Lemma parse_value_skip fuel w s :
  spaces_only w = true -> parse_value fuel (w ++ s) = parse_value fuel s.
Proof.
  intros Hw. destruct fuel as [| fuel]; [reflexivity |].
  cbn [parse_value]. rewrite (skip_ws_app w s Hw). reflexivity.
Qed.

Lemma parse_members_skip fuel w s :
  spaces_only w = true -> parse_members fuel (w ++ s) = parse_members fuel s.
Proof.
  intros Hw. destruct fuel as [| fuel]; [reflexivity |].
  cbn [parse_members]. rewrite (skip_ws_app w s Hw). reflexivity.
Qed.

Lemma parse_elements_skip fuel w s :
  spaces_only w = true ->
  parse_elements fuel (w ++ s) = parse_elements fuel s.
Proof.
  intros Hw. destruct fuel as [| fuel]; [reflexivity |].
  cbn [parse_elements]. rewrite (parse_value_skip fuel w s Hw). reflexivity.
Qed.

Lemma spaces_only_app a b :
  spaces_only a = true -> spaces_only b = true -> spaces_only (a ++ b) = true.
Proof.
  intros Ha Hb. induction a as [| c a IH]; [exact Hb |].
  cbn [append spaces_only] in *. apply andb_true_iff in Ha.
  destruct Ha as [Hc Ha]. rewrite Hc. exact (IH Ha).
Qed.

Lemma reads_free_string s : reads_free 1 (quote s) (JString s).
Proof.
  intros [| fuel] rest Hfuel; [lia |].
  rewrite quote_app. cbn [parse_value skip_ws].
  change (is_ws dquote) with false. cbv iota.
  change (Ascii.eqb dquote dquote) with true. cbv iota.
  rewrite parse_quote_body. reflexivity.
Qed.

Lemma reads_free_reads n text v : reads_free n text v -> reads n text v.
Proof. intros H fuel rest Hfuel _. apply H. exact Hfuel. Qed.

Lemma join_cons2 sep x y l :
  Str.join sep (x :: y :: l) = x ++ sep ++ Str.join sep (y :: l).
Proof. reflexivity. Qed.

(** One property [key: value] and what comes after it. *)
Lemma parse_pretty_member fuel k t v tail :
  parse_value fuel (t ++ tail) = Ok v tail ->
  parse_members (S fuel) (pretty_member (k, t) ++ tail)
  = match skip_ws tail with
    | EmptyString => SyntaxError
    | String c3 r4 =>
        if Ascii.eqb c3 ","
        then omap (cons (k, v)) (parse_members fuel r4)
        else if Ascii.eqb c3 "}" then Ok [(k, v)] r4
        else SyntaxError
    end.
Proof.
  intros Hv. unfold pretty_member. cbn [fst snd].
  rewrite !append_assoc, quote_app.
  cbn [parse_members skip_ws].
  change (is_ws dquote) with false. cbv iota.
  change (Ascii.eqb dquote dquote) with true. cbv iota.
  rewrite parse_quote_body. cbn [bind append skip_ws].
  change (is_ws ":") with false. cbv iota.
  change (Ascii.eqb ":" ":") with true. cbv iota.
  change (String " " (t ++ tail)) with (String " " EmptyString ++ (t ++ tail)).
  rewrite parse_value_skip by reflexivity.
  rewrite Hv. reflexivity.
Qed.

Lemma parse_pretty_members (init : list (string * string * json))
    (last : string * string * json) (ind out : string) :
  Forall (fun m => reads 1 (snd (fst m)) (snd m)) init ->
  reads_free 1 (snd (fst last)) (snd last) ->
  spaces_only ind = true -> spaces_only out = true ->
  forall fuel rest,
    (List.length init + 1 < fuel)%nat ->
    parse_members fuel
      (Str.join ("," ++ line_feed ++ ind)
                (map pretty_member (map fst (init ++ [last])))
       ++ line_feed ++ out ++ String "}" rest)
    = Ok (map (fun m => (fst (fst m), snd m)) (init ++ [last])) rest.
Proof.
  intros Hinit Hlast Hind Hout.
  induction init as [| [[k t] v] init IH]; intros fuel rest Hfuel.
  - destruct last as [[k t] v]. cbn [fst snd] in Hlast.
    destruct fuel as [| fuel]; [simpl in Hfuel; lia |].
    cbn [app map Str.join concat fst].
    rewrite parse_pretty_member with (v := v)
      by (apply Hlast; simpl in Hfuel; lia).
    rewrite <- append_assoc.
    rewrite skip_ws_app by (apply spaces_only_app; [reflexivity | exact Hout]).
    reflexivity.
  - apply Forall_cons_iff in Hinit. destruct Hinit as [Hkv Hinit].
    cbn [fst snd] in Hkv.
    destruct fuel as [| fuel]; [simpl in Hfuel; lia |].
    assert (Hshape : exists m ms,
               map fst (init ++ [last]) = m :: ms).
    { destruct init; eexists; eexists; reflexivity. }
    destruct Hshape as (m & ms & Hshape).
    change (map fst (((k, t, v) :: init) ++ [last]))
      with ((k, t) :: map fst (init ++ [last])).
    rewrite Hshape. cbn [map]. rewrite join_cons2.
    rewrite !append_assoc. cbn [append].
    rewrite parse_pretty_member with (v := v)
      by (apply Hkv; [simpl in Hfuel; lia | apply closes_comma]).
    cbn [skip_ws]. change (is_ws ",") with false. cbv iota.
    change (Ascii.eqb "," ",") with true. cbv iota.
    rewrite <- (append_assoc line_feed ind).
    rewrite parse_members_skip
      by (apply spaces_only_app; [reflexivity | exact Hind]).
    change (pretty_member m :: map pretty_member ms)
      with (map pretty_member (m :: ms)).
    rewrite <- Hshape.
    pose proof (IH Hinit fuel rest ltac:(simpl in Hfuel; lia)) as IH'.
    cbn [append] in IH'. rewrite IH'. reflexivity.
Qed.

Lemma reads_free_pretty_object (init : list (string * string * json))
    (last : string * string * json) (out : string) :
  Forall (fun m => reads 1 (snd (fst m)) (snd m)) init ->
  reads_free 1 (snd (fst last)) (snd last) ->
  spaces_only out = true ->
  reads_free (List.length init + 3)
    (pretty_object out (map fst (init ++ [last])))
    (object_of (map (fun m => (fst (fst m), snd m)) (init ++ [last]))).
Proof.
  intros Hinit Hlast Hout fuel rest Hfuel.
  destruct fuel as [| fuel]; [lia |].
  assert (Hind : spaces_only (out ++ "  ") = true)
    by (apply spaces_only_app; [exact Hout | reflexivity]).
  pose proof (parse_pretty_members init last (out ++ "  ") out Hinit Hlast
                Hind Hout fuel rest ltac:(lia)) as Hms.
  assert (Hshape : exists m ms, map fst (init ++ [last]) = m :: ms).
  { destruct init; eexists; eexists; reflexivity. }
  destruct Hshape as (m & ms & Hshape). rewrite Hshape in Hms |- *.
  unfold pretty_object.
  set (ind := out ++ "  ") in *.
  set (body := Str.join ("," ++ line_feed ++ ind)
                        (map pretty_member (m :: ms))) in *.
  rewrite !append_assoc. cbn [append].
  cbn [parse_value skip_ws].
  change (is_ws "{") with false. cbv iota.
  change (Ascii.eqb "{" dquote) with false.
  change (Ascii.eqb "{" "[") with false.
  change (Ascii.eqb "{" "{") with true. cbv iota.
  rewrite <- (append_assoc line_feed ind).
  rewrite skip_ws_app, parse_members_skip
    by (apply spaces_only_app; [reflexivity | exact Hind]).
  cbn [append] in Hms. rewrite Hms.
  assert (Hhead : exists r',
             body ++ line_feed ++ out ++ String "}" rest = String dquote r').
  { unfold body. destruct ms; eexists; cbn [map Str.join concat];
      unfold pretty_member, quote; cbn [append]; reflexivity. }
  destruct Hhead as [r' Hr']. rewrite Hr'.
  cbn [skip_ws]. change (is_ws dquote) with false. cbv iota.
  change (Ascii.eqb dquote "}") with false. cbv iota.
  reflexivity.
Qed.

Lemma record_triples_split r :
  exists init last,
    record_triples r = (init ++ [last])%list
    /\ (List.length init <= 3)%nat
    /\ Forall (fun m => reads 1 (snd (fst m)) (snd m)) init
    /\ reads_free 1 (snd (fst last)) (snd last).
Proof.
  unfold record_triples. destruct (label r) as [l |].
  - exists [("id", quote (rec_id r), JString (rec_id r));
            ("label", quote l, JString l);
            ("value", toString (value r), JNumber (of_Z (value r)))],
           ("createdAt", quote (createdAt r), JString (createdAt r)).
    split; [reflexivity |]. split; [simpl; lia |].
    split; [| apply reads_free_string].
    repeat constructor; cbn [fst snd];
      (apply reads_string || apply reads_number).
  - exists [("id", quote (rec_id r), JString (rec_id r));
            ("value", toString (value r), JNumber (of_Z (value r)))],
           ("createdAt", quote (createdAt r), JString (createdAt r)).
    split; [reflexivity |]. split; [simpl; lia |].
    split; [| apply reads_free_string].
    repeat constructor; cbn [fst snd];
      (apply reads_string || apply reads_number).
Qed.

Lemma reads_free_pretty_record r :
  reads_free 6 (pretty_object "  " (record_members r)) (record_value r).
Proof.
  assert (Hm : map fst (record_triples r) = record_members r)
    by (unfold record_triples, record_members; destruct (label r); reflexivity).
  assert (Hv : object_of (map (fun m => (fst (fst m), snd m)) (record_triples r))
               = record_value r)
    by (unfold record_triples, record_value; destruct (label r); reflexivity).
  destruct (record_triples_split r) as (init & last & Hsplit & Hlen & Hi & Hl).
  rewrite <- Hm, <- Hv, Hsplit.
  intros fuel rest Hfuel.
  apply (reads_free_pretty_object init last "  " Hi Hl eq_refl). lia.
Qed.

Lemma parse_pretty_elements n (items : list (string * json)) (ind out : string) :
  items <> [] ->
  Forall (fun it => reads_free n (fst it) (snd it)) items ->
  spaces_only ind = true -> spaces_only out = true ->
  forall fuel rest,
    (n + List.length items <= fuel)%nat ->
    parse_elements fuel
      (Str.join ("," ++ line_feed ++ ind) (map fst items)
       ++ line_feed ++ out ++ String "]" rest)
    = Ok (map snd items) rest.
Proof.
  intros Hne Hall Hind Hout.
  induction items as [| [t v] items IH]; [congruence |].
  intros fuel rest Hfuel.
  apply Forall_cons_iff in Hall. destruct Hall as [Htv Hall].
  cbn [fst snd] in Htv.
  destruct fuel as [| fuel]; [simpl in Hfuel; lia |].
  destruct items as [| it items].
  - cbn [map Str.join concat fst snd parse_elements].
    rewrite (Htv fuel _) by (simpl in Hfuel; lia).
    cbn [bind]. rewrite <- append_assoc.
    rewrite skip_ws_app by (apply spaces_only_app; [reflexivity | exact Hout]).
    reflexivity.
  - change (map fst ((t, v) :: it :: items))
      with (t :: fst it :: map fst items).
    rewrite join_cons2. rewrite !append_assoc. cbn [append parse_elements].
    rewrite (Htv fuel _) by (simpl in Hfuel; lia).
    cbn [bind skip_ws]. change (is_ws ",") with false. cbv iota.
    change (Ascii.eqb "," ",") with true. cbv iota.
    rewrite <- (append_assoc line_feed ind).
    rewrite parse_elements_skip
      by (apply spaces_only_app; [reflexivity | exact Hind]).
    change (fst it :: map fst items) with (map fst (it :: items)).
    pose proof (IH ltac:(discriminate) Hall fuel rest
                  ltac:(simpl in Hfuel |- *; lia)) as IH'.
    cbn [append] in IH'. rewrite IH'. reflexivity.
Qed.

Lemma join_length_any sep (l : list string) :
  Forall (fun t => (2 <= String.length t)%nat) l ->
  (2 * List.length l <= String.length (Str.join sep l))%nat.
Proof.
  induction l as [| t l IH]; intros Hall; [simpl; lia |].
  apply Forall_cons_iff in Hall. destruct Hall as [Ht Hall].
  specialize (IH Hall).
  destruct l as [| t' l].
  - simpl. lia.
  - rewrite join_cons2, !length_append.
    cbn [List.length] in *. lia.
Qed.

Lemma pretty_object_shape out ms :
  exists r, pretty_object out ms = String "{" r
            /\ (1 <= String.length r)%nat.
Proof.
  unfold pretty_object. destruct ms as [| m ms].
  - eexists. split; [reflexivity | simpl; lia].
  - cbn [append]. eexists. split; [reflexivity |].
    rewrite !length_append. simpl. lia.
Qed.

Lemma parse_value_open_array fuel w r' :
  spaces_only w = true ->
  parse_value (S fuel) (String "[" (w ++ String "{" r'))
  = omap JArray (parse_elements fuel (String "{" r')).
Proof.
  intros Hw. cbn [parse_value skip_ws].
  change (is_ws "[") with false. cbv iota.
  change (Ascii.eqb "[" dquote) with false.
  change (Ascii.eqb "[" "[") with true. cbv iota.
  rewrite (skip_ws_app w _ Hw), (parse_elements_skip fuel w _ Hw).
  cbn [skip_ws]. change (is_ws "{") with false. cbv iota.
  change (Ascii.eqb "{" "]") with false. cbv iota.
  reflexivity.
Qed.

Lemma parse_export_records rs :
  JSON.parse (export_records rs) = Some (records_value rs).
Proof.
  unfold export_records, records_value.
  destruct rs as [| r rs]; [reflexivity |].
  set (items := map (fun x => (pretty_object "  " (record_members x),
                               record_value x)) (r :: rs)).
  assert (Hfst : map (fun x => pretty_object "  " (record_members x)) (r :: rs)
                 = map fst items)
    by (unfold items; rewrite map_map; reflexivity).
  assert (Hsnd : map record_value (r :: rs) = map snd items)
    by (unfold items; rewrite map_map; reflexivity).
  assert (Hall : Forall (fun it => reads_free 6 (fst it) (snd it)) items).
  { unfold items. apply Forall_map, Forall_forall. intros x _.
    apply reads_free_pretty_record. }
  assert (Hlen : Forall (fun t => (2 <= String.length t)%nat) (map fst items)).
  { unfold items. rewrite map_map. apply Forall_map, Forall_forall.
    intros x _. cbn [fst].
    destruct (pretty_object_shape "  " (record_members x)) as (r' & -> & Hr').
    simpl. lia. }
  assert (Hitems : items <> []) by (unfold items; discriminate).
  set (body := Str.join ("," ++ line_feed ++ "  ") (map fst items)).
  pose proof (join_length_any ("," ++ line_feed ++ "  ")
                (map fst items) Hlen) as Hjoin.
  rewrite length_map in Hjoin. fold body in Hjoin.
  assert (Hhead : exists r', body ++ line_feed ++ "]" = String "{" r').
  { unfold body, items.
    destruct (pretty_object_shape "  " (record_members r)) as (r' & Hr' & _).
    destruct rs; cbn [map Str.join concat fst]; rewrite Hr';
      eexists; cbn [append]; reflexivity. }
  destruct Hhead as [r' Hr'].
  assert (Htext : pretty_array EmptyString (map fst items)
                  = String "[" ((line_feed ++ "  ")
                                ++ (body ++ line_feed ++ "]"))).
  { reflexivity. }
  rewrite Hfst, Hsnd, Htext. unfold JSON.parse.
  assert (Hfuel : exists fuel,
             fuel_for (String "[" ((line_feed ++ "  ")
                                   ++ (body ++ line_feed ++ "]")))
             = S fuel /\ (6 + List.length items <= fuel)%nat).
  { unfold fuel_for. cbn [String.length].
    rewrite !length_append. cbn [String.length].
    eexists. split; [rewrite Nat.add_1_r; reflexivity | lia]. }
  destruct Hfuel as (fuel & -> & Hfuel).
  rewrite Hr', (parse_value_open_array fuel (line_feed ++ "  ") r' eq_refl).
  rewrite <- Hr'.
  pose proof (parse_pretty_elements 6 items "  " EmptyString Hitems
                Hall eq_refl eq_refl fuel EmptyString Hfuel) as Hes.
  change (parse_elements fuel (body ++ line_feed ++ "]")
          = Ok (map snd items) EmptyString) in Hes.
  rewrite Hes. reflexivity.
Qed.

End ExportedFile.

(** X22.  The text of the "Export" button, indented by two spaces, is
    JSON that reads back as the records exported: it parses to the same
    value as the text that is stored, and that value is the collection,
    record for record. *)
Theorem export_round_trip (rs : list RecordItem) :
  JSON.parse (export_records rs) = Some (records_value rs)
  /\ JSON.parse (export_records rs) = JSON.parse (stringify_records rs)
  /\ option_map as_records (JSON.parse (export_records rs)) = Some (Some rs)
  /\ (rs = [] -> export_records rs = "[]").
Proof.
  rewrite parse_export_records, parse_stringify_records.
  split; [reflexivity |]. split; [reflexivity |].
  split; [cbn [option_map]; rewrite as_records_value; reflexivity |].
  intros ->. reflexivity.
Qed.

(** ** The drawer after a run, and the report of ["check:all"] *)

Section DrawerAndReport.

Lemma find_existsb {A : Type} (p : A -> bool) (l : list A) :
  existsb p l = match find p l with Some _ => true | None => false end.
Proof.
  induction l as [| x l IH]; simpl; [reflexivity |].
  destruct (p x); [reflexivity | exact IH].
Qed.

Lemma join_contains sep (l : list string) (t : string) :
  In t l -> contains (Str.join sep l) t.
Proof.
  induction l as [| x l IH]; intros Hin; [contradiction |].
  destruct l as [| y l].
  - destruct Hin as [-> | []]. exists EmptyString, EmptyString.
    cbn [Str.join concat append]. now rewrite append_nil_r.
  - rewrite join_cons2. destruct Hin as [-> | Hin].
    + exists EmptyString, (sep ++ Str.join sep (y :: l)). reflexivity.
    + destruct (IH Hin) as (a & b & Hab).
      exists (x ++ sep ++ a), b. rewrite Hab, !append_assoc. reflexivity.
Qed.

End DrawerAndReport.

(** X23.  After every run the drawer is open and shows the output of
    that run; its title names the record of the [recordId] given when a
    record has that id, and is plain "Output" when none has or when no
    [recordId] was given. *)
Theorem drawer_after_run (id started : string) (rid : option string)
    (cmd : string) (st : AppState) :
  drawerOpen (runCommand id started rid cmd st) = true
  /\ drawer_body (runCommand id started rid cmd st)
     = shows (command_output rid cmd (records st))
  /\ drawer_title (runCommand id started rid cmd st)
     = match rid with
       | Some x =>
           if existsb (fun r => (rec_id r =? x)%string) (records st)
           then "Output — " ++ x
           else "Output"
       | None => "Output"
       end.
Proof.
  split; [reflexivity |]. split; [reflexivity |].
  unfold drawer_title, runCommand. cbn [selectedRecord].
  destruct rid as [x |]; [| reflexivity].
  cbn [find_record]. rewrite find_existsb.
  destruct (find (fun r => (rec_id r =? x)%string) (records st)) as [r |] eqn:E;
    [| reflexivity].
  apply find_some in E. destruct E as [_ E]. apply String.eqb_eq in E.
  now rewrite E.
Qed.

(** X24.  The report of ["check:all"] has the line of every record of
    the collection in it. *)
Theorem check_all_reports_every_record (rid : option string)
    (rs : list RecordItem) (r : RecordItem) (Hin : In r rs) :
  contains (command_output rid "check:all" rs) (check_line r).
Proof.
  change (command_output rid "check:all" rs)
    with (Str.join blank_line (map check_line rs)).
  apply join_contains. apply in_map. exact Hin.
Qed.

Lemma check_all_reports_every_record_witness :
  contains (command_output None "check:all" (records sample_state))
           "rec_a (7) → NO: 7 is prime — it cannot be expressed as product of two integers > 1.".
Proof.
  apply (check_all_reports_every_record None (records sample_state)
           (mkRecordItem "rec_a" None 7 "2025-01-01T00:00:00.000Z")).
  right. left. reflexivity.
Defined.
